(** * SCOUT by HVM: scoring, identity, merge and stats engine

    A shallow embedding of [scripts/utils.py], [scripts/config.py],
    [scripts/scrape_jobs.py] and [scripts/update_stats.py], and the
    properties of the specification proved (or refuted) on it.

    Modelling conventions.
    - A Python [str] is a [string] whose characters are the code points
      0..255 (the Latin-1 range).  [lower], [isspace] and the UTF-8
      [encode] follow CPython on that range.
    - Python [int] is [Z]; salary amounts (floats in the scraper) are
      rationals [Q]; NaN and infinities are not represented.
    - A job dictionary is a record with one field per key the scripts
      read or write; a key that may be missing (read with [.get]) is an
      [option].
    - A dictionary whose iteration order is observable (the merge map)
      is an association list with CPython's insertion-order semantics.
    - The files of the data directory are a [gmap] from file name to
      file text; code that reads and writes them is a function from
      the directory to a returned value or a raised exception, with the
      directory it leaves behind.
    - The [json] module and the scraper [jobspy.scrape_jobs] are
      collaborators: the first is the class [Json], the second a
      function parameter.  The clock is read once per run.  Output on
      the terminal ([print], [traceback]) and operating-system errors
      are left out. *)

From Stdlib Require Import ZArith QArith String Ascii List Bool Lia.
From Stdlib Require Import DecimalString.
From Stdlib Require Import Permutation Sorted Qround.
From stdpp Require Import gmap strings list.
Import ListNotations.

Local Open Scope string_scope.
Local Open Scope Z_scope.

(* ================================================================== *)
(** * Part I: definitions                                              *)
(* ================================================================== *)

(** ** Python strings on the Latin-1 range *)

Definition code (c : ascii) : Z := Z.of_N (N_of_ascii c).
Definition chr (z : Z) : ascii := ascii_of_N (Z.to_N z).

(** [str.lower] acts character by character on code points below 256:
    A-Z and the upper-case Latin-1 letters U+00C0..U+00DE (except the
    multiplication sign U+00D7) move up by 32. *)
Definition lower_char (c : ascii) : ascii :=
  let n := code c in
  if ((65 <=? n) && (n <=? 90))
     || ((192 <=? n) && (n <=? 222) && negb (n =? 215))
  then chr (n + 32) else c.

Fixpoint lower (s : string) : string :=
  match s with
  | EmptyString => EmptyString
  | String c r => String (lower_char c) (lower r)
  end.

(** [str.isspace] of one character: TAB..CR, FS..US, space, NEL, NBSP. *)
Definition isspace (c : ascii) : bool :=
  let n := code c in
  ((9 <=? n) && (n <=? 13)) || ((28 <=? n) && (n <=? 32))
  || (n =? 133) || (n =? 160).

Fixpoint lstrip (s : string) : string :=
  match s with
  | EmptyString => EmptyString
  | String c r => if isspace c then lstrip r else s
  end.

Fixpoint rstrip (s : string) : string :=
  match s with
  | EmptyString => EmptyString
  | String c r =>
      match rstrip r with
      | EmptyString => if isspace c then EmptyString else String c EmptyString
      | r' => String c r'
      end
  end.

(** [s.strip()] without argument. *)
Definition strip (s : string) : string := rstrip (lstrip s).


(** [kw in s]: [kw] occurs in [s] as a contiguous substring. *)
Fixpoint str_in (kw s : string) : bool :=
  String.prefix kw s
  || match s with
     | EmptyString => false
     | String _ r => str_in kw r
     end.

(** [s.encode()]: UTF-8, one byte below 128 and two bytes up to 255. *)
Definition encode_char (c : ascii) : list Z :=
  let n := code c in
  if n <? 128 then [n]
  else [Z.lor 192 (Z.shiftr n 6); Z.lor 128 (Z.land n 63)].

Fixpoint encode (s : string) : list Z :=
  match s with
  | EmptyString => []
  | String c r => encode_char c ++ encode r
  end.

(** ** MD5 (RFC 1321), as [hashlib.md5] computes it *)

Definition w32 (x : Z) : Z := x mod 2 ^ 32.
Definition add32 (x y : Z) : Z := w32 (x + y).
Definition not32 (x : Z) : Z := Z.lxor x 0xffffffff.
Definition rotl32 (x n : Z) : Z :=
  Z.lor (w32 (Z.shiftl x n)) (Z.shiftr x (32 - n)).

Definition md5_shift : list Z :=
  [7; 12; 17; 22; 7; 12; 17; 22; 7; 12; 17; 22; 7; 12; 17; 22;
   5; 9; 14; 20; 5; 9; 14; 20; 5; 9; 14; 20; 5; 9; 14; 20;
   4; 11; 16; 23; 4; 11; 16; 23; 4; 11; 16; 23; 4; 11; 16; 23;
   6; 10; 15; 21; 6; 10; 15; 21; 6; 10; 15; 21; 6; 10; 15; 21].

Definition md5_K : list Z :=
  [0xd76aa478; 0xe8c7b756; 0x242070db; 0xc1bdceee;
   0xf57c0faf; 0x4787c62a; 0xa8304613; 0xfd469501;
   0x698098d8; 0x8b44f7af; 0xffff5bb1; 0x895cd7be;
   0x6b901122; 0xfd987193; 0xa679438e; 0x49b40821;
   0xf61e2562; 0xc040b340; 0x265e5a51; 0xe9b6c7aa;
   0xd62f105d; 0x02441453; 0xd8a1e681; 0xe7d3fbc8;
   0x21e1cde6; 0xc33707d6; 0xf4d50d87; 0x455a14ed;
   0xa9e3e905; 0xfcefa3f8; 0x676f02d9; 0x8d2a4c8a;
   0xfffa3942; 0x8771f681; 0x6d9d6122; 0xfde5380c;
   0xa4beea44; 0x4bdecfa9; 0xf6bb4b60; 0xbebfbc70;
   0x289b7ec6; 0xeaa127fa; 0xd4ef3085; 0x04881d05;
   0xd9d4d039; 0xe6db99e5; 0x1fa27cf8; 0xc4ac5665;
   0xf4292244; 0x432aff97; 0xab9423a7; 0xfc93a039;
   0x655b59c3; 0x8f0ccc92; 0xffeff47d; 0x85845dd1;
   0x6fa87e4f; 0xfe2ce6e0; 0xa3014314; 0x4e0811a1;
   0xf7537e82; 0xbd3af235; 0x2ad7d2bb; 0xeb86d391].

(** The four chaining words A, B, C, D. *)
Record md5_state := MkMd5 { md5_a : Z; md5_b : Z; md5_c : Z; md5_d : Z }.

Definition md5_init : md5_state :=
  MkMd5 0x67452301 0xefcdab89 0x98badcfe 0x10325476.

(** Little-endian bytes of a 32-bit word, and back. *)
Definition le_bytes32 (x : Z) : list Z :=
  [Z.land x 255; Z.land (Z.shiftr x 8) 255;
   Z.land (Z.shiftr x 16) 255; Z.land (Z.shiftr x 24) 255].

Definition le_word32 (b0 b1 b2 b3 : Z) : Z :=
  Z.lor (Z.lor b0 (Z.shiftl b1 8)) (Z.lor (Z.shiftl b2 16) (Z.shiftl b3 24)).

Fixpoint le_words (bs : list Z) : list Z :=
  match bs with
  | b0 :: b1 :: b2 :: b3 :: r => le_word32 b0 b1 b2 b3 :: le_words r
  | _ => []
  end.

(** Padding: 0x80, zeros up to 56 mod 64, then the bit length on
    eight little-endian bytes. *)
Definition md5_pad (msg : list Z) : list Z :=
  let len := Z.of_nat (List.length msg) in
  let zeros := Z.to_nat ((55 - len) mod 64) in
  let bits := (8 * len) mod 2 ^ 64 in
  msg ++ 128 :: repeat 0 zeros
      ++ le_bytes32 (w32 bits) ++ le_bytes32 (Z.shiftr bits 32).

(** One of the 64 operations on the block [M] (sixteen words). *)
Definition md5_step (M : list Z) (st : md5_state) (i : Z) : md5_state :=
  let '(MkMd5 A B C D) := st in
  let '(F, g) :=
    if i <? 16 then (Z.lor (Z.land B C) (Z.land (not32 B) D), i)
    else if i <? 32 then
      (Z.lor (Z.land D B) (Z.land (not32 D) C), (5 * i + 1) mod 16)
    else if i <? 48 then (Z.lxor B (Z.lxor C D), (3 * i + 5) mod 16)
    else (Z.lxor C (Z.lor B (not32 D)), (7 * i) mod 16) in
  let F' := add32 (add32 (add32 F A) (nth (Z.to_nat i) md5_K 0))
                  (nth (Z.to_nat g) M 0) in
  MkMd5 D (add32 B (rotl32 F' (nth (Z.to_nat i) md5_shift 0))) B C.

Definition md5_block (st : md5_state) (M : list Z) : md5_state :=
  let r := fold_left (md5_step M) (map Z.of_nat (seq 0 64)) st in
  MkMd5 (add32 (md5_a st) (md5_a r)) (add32 (md5_b st) (md5_b r))
        (add32 (md5_c st) (md5_c r)) (add32 (md5_d st) (md5_d r)).

(** Cut a word list into blocks of sixteen words. *)
Fixpoint md5_blocks (fuel : nat) (ws : list Z) : list (list Z) :=
  match fuel, ws with
  | S f, _ :: _ => firstn 16 ws :: md5_blocks f (skipn 16 ws)
  | _, _ => []
  end.

Definition md5 (msg : list Z) : md5_state :=
  let ws := le_words (md5_pad msg) in
  fold_left md5_block (md5_blocks (List.length ws) ws) md5_init.

Definition hex_digit (n : Z) : ascii :=
  if n <? 10 then chr (48 + n) else chr (87 + n).

Definition hex_byte (b : Z) : string :=
  String (hex_digit (Z.shiftr b 4)) (String (hex_digit (Z.land b 15)) "").

Definition digest (st : md5_state) : list Z :=
  le_bytes32 (md5_a st) ++ le_bytes32 (md5_b st)
  ++ le_bytes32 (md5_c st) ++ le_bytes32 (md5_d st).

(** [hashlib.md5(bs).hexdigest()] *)
Definition hexdigest (bs : list Z) : string :=
  fold_right (fun b acc => hex_byte b ++ acc) "" (digest (md5 bs)).

(** ** utils.py: generate_job_id *)

(** [raw = f"{title}{company}{location}".lower().strip()],
    [hashlib.md5(raw.encode()).hexdigest()[:12]] *)
Definition generate_job_id (title company location : string) : string :=
  let raw := strip (lower (title ++ company ++ location)) in
  substring 0 12 (hexdigest (encode raw)).

(** ** config.py *)

Record Config := {
  SEARCH_QUERIES : list string;
  LOCATIONS : list string;
  TITLE_KEYWORDS_HIGH : list string;
  DESCRIPTION_KEYWORDS_MUST : list string;
  DESCRIPTION_KEYWORDS_NICE : list string;
  EXCLUDE_TITLE_KEYWORDS : list string;
  MIN_RELEVANCE_SCORE : Z;
  MIN_SALARY_PREFERRED : Z;
  SALARY_BOOST_THRESHOLD : Z
}.

Definition config : Config := {|
  SEARCH_QUERIES :=
    ["Senior Program Manager"; "Director of Growth";
     "Head of Strategy and Operations"; "Senior Product Manager Growth";
     "Business Head"; "Growth Strategy Lead"; "Senior Business Manager";
     "Category Head"; "P&L Manager"; "Head of Business Operations";
     "AI Operations Manager"; "Product Strategy Manager";
     "City Business Head"; "Marketplace Operations Lead"];
  LOCATIONS :=
    ["Pune, India"; "Bangalore, India"; "Mumbai, India"; "Gurgaon, India";
     "Hyderabad, India"; "Delhi, India"; "Remote"];
  TITLE_KEYWORDS_HIGH :=
    ["director"; "head"; "lead"; "senior"; "principal"; "vp";
     "growth"; "strategy"; "program"; "product"; "business";
     "p&l"; "marketplace"; "category"; "city"];
  DESCRIPTION_KEYWORDS_MUST :=
    ["strategy"; "growth"; "program"; "product"; "operations";
     "p&l"; "business"; "stakeholder"; "cross-functional"];
  DESCRIPTION_KEYWORDS_NICE :=
    ["ai"; "sql"; "data"; "analytics"; "user acquisition";
     "marketplace"; "food"; "delivery"; "consumer"; "fintech";
     "tableau"; "dashboard"; "okr"; "revenue"];
  EXCLUDE_TITLE_KEYWORDS :=
    ["intern"; "fresher"; "junior"; "associate"; "entry level";
     "trainee"; "graduate"; "assistant"];
  MIN_RELEVANCE_SCORE := 30;
  MIN_SALARY_PREFERRED := 2500000;
  SALARY_BOOST_THRESHOLD := 3500000
|}.

(** ** The job dictionary *)

(** Keys read with [job.get(...)] may be missing and are options; the
    key ["_id"] is read with [j["_id"]] and is always there. *)
Record Job := {
  title : option string;
  company : option string;
  company_url : option string;
  job_url : option string;
  location : option string;
  is_remote : option bool;
  description : option string;
  job_type : option string;
  source : option string;
  date_posted : option string;
  emails : option (list string);
  min_amount : option Q;
  max_amount : option Q;
  currency : option string;
  salary_source : option string;
  _id : string;
  _scraped_at : option string;
  _scraped_date : option string;
  _search_query : option string;
  _relevance_score : option Z;
  _status : option string;
  _tailored : option bool;
  _outreach_drafted : option bool;
  _outreach_sent : option bool;
  _tailored_file : option string
}.

(** ** utils.py: score_relevance *)

(** [job.get(k) or ""] *)
Definition or_empty (o : option string) : string :=
  match o with Some s => s | None => "" end.

(** [job.get(k) or 0]: a missing, [None] or zero amount gives [0]. *)
Definition or_zero (o : option Q) : Q :=
  match o with
  | Some q => if Qeq_bool q 0 then 0%Q else q
  | None => 0%Q
  end.

(** [max(a, b)] of Python: [b] only when it is strictly greater. *)
Definition py_max (a b : Q) : Q := if Qle_bool b a then a else b.

(** [sum(1 for kw in kws if kw in s)] *)
Definition count_hits (kws : list string) (s : string) : Z :=
  Z.of_nat (List.length (List.filter (fun kw => str_in kw s) kws)).

(** [any(kw in s for kw in kws)] *)
Definition any_in (kws : list string) (s : string) : bool :=
  existsb (fun kw => str_in kw s) kws.

(** The four sub-scores, in the order the function adds them. *)
Definition title_points (cfg : Config) (title : string) : Z :=
  Z.min 40 (count_hits (TITLE_KEYWORDS_HIGH cfg) title * 12).

Definition must_points (cfg : Config) (text : string) : Z :=
  Z.min 25 (count_hits (DESCRIPTION_KEYWORDS_MUST cfg) text * 5).

Definition nice_points (cfg : Config) (text : string) : Z :=
  Z.min 20 (count_hits (DESCRIPTION_KEYWORDS_NICE cfg) text * 3).

Definition salary_points (cfg : Config) (job : Job) : Z :=
  let min_salary := or_zero (min_amount job) in
  let max_salary := or_zero (max_amount job) in
  let salary := py_max min_salary max_salary in
  if Qle_bool (inject_Z (SALARY_BOOST_THRESHOLD cfg)) salary then 15
  else if Qle_bool (inject_Z (MIN_SALARY_PREFERRED cfg)) salary then 8
  else 0.

Definition score_relevance (job : Job) (cfg : Config) : Z :=
  let score := 0 in
  let title := lower (or_empty (title job)) in
  let description := lower (or_empty (description job)) in
  let text := title ++ " " ++ description in
  let score := score + title_points cfg title in
  let score := score + must_points cfg text in
  let score := score + nice_points cfg text in
  let score := score + salary_points cfg job in
  let score := if any_in (EXCLUDE_TITLE_KEYWORDS cfg) title then 0 else score in
  Z.min 100 score.

(** ** utils.py: deduplicate_jobs *)

(** A Python [dict] keyed by strings, in insertion order:
    [d[k] = v] replaces the value of an existing key in place and
    appends a new key at the end. *)
Definition dict (V : Type) : Type := list (string * V).

Fixpoint dict_set {V : Type} (k : string) (v : V) (d : dict V) : dict V :=
  match d with
  | [] => [(k, v)]
  | (k', v') :: r =>
      if String.eqb k' k then (k', v) :: r else (k', v') :: dict_set k v r
  end.

Fixpoint dict_get {V : Type} (k : string) (d : dict V) : option V :=
  match d with
  | [] => None
  | (k', v') :: r => if String.eqb k' k then Some v' else dict_get k r
  end.

(** [list(d.values())] *)
Definition dict_values {V : Type} (d : dict V) : list V := map snd d.

(** [for job in jobs: d[job["_id"]] = job] *)
Definition index_jobs (jobs : list Job) (d : dict Job) : dict Job :=
  fold_left (fun d j => dict_set (_id j) j d) jobs d.

Definition deduplicate_jobs (new_jobs existing_jobs : list Job) : list Job :=
  let existing_map := index_jobs existing_jobs [] in
  let existing_map := index_jobs new_jobs existing_map in
  dict_values existing_map.

(** The keys of a dict, in iteration order. *)
Definition dict_keys {V : Type} (d : dict V) : list string := map fst d.

(** The shape of every dict that [index_jobs] builds: keys are
    pairwise distinct and each job sits under its own ["_id"]. *)
Definition well_keyed (d : dict Job) : Prop :=
  List.NoDup (dict_keys d) /\ List.Forall (fun kv => _id (snd kv) = fst kv) d.

(** The last job of a list that carries the id [k]. *)
Fixpoint last_with_id (k : string) (jobs : list Job) : option Job :=
  match jobs with
  | [] => None
  | j :: r =>
      match last_with_id k r with
      | Some x => Some x
      | None => if String.eqb (_id j) k then Some j else None
      end
  end.

(** ** update_stats.py: the score histogram of run_stats *)

(** [j.get("_relevance_score", 0)] *)
Definition score_of (j : Job) : Z :=
  match _relevance_score j with Some s => s | None => 0 end.

(** The key the [if]/[elif] chain of lines 49-58 picks for a score. *)
Definition bucket_label (s : Z) : string :=
  if 90 <=? s then "90-100"
  else if 70 <=? s then "70-89"
  else if 50 <=? s then "50-69"
  else if 30 <=? s then "30-49"
  else "0-29".

(** [d[k] += 1]; [None] stands for the [KeyError] of a missing key. *)
Definition dict_incr (k : string) (d : dict Z) : option (dict Z) :=
  match dict_get k d with
  | Some n => Some (dict_set k (n + 1) d)
  | None => None
  end.

Definition score_buckets_init : dict Z :=
  [("90-100", 0); ("70-89", 0); ("50-69", 0); ("30-49", 0); ("0-29", 0)].

(** The loop of lines 47-58 over the job list. *)
Definition score_distribution (jobs : list Job) : option (dict Z) :=
  fold_left
    (fun acc j =>
       match acc with
       | Some score_buckets =>
           let s := score_of j in
           dict_incr (bucket_label s) score_buckets
       | None => None
       end)
    jobs (Some score_buckets_init).

(** [sum(d.values())] *)
Definition dict_total (d : dict Z) : Z := fold_right Z.add 0 (dict_values d).

(** The number of jobs whose score falls under the label [l]. *)
Definition count_label (l : string) (jobs : list Job) : Z :=
  Z.of_nat (List.length
    (List.filter (fun j => String.eqb (bucket_label (score_of j)) l) jobs)).

(** ** utils.py: the JSON files of the data directory *)

(** The [json] module on documents of type [D].  [json_load text] is
    [None] when [text] is not valid JSON ([json.load] raises
    [JSONDecodeError]), [Some None] when it is the JSON value [null]
    (Python's [None]) and [Some (Some d)] otherwise.  [json_dump d] is
    the sequence of chunks that [json.dump] writes to the file. *)
Class Json (D : Type) := {
  json_load : string -> option (option D);
  json_dump : D -> list string
}.

(** The text of a whole document. *)
Definition json_text {D : Type} `{Json D} (d : D) : string :=
  fold_right String.append "" (json_dump d).

(** The files of [DATA_DIR], by file name. *)
Abbreviation FS := (gmap string string).

Inductive exn := JSONDecodeError.

(** A computation on the data directory returns a value or raises,
    and leaves the directory in some state either way. *)
Inductive outcome (A : Type) :=
| Returned (a : A) (fs : FS)
| Raised (e : exn) (fs : FS).
Arguments Returned {A} a fs.
Arguments Raised {A} e fs.

Definition final_fs {A : Type} (o : outcome A) : FS :=
  match o with Returned _ fs => fs | Raised _ fs => fs end.

Definition IO (A : Type) : Type := FS -> outcome A.

Definition ret {A : Type} (a : A) : IO A := fun fs => Returned a fs.

Definition bind {A B : Type} (m : IO A) (k : A -> IO B) : IO B :=
  fun fs =>
    match m fs with
    | Returned a fs' => k a fs'
    | Raised e fs' => Raised e fs'
    end.

Notation "'run' x := m 'in' k" := (bind m (fun x => k))
  (at level 10, x name, m at level 100, k at level 200).

(** [for x in xs: acc = step(acc, x)] with effects. *)
Fixpoint for_each {A B : Type} (step : A -> B -> IO A) (acc : A)
    (xs : list B) : IO A :=
  match xs with
  | [] => ret acc
  | x :: r => run acc' := step acc x in for_each step acc' r
  end.

(** [load_json]: [None] when the file does not exist, else what
    [json.load] makes of its text. *)
Definition load_json {D : Type} `{Json D} (filename : string)
    : IO (option D) :=
  fun fs =>
    match fs !! filename with
    | Some text =>
        match json_load text with
        | Some v => Returned v fs
        | None => Raised JSONDecodeError fs
        end
    | None => Returned None fs
    end.

(** What a writer does to one file: [open(path, "w")] creates or
    truncates it, each [f.write(chunk)] extends it. *)
Inductive fs_op :=
| Truncate (filename : string)
| Append (filename : string) (chunk : string).

Definition fs_apply (fs : FS) (op : fs_op) : FS :=
  match op with
  | Truncate f => <[f := ""]> fs
  | Append f chunk =>
      <[f := (match fs !! f with Some t => t | None => "" end ++ chunk)%string]> fs
  end.

(** [save_json]: open the target itself for writing and dump into it. *)
Definition save_json_ops {D : Type} `{Json D} (filename : string) (data : D)
    : list fs_op :=
  Truncate filename :: map (Append filename) (json_dump data).

Definition save_json {D : Type} `{Json D} (filename : string) (data : D)
    : IO unit :=
  fun fs => Returned tt (fold_left fs_apply (save_json_ops filename data) fs).

(** The successive states of the directory while a list of writes is
    carried out, the initial and the final one included: what another
    process can find there. *)
Fixpoint fs_trace (fs : FS) (ops : list fs_op) : list FS :=
  match ops with
  | [] => [fs]
  | op :: r => fs :: fs_trace (fs_apply fs op) r
  end.

(** [log_entry]: the document of log.json. *)
Record LogEntry := { timestamp : string; level : string; message : string }.
Record LogDoc := { entries : list LogEntry }.

(** [l[-n:]] *)
Definition last_n {A : Type} (n : nat) (l : list A) : list A :=
  skipn (List.length l - n) l.

Definition log_entry `{Json LogDoc} (now_iso : string)
    (message level : string) : IO unit :=
  run loaded := load_json "log.json" in
  let log_data :=
    match loaded with Some d => d | None => {| entries := [] |} end in
  let log_data :=
    {| entries := (entries log_data
         ++ [{| timestamp := now_iso; level := level; message := message |}])%list |} in
  let log_data := {| entries := last_n 500 (entries log_data) |} in
  save_json "log.json" log_data.

(** ** scrape_jobs.py *)

(** One row of the data frame the scraper returns, by column. *)
Record Row := {
  row_title : string;
  row_company_name : string;
  row_company : string;
  row_company_url : string;
  row_job_url : string;
  row_location : string;
  row_is_remote : bool;
  row_description : string;
  row_job_type : string;
  row_site : string;
  row_date_posted : string;
  row_emails : option (list string);
  row_min_amount : option Q;
  row_max_amount : option Q;
  row_currency : string;
  row_salary_source : string
}.

(** What one call of the scraper does: it raises, returns no frame
    (or an empty one), or returns rows. *)
Inductive scrape_result :=
| ScrapeRaised (e : string)
| NoFrame
| Frame (rows : list Row).

(** [float(x) if x and not isnan(x) else None] *)
Definition amount_or_none (x : option Q) : option Q :=
  match x with
  | Some q => if Qeq_bool q 0 then None else Some q
  | None => None
  end.

(** The keys written once the score is known (lines 80-84). *)
Definition with_score (j : Job) (score : Z) : Job := {|
  title := title j; company := company j; company_url := company_url j;
  job_url := job_url j; location := location j; is_remote := is_remote j;
  description := description j; job_type := job_type j; source := source j;
  date_posted := date_posted j; emails := emails j;
  min_amount := min_amount j; max_amount := max_amount j;
  currency := currency j; salary_source := salary_source j;
  _id := _id j; _scraped_at := _scraped_at j;
  _scraped_date := _scraped_date j; _search_query := _search_query j;
  _relevance_score := Some score;
  _status := Some "new"; _tailored := Some false;
  _outreach_drafted := Some false; _outreach_sent := Some false;
  _tailored_file := _tailored_file j |}.

(** The body of the loop over the rows (lines 51-84). *)
Definition make_job (cfg : Config) (now_iso today_str query : string)
    (row : Row) : Job :=
  let t := row_title row in
  let c := if String.eqb (row_company_name row) ""
           then row_company row else row_company_name row in
  let l := row_location row in
  let job := {|
    title := Some t; company := Some c;
    company_url := Some (row_company_url row);
    job_url := Some (row_job_url row); location := Some l;
    is_remote := Some (row_is_remote row);
    description := Some (row_description row);
    job_type := Some (row_job_type row); source := Some (row_site row);
    date_posted := Some (row_date_posted row);
    emails := Some (match row_emails row with Some e => e | None => [] end);
    min_amount := amount_or_none (row_min_amount row);
    max_amount := amount_or_none (row_max_amount row);
    currency := Some (row_currency row);
    salary_source := Some (row_salary_source row);
    _id := generate_job_id t c l;
    _scraped_at := Some now_iso; _scraped_date := Some today_str;
    _search_query := Some query;
    _relevance_score := None; _status := None; _tailored := None;
    _outreach_drafted := None; _outreach_sent := None;
    _tailored_file := None |} in
  with_score job (score_relevance job cfg).

(** [merged.sort(key=lambda j: j.get("_relevance_score", 0), reverse=True)]:
    a stable sort by decreasing score. *)
Fixpoint insert_desc (j : Job) (l : list Job) : list Job :=
  match l with
  | [] => [j]
  | x :: r =>
      if score_of x <=? score_of j then j :: l else x :: insert_desc j r
  end.

Definition sort_by_score (l : list Job) : list Job :=
  fold_right insert_desc [] l.

(** The document of jobs.json. *)
Record JobsDoc := {
  last_updated : option string;
  total_jobs : option Z;
  new_today : option Z;
  jobs : option (list Job)
}.

(** [load_json("jobs.json") or {"last_updated": "", "total_jobs": 0,
    "jobs": []}]: the default stands in for [None] and for the empty
    dict. *)
Definition or_default (loaded : option JobsDoc) : JobsDoc :=
  let fallback := {| last_updated := Some ""; total_jobs := Some 0;
                     new_today := None; jobs := Some [] |} in
  match loaded with
  | Some d =>
      match last_updated d, total_jobs d, new_today d, jobs d with
      | None, None, None, None => fallback
      | _, _, _, _ => d
      end
  | None => fallback
  end.

(** [existing_data.get("jobs", [])] *)
Definition jobs_of (d : JobsDoc) : list Job :=
  match jobs d with Some l => l | None => [] end.

(** [str(n)] of an integer. *)
Definition str_int (n : Z) : string := NilZero.string_of_int (Z.to_int n).

Definition len {A : Type} (l : list A) : Z := Z.of_nat (List.length l).

Section Pipeline.
Context {jobs_json : Json JobsDoc} {log_json : Json LogDoc}.
(** The scraper collaborator, by search term and location. *)
Variable scrape_jobs : string -> string -> scrape_result.
(** The clock: the UTC timestamp and the date of the run. *)
Variables now_iso today_str : string.
Variable cfg : Config.

(** One turn of the nested loops over queries and locations
    (lines 33-93); the state is [(all_new_jobs, errors)]. *)
Definition scrape_pair (st : list Job * list string)
    (ql : string * string) : IO (list Job * list string) :=
  let all_new_jobs := fst st in
  let errors := snd st in
  let query := fst ql in
  let location := snd ql in
  match scrape_jobs query location with
  | Frame rows =>
      let scored := map (make_job cfg now_iso today_str query) rows in
      let kept :=
        List.filter (fun job => MIN_RELEVANCE_SCORE cfg <=? score_of job)
          scored in
      ret ((all_new_jobs ++ kept)%list, errors)
  | NoFrame => ret st
  | ScrapeRaised e =>
      let err_msg :=
        "Scrape failed: '" ++ query ++ "' @ '" ++ location ++ "': " ++ e in
      run _ := log_entry now_iso err_msg "error" in
      ret (all_new_jobs, (errors ++ [err_msg])%list)
  end.

Definition scrape_all : IO JobsDoc :=
  run _ := log_entry now_iso "Starting daily job scrape" "info" in
  run st := for_each scrape_pair ([], [])
              (list_prod (SEARCH_QUERIES cfg) (LOCATIONS cfg)) in
  let all_new_jobs := fst st in
  let errors := snd st in
  (* Deduplicate within this run *)
  let seen := index_jobs all_new_jobs [] in
  let all_new_jobs := dict_values seen in
  (* Merge with existing jobs *)
  run loaded := load_json "jobs.json" in
  let existing_data := or_default loaded in
  let existing_jobs := jobs_of existing_data in
  let merged := deduplicate_jobs all_new_jobs existing_jobs in
  let merged := sort_by_score merged in
  let output := {| last_updated := Some now_iso;
                   total_jobs := Some (len merged);
                   new_today := Some (len all_new_jobs);
                   jobs := Some merged |} in
  run _ := save_json "jobs.json" output in
  run _ := log_entry now_iso
             ("Scrape complete: " ++ str_int (len all_new_jobs)
              ++ " new jobs found, " ++ str_int (len merged)
              ++ " total after dedup, " ++ str_int (len errors) ++ " errors")
             "info" in
  ret output.
End Pipeline.

(** A computation that leaves the file [f] as it found it, whether
    it returns or raises. *)
Definition keeps (f : string) {A : Type} (m : IO A) : Prop :=
  forall fs, final_fs (m fs) !! f = fs !! f.

(** The job list a run finds in jobs.json: empty when the file is
    missing, null or holds no ["jobs"] key (and when it is unreadable,
    where the run stops). *)
Definition persisted_jobs `{Json JobsDoc} (fs : FS) : list Job :=
  match fs !! "jobs.json" with
  | Some text =>
      match json_load text with
      | Some (Some d) => jobs_of d
      | _ => []
      end
  | None => []
  end.

(** A stand-in for [json] on a small directory: the texts of [files]
    parse to their documents, "null" to [None], nothing else parses;
    every document is written as the one chunk [name d]. *)
Definition table_json {D : Type} (files : list (string * D))
    (name : D -> string) : Json D :=
  {| json_load := fun t =>
       if String.eqb t "null" then Some None
       else match dict_get t files with
            | Some d => Some (Some d)
            | None => None
            end;
     json_dump := fun d => [name d] |}.

(** A codec for documents that are their own text, written in one
    chunk. *)
Definition text_json : Json string :=
  {| json_load := fun t => Some (Some t); json_dump := fun d => [d] |}.

(** A job dictionary holding ["_id"] and the keys the scorer reads. *)
Definition scorer_job (id : string) (t d : option string)
    (lo hi : option Q) : Job := {|
  title := t; company := None; company_url := None; job_url := None;
  location := None; is_remote := None; description := d;
  job_type := None; source := None; date_posted := None; emails := None;
  min_amount := lo; max_amount := hi; currency := None;
  salary_source := None; _id := id; _scraped_at := None;
  _scraped_date := None; _search_query := None; _relevance_score := None;
  _status := None; _tailored := None; _outreach_drafted := None;
  _outreach_sent := None; _tailored_file := None |}.

Definition text_job (id t d : string) : Job :=
  scorer_job id (Some t) (Some d) None None.

(** A job dictionary holding only ["_id"] and ["_relevance_score"]. *)
Definition scored_job (id : string) (s : option Z) : Job := {|
  title := None; company := None; company_url := None; job_url := None;
  location := None; is_remote := None; description := None;
  job_type := None; source := None; date_posted := None; emails := None;
  min_amount := None; max_amount := None; currency := None;
  salary_source := None; _id := id; _scraped_at := None;
  _scraped_date := None; _search_query := None; _relevance_score := s;
  _status := None; _tailored := None; _outreach_drafted := None;
  _outreach_sent := None; _tailored_file := None |}.

(** A job dictionary holding ["_id"], a description and the three
    pipeline-stage flags. *)
Definition staged_job (id d : string) (tailored drafted sent : bool) : Job := {|
  title := None; company := None; company_url := None; job_url := None;
  location := None; is_remote := None; description := Some d;
  job_type := None; source := None; date_posted := None; emails := None;
  min_amount := None; max_amount := None; currency := None;
  salary_source := None; _id := id; _scraped_at := None;
  _scraped_date := None; _search_query := None; _relevance_score := None;
  _status := None; _tailored := Some tailored;
  _outreach_drafted := Some drafted; _outreach_sent := Some sent;
  _tailored_file := None |}.

(** A small run: one stored record, a scraper that answers one
    search with two rows and fails on another, and stand-ins for
    [json] on the two documents. *)
Definition demo_row (t d : string) : Row := {|
  row_title := t; row_company_name := "Acme"; row_company := "";
  row_company_url := ""; row_job_url := ""; row_location := "Pune";
  row_is_remote := false; row_description := d; row_job_type := "";
  row_site := "indeed"; row_date_posted := "2026-01-02";
  row_emails := None; row_min_amount := None; row_max_amount := None;
  row_currency := "INR"; row_salary_source := "" |}.

Definition demo_scraper (query location : string) : scrape_result :=
  if String.eqb query "Business Head" && String.eqb location "Remote"
  then Frame
         [demo_row "Senior Program Manager"
            "growth strategy program product operations stakeholder ai sql data analytics";
          demo_row "Office Clerk" "filing and typing"]
  else if String.eqb query "Category Head" && String.eqb location "Remote"
  then ScrapeRaised "timed out"
  else NoFrame.

Definition demo_stored : JobsDoc := {|
  last_updated := Some "2026-01-01"; total_jobs := Some 1;
  new_today := Some 1; jobs := Some [scored_job "0123456789ab" (Some 55)] |}.

Definition demo_jobs_json : Json JobsDoc :=
  table_json [("<stored jobs>", demo_stored)] (fun _ => "<jobs>").

Definition demo_log_json : Json LogDoc :=
  table_json [("<log>", {| entries := [] |})] (fun _ => "<log>").

Definition demo_fs : FS := {["jobs.json" := "<stored jobs>"]}.

(** The record of the specification's worked scoring example. *)
Definition example_job : Job :=
  text_job "x" "Senior Program Manager"
    "growth strategy program product operations stakeholder ai sql data analytics".

(** A title with an exclusion keyword on a record whose four
    sub-scores are all at their caps. *)
Definition intern_job : Job :=
  scorer_job "y" (Some "Senior Director Head of Growth Strategy Intern")
    (Some "growth strategy program product operations stakeholder business ai sql data analytics okr revenue dashboard")
    (Some (inject_Z 3000000)) (Some (inject_Z 4000000)).

(** ** Views used by the further properties of Part II *)

(** A list of jobs in the order [sort(..., reverse=True)] leaves it:
    no record is followed by one with a greater score. *)
Definition by_score_desc (l : list Job) : Prop :=
  StronglySorted (fun a b => score_of b <= score_of a) l.

(** [k in seen] for a list of keys. *)
Definition key_in (k : string) (seen : list string) : bool :=
  existsb (String.eqb k) seen.

(** The ids of [jobs] that are not in [seen], each once, in the order
    of their first appearance. *)
Fixpoint first_ids (seen : list string) (jobs : list Job) : list string :=
  match jobs with
  | [] => []
  | j :: r =>
      if key_in (_id j) seen then first_ids seen r
      else _id j :: first_ids (seen ++ [_id j])%list r
  end.

(** The entries a run finds in log.json: none when the file is
    missing or null, [None] when its text does not parse. *)
Definition logged_entries `{Json LogDoc} (fs : FS) : option (list LogEntry) :=
  match fs !! "log.json" with
  | Some text =>
      match json_load text with
      | Some (Some d) => Some (entries d)
      | Some None => Some []
      | None => None
      end
  | None => Some []
  end.

(** [s.lower() == s]: no character of [s] is an upper-case letter. *)
Definition is_lower (s : string) : bool := String.eqb (lower s) s.

(** A configuration without the keywords that hold an upper-case
    letter. *)
Definition lowercase_keywords (cfg : Config) : Config := {|
  SEARCH_QUERIES := SEARCH_QUERIES cfg;
  LOCATIONS := LOCATIONS cfg;
  TITLE_KEYWORDS_HIGH := List.filter is_lower (TITLE_KEYWORDS_HIGH cfg);
  DESCRIPTION_KEYWORDS_MUST :=
    List.filter is_lower (DESCRIPTION_KEYWORDS_MUST cfg);
  DESCRIPTION_KEYWORDS_NICE :=
    List.filter is_lower (DESCRIPTION_KEYWORDS_NICE cfg);
  EXCLUDE_TITLE_KEYWORDS := List.filter is_lower (EXCLUDE_TITLE_KEYWORDS cfg);
  MIN_RELEVANCE_SCORE := MIN_RELEVANCE_SCORE cfg;
  MIN_SALARY_PREFERRED := MIN_SALARY_PREFERRED cfg;
  SALARY_BOOST_THRESHOLD := SALARY_BOOST_THRESHOLD cfg
|}.

(** One of the characters 0-9, a-f. *)
Definition is_hex_digit (c : ascii) : bool :=
  let n := code c in
  ((48 <=? n) && (n <=? 57)) || ((97 <=? n) && (n <=? 102)).

(** Every character of [s] satisfies [p]. *)
Fixpoint all_chars (p : ascii -> bool) (s : string) : bool :=
  match s with
  | EmptyString => true
  | String c r => p c && all_chars p r
  end.

(** [row.get("company_name", "") or row.get("company", "")] *)
Definition row_company_or_name (row : Row) : string :=
  if String.eqb (row_company_name row) "" then row_company row
  else row_company_name row.

(** ** update_stats.py: the other aggregates of run_stats *)

(** One message of an outreach draft and one draft, by the keys the
    scripts read. *)
Record Message := {
  msg_type : option string;
  msg_to : option string;
  msg_subject : option string;
  msg_body : option string;
  msg_status : option string
}.

Record Draft := {
  draft_job_id : option string;
  draft_company : option string;
  drafted_at : option string;
  draft_status : option string;
  messages : option (list Message)
}.

(** [sum(1 for x in l if p(x))] *)
Definition count_if {A : Type} (p : A -> bool) (l : list A) : Z :=
  Z.of_nat (List.length (List.filter p l)).

(** [o == s] for the result [o] of a [.get(key)]. *)
Definition get_is (o : option string) (s : string) : bool :=
  match o with Some x => String.eqb x s | None => false end.

(** Truth value of the result of a [.get(flag)]. *)
Definition get_true (o : option bool) : bool :=
  match o with Some b => b | None => false end.

(** Lines 28-33: the core counts. *)
Definition stats_new_today (today : string) (jobs : list Job) : Z :=
  count_if (fun j => get_is (_scraped_date j) today) jobs.

Definition stats_tailored_count (jobs : list Job) : Z :=
  count_if (fun j => get_true (_tailored j)) jobs.

(** [d.get("messages", [])] *)
Definition messages_of (d : Draft) : list Message :=
  match messages d with Some l => l | None => [] end.

(** Lines 34-43: messages of all drafts with a given status. *)
Definition stats_messages_with (status : string) (drafts : list Draft) : Z :=
  count_if (fun m => get_is (msg_status m) status)
    (flat_map messages_of drafts).

(** [collections.Counter]: a dict of counts in insertion order;
    counting a key adds one to its count, a new key starting at 0. *)
Definition counter_add (k : string) (c : dict Z) : dict Z :=
  match dict_get k c with
  | Some n => dict_set k (n + 1) c
  | None => dict_set k 1 c
  end.

Definition Counter (keys : list string) : dict Z :=
  fold_left (fun c k => counter_add k c) keys [].

(** [c.get(k, 0)] *)
Definition counter_get (k : string) (c : dict Z) : Z :=
  match dict_get k c with Some n => n | None => 0 end.

(** [c.most_common(n)]: the [n] greatest counts, greatest first, equal
    counts in insertion order. *)
Fixpoint insert_count (kv : string * Z) (l : dict Z) : dict Z :=
  match l with
  | [] => [kv]
  | x :: r => if snd x <=? snd kv then kv :: l else x :: insert_count kv r
  end.

Definition most_common (n : nat) (c : dict Z) : dict Z :=
  firstn n (fold_right insert_count [] c).

(** Line 61: [Counter(j.get("source", "unknown") for j in jobs)]. *)
Definition source_breakdown (jobs : list Job) : dict Z :=
  Counter (map (fun j => match source j with Some s => s | None => "unknown" end)
             jobs).

(** Line 72: [Counter(j.get("_status", "new") for j in jobs)]. *)
Definition status_pipeline (jobs : list Job) : dict Z :=
  Counter (map (fun j => match _status j with Some s => s | None => "new" end)
             jobs).

(** [s.split(",")[0]]: the text before the first comma. *)
Fixpoint before_comma (s : string) : string :=
  match s with
  | EmptyString => EmptyString
  | String c r =>
      if Ascii.eqb c "," then EmptyString else String c (before_comma r)
  end.

(** Lines 66-68: [loc = j.get("location", "Unknown")],
    [loc.split(",")[0].strip() if loc else "Unknown"]. *)
Definition city_of (j : Job) : string :=
  let loc := match location j with Some l => l | None => "Unknown" end in
  if String.eqb loc "" then "Unknown" else strip (before_comma loc).

(** Lines 64-69 and 140: the ten most common cities. *)
Definition location_counts (jobs : list Job) : dict Z :=
  Counter (map city_of jobs).

Definition location_breakdown (jobs : list Job) : dict Z :=
  most_common 10 (location_counts jobs).

(** Lines 94-98: the fifteen most common companies. *)
Definition top_companies (jobs : list Job) : dict Z :=
  most_common 15
    (Counter (map (fun j => match company j with
                            | Some c => c | None => "Unknown" end) jobs)).

(** Lines 74-91: one row per day of the last fourteen; [day_str i] is
    the date [i] days before the run. *)
Record DayRow := {
  day_date : string;
  day_jobs_found : Z;
  day_resumes_tailored : Z;
  day_outreach_drafted : Z
}.

Definition day_row (day_str : nat -> string) (jobs : list Job)
    (drafts : list Draft) (i : nat) : DayRow :=
  let date_str := day_str i in
  let day_jobs :=
    List.filter (fun j => get_is (_scraped_date j) date_str) jobs in
  {| day_date := date_str;
     day_jobs_found := len day_jobs;
     day_resumes_tailored := count_if (fun j => get_true (_tailored j)) day_jobs;
     day_outreach_drafted :=
       count_if (fun d => String.prefix date_str
                            (match drafted_at d with Some t => t | None => "" end))
         drafts |}.

Definition daily_activity (day_str : nat -> string) (jobs : list Job)
    (drafts : list Draft) : list DayRow :=
  rev (map (day_row day_str jobs drafts) (seq 0 14)).

(** Lines 111-120: the funnel. *)
Record Funnel := {
  discovered : Z;
  relevant_50plus : Z;
  tailored : Z;
  outreach_drafted : Z;
  outreach_sent : Z;
  applied : Z;
  interview : Z
}.

Definition funnel (jobs : list Job) (drafts : list Draft) : Funnel := {|
  discovered := len jobs;
  relevant_50plus := count_if (fun j => 50 <=? score_of j) jobs;
  tailored := stats_tailored_count jobs;
  outreach_drafted := len drafts;
  outreach_sent := stats_messages_with "sent" drafts;
  applied := counter_get "applied" (status_pipeline jobs);
  interview := counter_get "interview" (status_pipeline jobs)
|}.

(** ** config.py, tailor_resume.py and outreach_draft.py: whom to treat *)

Definition TOP_JOBS_TO_TAILOR : nat := 20.
Definition TOP_JOBS_TO_OUTREACH : nat := 10.

(** [rest = [j for j in jobs if not j.get(flag)]],
    [rest.sort(key=score, reverse=True)], [rest[:n]]. *)
Definition top_unflagged (flag : Job -> option bool) (n : nat)
    (jobs : list Job) : list Job :=
  let rest := List.filter (fun j => negb (get_true (flag j))) jobs in
  firstn n (sort_by_score rest).

(** tailor_resume.py, lines 165-167. *)
Definition to_tailor (jobs : list Job) : list Job :=
  top_unflagged _tailored TOP_JOBS_TO_TAILOR jobs.

(** outreach_draft.py, lines 224-226. *)
Definition to_draft (jobs : list Job) : list Job :=
  top_unflagged _outreach_drafted TOP_JOBS_TO_OUTREACH jobs.

(** [s.replace(a, b)] for one-character [a] and [b]. *)
Fixpoint replace_char (a b : ascii) (s : string) : string :=
  match s with
  | EmptyString => EmptyString
  | String c r =>
      String (if Ascii.eqb c a then b else c) (replace_char a b r)
  end.

(** tailor_resume.py, lines 176-177:
    [job.get(key, "unknown").replace(" ", "_").replace("/", "-")[:30]]. *)
Definition file_part (o : option string) : string :=
  let s := match o with Some x => x | None => "unknown" end in
  substring 0 30 (replace_char "/" "-" (replace_char " " "_" s)).

(** Line 178: the name of the file a tailored resume is saved under. *)
Definition tailored_filename (today_str : string) (job : Job) : string :=
  "tailored/" ++ today_str ++ "_" ++ file_part (company job) ++ "_"
  ++ file_part (title job) ++ "_" ++ _id job ++ ".json".

(** ** update_stats.py: salary insights (lines 100-109) *)

(** [a or b] on two optional amounts. *)
Definition amount_or (a b : option Q) : option Q :=
  match a with
  | Some q => if Qeq_bool q 0 then b else Some q
  | None => b
  end.

(** [s = j.get("max_amount") or j.get("min_amount")], kept
    [if s and s > 0]. *)
Definition usable_salary (j : Job) : option Q :=
  match amount_or (max_amount j) (min_amount j) with
  | Some s =>
      if Qeq_bool s 0 then None
      else if Qle_bool s 0 then None else Some s
  | None => None
  end.

Definition salaries (jobs : list Job) : list Q :=
  flat_map (fun j => match usable_salary j with Some s => [s] | None => [] end)
    jobs.

(** [max(l)] and [min(l)] of a non-empty list: the first greatest and
    the first least element. *)
Definition max_of (x : Q) (r : list Q) : Q :=
  fold_left (fun m y => if Qle_bool y m then m else y) r x.

Definition min_of (x : Q) (r : list Q) : Q :=
  fold_left (fun m y => if Qle_bool m y then m else y) r x.

(** [int(q)]: truncation toward zero. *)
Definition py_int (q : Q) : Z := Z.quot (Qnum q) (Zpos (Qden q)).

Definition stats_max_salary (jobs : list Job) : Z :=
  match salaries jobs with [] => 0 | x :: r => py_int (max_of x r) end.

Definition stats_min_salary (jobs : list Job) : Z :=
  match salaries jobs with [] => 0 | x :: r => py_int (min_of x r) end.

Definition stats_jobs_with_salary (jobs : list Job) : Z := len (salaries jobs).

(** ** outreach_draft.py: parse_personalization *)

(** [s.split("\n")]: the pieces between line feeds, at least one. *)
Fixpoint split_lines (s : string) : list string :=
  match s with
  | EmptyString => [EmptyString]
  | String c r =>
      if Ascii.eqb c (chr 10) then EmptyString :: split_lines r
      else match split_lines r with
           | [] => [String c EmptyString]
           | l :: ls => String c l :: ls
           end
  end.

(** [s.replace(old, "")] for a non-empty [old]: the occurrences of
    [old] are dropped, scanning from the left; [skip] counts the
    characters of an occurrence still to drop. *)
Fixpoint remove_from (old : string) (skip : nat) (s : string) : string :=
  match s with
  | EmptyString => EmptyString
  | String c r =>
      match skip with
      | S k => remove_from old k r
      | O =>
          if String.prefix old s
          then remove_from old (String.length old - 1) r
          else String c (remove_from old 0 r)
      end
  end.

Definition remove_all (old s : string) : string := remove_from old 0 s.

Record Personalization := {
  value_proposition : string;
  specific_alignment : string;
  hook : string
}.

(** The body of the loop over the lines (lines 72-78). *)
Definition parse_line (result : Personalization) (line : string)
    : Personalization :=
  let line := strip line in
  if String.prefix "VALUE_PROPOSITION:" line then
    {| value_proposition := strip (remove_all "VALUE_PROPOSITION:" line);
       specific_alignment := specific_alignment result;
       hook := hook result |}
  else if String.prefix "SPECIFIC_ALIGNMENT:" line then
    {| value_proposition := value_proposition result;
       specific_alignment := strip (remove_all "SPECIFIC_ALIGNMENT:" line);
       hook := hook result |}
  else if String.prefix "HOOK:" line then
    {| value_proposition := value_proposition result;
       specific_alignment := specific_alignment result;
       hook := strip (remove_all "HOOK:" line) |}
  else result.

Definition parse_personalization (text : string) : Personalization :=
  fold_left parse_line (split_lines text)
    {| value_proposition := ""; specific_alignment := ""; hook := "" |}.

(* ================================================================== *)
(** * Part II: theorems                                                *)
(* ================================================================== *)

(** ** Strings *)

Lemma str_app_cons (a : ascii) (s t : string) :
  (String a s ++ t)%string = String a (s ++ t).
Proof. reflexivity. Qed.

Lemma str_app_nil_r (s : string) : (s ++ "")%string = s.
Proof.
  induction s as [|a s IH]; [reflexivity|].
  rewrite str_app_cons, IH. reflexivity.
Qed.

Lemma str_app_assoc (s t u : string) :
  ((s ++ t) ++ u)%string = (s ++ (t ++ u))%string.
Proof.
  induction s as [|a s IH]; [reflexivity|].
  rewrite !str_app_cons, IH. reflexivity.
Qed.

Example md5_empty : hexdigest (encode "") = "d41d8cd98f00b204e9800998ecf8427e".
Proof. vm_compute. reflexivity. Qed.

Example md5_abc : hexdigest (encode "abc") = "900150983cd24fb0d6963f7d28e17f72".
Proof. vm_compute. reflexivity. Qed.

(** ** Relevance scoring *)

Lemma count_hits_nonneg (kws : list string) (s : string) : 0 <= count_hits kws s.
Proof. unfold count_hits. lia. Qed.

Lemma count_hits_le (kws : list string) (s : string) :
  count_hits kws s <= Z.of_nat (List.length kws).
Proof.
  unfold count_hits. apply inj_le.
  induction kws as [|kw kws IH]; simpl; [lia|].
  destruct (str_in kw s); simpl; lia.
Qed.

Lemma title_points_range cfg t : 0 <= title_points cfg t <= 40.
Proof.
  unfold title_points.
  pose proof (count_hits_nonneg (TITLE_KEYWORDS_HIGH cfg) t). lia.
Qed.

Lemma must_points_range cfg t : 0 <= must_points cfg t <= 25.
Proof.
  unfold must_points.
  pose proof (count_hits_nonneg (DESCRIPTION_KEYWORDS_MUST cfg) t). lia.
Qed.

Lemma nice_points_range cfg t : 0 <= nice_points cfg t <= 20.
Proof.
  unfold nice_points.
  pose proof (count_hits_nonneg (DESCRIPTION_KEYWORDS_NICE cfg) t). lia.
Qed.

Lemma salary_points_cases cfg job :
  salary_points cfg job = 15 \/ salary_points cfg job = 8
  \/ salary_points cfg job = 0.
Proof.
  unfold salary_points.
  destruct (Qle_bool (inject_Z (SALARY_BOOST_THRESHOLD cfg)) _); [tauto|].
  destruct (Qle_bool (inject_Z (MIN_SALARY_PREFERRED cfg)) _); tauto.
Qed.

(** The body of [score_relevance] read as one expression: the sum of
    the four capped sub-scores, replaced by zero when the title holds
    an exclusion keyword, under the final ceiling. *)
Lemma score_relevance_unfold job cfg :
  score_relevance job cfg =
    let t := lower (or_empty (title job)) in
    let text := t ++ " " ++ lower (or_empty (description job)) in
    Z.min 100
      (if any_in (EXCLUDE_TITLE_KEYWORDS cfg) t then 0
       else title_points cfg t + must_points cfg text
            + nice_points cfg text + salary_points cfg job).
Proof. unfold score_relevance. cbv zeta. rewrite !Z.add_0_l. reflexivity. Qed.

(** C1, as the specification words it: the worked example does not
    score 77. *)
Lemma example_job_score_not_77 : score_relevance example_job config <> 77.
Proof. vm_compute. discriminate. Qed.

(** C1, amended: for title "Senior Program Manager" and the example
    description, without salary fields, the configured keyword lists
    give two title hits ("senior", "program": 24 points), six must-have
    hits (30, capped at 25) and four nice-to-have hits (12), no salary
    boost and no exclusion: the score is 61. *)
Theorem example_job_score :
  let t := lower (or_empty (title example_job)) in
  let text := t ++ " " ++ lower (or_empty (description example_job)) in
  List.filter (fun kw => str_in kw t) (TITLE_KEYWORDS_HIGH config)
    = ["senior"; "program"]
  /\ title_points config t = 24
  /\ count_hits (DESCRIPTION_KEYWORDS_MUST config) text = 6
  /\ must_points config text = 25
  /\ count_hits (DESCRIPTION_KEYWORDS_NICE config) text = 4
  /\ nice_points config text = 12
  /\ salary_points config example_job = 0
  /\ any_in (EXCLUDE_TITLE_KEYWORDS config) t = false
  /\ score_relevance example_job config = 61.
Proof. vm_compute. repeat split; reflexivity. Qed.

(** Without an exclusion keyword in the title the result is the sum
    of the four sub-scores under the ceiling of 100. *)
Lemma score_without_exclusion (job : Job) (cfg : Config) :
  (forall kw, In kw (EXCLUDE_TITLE_KEYWORDS cfg) ->
              str_in kw (lower (or_empty (title job))) = false) ->
  score_relevance job cfg =
    let t := lower (or_empty (title job)) in
    let text := t ++ " " ++ lower (or_empty (description job)) in
    Z.min 100 (title_points cfg t + must_points cfg text
               + nice_points cfg text + salary_points cfg job).
Proof.
  intros Hnone. rewrite score_relevance_unfold. cbv zeta.
  assert (Hany : any_in (EXCLUDE_TITLE_KEYWORDS cfg)
                   (lower (or_empty (title job))) = false).
  { unfold any_in. apply not_true_is_false. intros Hc.
    apply existsb_exists in Hc. destruct Hc as [kw [Hin Hkw]].
    rewrite (Hnone kw Hin) in Hkw. discriminate. }
  rewrite Hany. reflexivity.
Qed.

(** C3: whenever the lower-cased title contains a keyword of the
    exclusion list, [score_relevance] returns 0, for every record and
    configuration, that is whatever the title, description and salary
    sub-scores add up to: the function first accumulates the sum
    ([score_relevance_unfold]) and the override then replaces it. *)
Theorem exclusion_forces_zero (job : Job) (cfg : Config) (kw : string) :
  In kw (EXCLUDE_TITLE_KEYWORDS cfg) ->
  str_in kw (lower (or_empty (title job))) = true ->
  score_relevance job cfg = 0.
Proof.
  intros Hin Hkw. rewrite score_relevance_unfold. cbv zeta.
  assert (Hany : any_in (EXCLUDE_TITLE_KEYWORDS cfg)
                   (lower (or_empty (title job))) = true).
  { unfold any_in. apply existsb_exists. exists kw. split; assumption. }
  rewrite Hany. reflexivity.
Qed.

(** At [intern_job] the sub-scores are 40, 25, 20 and 15, and the
    title contains "intern". *)
Lemma exclusion_forces_zero_witness :
  (let t := lower (or_empty (title intern_job)) in
   let text := t ++ " " ++ lower (or_empty (description intern_job)) in
   title_points config t + must_points config text
   + nice_points config text + salary_points config intern_job = 100)
  /\ score_relevance intern_job config = 0.
Proof.
  split.
  - vm_compute. reflexivity.
  - apply (exclusion_forces_zero intern_job config "intern").
    + vm_compute. left. reflexivity.
    + vm_compute. reflexivity.
Defined.


(** ** Insertion-ordered dictionaries *)

Section DictFacts.
Context {V : Type}.
Implicit Types (d : dict V) (k : string) (v : V).

Lemma dict_get_set k k' v d :
  dict_get k' (dict_set k v d)
  = if String.eqb k k' then Some v else dict_get k' d.
Proof.
  induction d as [|[k0 v0] d IH]; simpl; [reflexivity|].
  destruct (String.eqb k0 k) eqn:E0; simpl.
  - apply String.eqb_eq in E0. subst k0.
    destruct (String.eqb k k'); reflexivity.
  - rewrite IH. destruct (String.eqb k0 k') eqn:E1; [|reflexivity].
    apply String.eqb_eq in E1. subst k'. rewrite String.eqb_sym, E0.
    reflexivity.
Qed.

Lemma dict_get_None k d : dict_get k d = None <-> ~ In k (dict_keys d).
Proof.
  induction d as [|[k0 v0] d IH]; simpl; [tauto|].
  destruct (String.eqb k0 k) eqn:E0.
  - apply String.eqb_eq in E0. split; [discriminate|]. intros H. tauto.
  - apply String.eqb_neq in E0. rewrite IH. tauto.
Qed.

Lemma dict_get_Some_key k v d : dict_get k d = Some v -> In k (dict_keys d).
Proof.
  intros H. destruct (in_dec string_dec k (dict_keys d)) as [Hin|Hn]; [exact Hin|].
  apply dict_get_None in Hn. congruence.
Qed.

Lemma dict_set_new k v d : dict_get k d = None -> dict_set k v d = (d ++ [(k, v)])%list.
Proof.
  induction d as [|[k0 v0] d IH]; simpl; [reflexivity|].
  destruct (String.eqb k0 k); [discriminate|].
  intros H. rewrite (IH H). reflexivity.
Qed.

Lemma dict_keys_set_old k v v0 d :
  dict_get k d = Some v0 -> dict_keys (dict_set k v d) = dict_keys d.
Proof.
  unfold dict_keys.
  induction d as [|[k1 v1] d IH]; simpl; [discriminate|].
  destruct (String.eqb k1 k); simpl; [reflexivity|].
  intros H. rewrite (IH H). reflexivity.
Qed.

Lemma dict_keys_set_NoDup k v d :
  List.NoDup (dict_keys d) -> List.NoDup (dict_keys (dict_set k v d)).
Proof.
  intros Hnd. destruct (dict_get k d) as [v0|] eqn:E.
  - rewrite (dict_keys_set_old k v v0 d E). exact Hnd.
  - rewrite (dict_set_new k v d E). unfold dict_keys. rewrite List.map_app.
    simpl. apply List.NoDup_app; [exact Hnd| |].
    + constructor; [simpl; tauto|constructor].
    + intros x Hx Hx'. simpl in Hx'. destruct Hx' as [<-|[]].
      apply dict_get_None in E. exact (E Hx).
Qed.

(** A dict is determined by its key order and its lookups. *)
Lemma dict_ext d1 d2 :
  List.NoDup (dict_keys d1) ->
  dict_keys d1 = dict_keys d2 ->
  (forall k, dict_get k d1 = dict_get k d2) ->
  d1 = d2.
Proof.
  revert d2. induction d1 as [|[k1 v1] d1 IH]; intros [|[k2 v2] d2] Hnd Hk Hg;
    simpl in Hk; try discriminate; [reflexivity|].
  injection Hk as Hk1 Hk. subst k2.
  pose proof (Hg k1) as Hh. simpl in Hh. rewrite String.eqb_refl in Hh.
  injection Hh as ->.
  simpl in Hnd. apply List.NoDup_cons_iff in Hnd. destruct Hnd as [Hni Hnd].
  f_equal. apply IH; [exact Hnd|exact Hk|].
  intros k. destruct (String.eqb k1 k) eqn:E.
  - apply String.eqb_eq in E. subst k.
    assert (H1 : dict_get k1 d1 = None) by (apply dict_get_None; exact Hni).
    assert (H2 : dict_get k1 d2 = None).
    { apply dict_get_None. unfold dict_keys in *. rewrite <- Hk. exact Hni. }
    congruence.
  - specialize (Hg k). simpl in Hg. rewrite E in Hg. exact Hg.
Qed.
End DictFacts.

(** ** The merge: deduplicate_jobs *)

Lemma index_jobs_cons j jobs d :
  index_jobs (j :: jobs) d = index_jobs jobs (dict_set (_id j) j d).
Proof. reflexivity. Qed.

(** Looking a key up after a batch was indexed: the last job of the
    batch with that id, else what the dict held before. *)
Lemma dict_get_index_jobs k jobs d :
  dict_get k (index_jobs jobs d)
  = match last_with_id k jobs with
    | Some j => Some j
    | None => dict_get k d
    end.
Proof.
  revert d. induction jobs as [|j jobs IH]; intros d; [reflexivity|].
  rewrite index_jobs_cons, IH. simpl.
  destruct (last_with_id k jobs); [reflexivity|].
  rewrite dict_get_set. destruct (String.eqb (_id j) k); reflexivity.
Qed.

Lemma last_with_id_In k jobs j :
  last_with_id k jobs = Some j -> In j jobs /\ _id j = k.
Proof.
  induction jobs as [|j0 jobs IH]; simpl; [discriminate|].
  destruct (last_with_id k jobs) as [x|].
  - intros H. injection H as ->. destruct (IH eq_refl). tauto.
  - destruct (String.eqb (_id j0) k) eqn:E; [|discriminate].
    intros H. injection H as ->. apply String.eqb_eq in E. tauto.
Qed.

Lemma last_with_id_None k jobs :
  last_with_id k jobs = None -> forall j, In j jobs -> _id j <> k.
Proof.
  induction jobs as [|j0 jobs IH]; simpl; [tauto|].
  destruct (last_with_id k jobs) as [x|]; [discriminate|].
  destruct (String.eqb (_id j0) k) eqn:E; [discriminate|].
  apply String.eqb_neq in E.
  intros _ j [<-|Hin]; [exact E|apply IH; [reflexivity|exact Hin]].
Qed.

(** The last candidate with id [k]: nothing after it carries [k]. *)
Lemma last_with_id_split k (before after : list Job) c :
  _id c = k ->
  (forall j, In j after -> _id j <> k) ->
  last_with_id k (before ++ c :: after)%list = Some c.
Proof.
  intros Hc Hafter.
  assert (Htail : last_with_id k (c :: after) = Some c).
  { simpl. destruct (last_with_id k after) as [x|] eqn:E.
    - apply last_with_id_In in E. destruct E as [Hin Hx].
      destruct (Hafter x Hin Hx).
    - rewrite Hc, String.eqb_refl. reflexivity. }
  induction before as [|j before IH]; [exact Htail|].
  simpl. simpl in IH. rewrite IH. reflexivity.
Qed.

Lemma well_keyed_nil : well_keyed [].
Proof. split; constructor. Qed.

Lemma well_keyed_set j d : well_keyed d -> well_keyed (dict_set (_id j) j d).
Proof.
  intros [Hnd Hid]. split; [apply dict_keys_set_NoDup; exact Hnd|].
  clear Hnd. induction d as [|[k v] d IH]; simpl.
  - constructor; [reflexivity|constructor].
  - apply List.Forall_cons_iff in Hid. destruct Hid as [Hkv Hid].
    destruct (String.eqb k (_id j)) eqn:E.
    + apply String.eqb_eq in E. constructor; [simpl; congruence|exact Hid].
    + constructor; [exact Hkv|apply IH; exact Hid].
Qed.

Lemma well_keyed_index_jobs jobs d :
  well_keyed d -> well_keyed (index_jobs jobs d).
Proof.
  revert d. induction jobs as [|j jobs IH]; intros d Hd; [exact Hd|].
  rewrite index_jobs_cons. apply IH, well_keyed_set, Hd.
Qed.

(** Indexing jobs whose ids are all keys already keeps the key order. *)
Lemma dict_keys_index_jobs_old jobs d :
  (forall j, In j jobs -> dict_get (_id j) d <> None) ->
  dict_keys (index_jobs jobs d) = dict_keys d.
Proof.
  revert d. induction jobs as [|j jobs IH]; intros d Hall; [reflexivity|].
  rewrite index_jobs_cons, IH.
  - destruct (dict_get (_id j) d) as [v0|] eqn:E.
    + apply (dict_keys_set_old _ _ v0). exact E.
    + destruct (Hall j (or_introl eq_refl) E).
  - intros j' Hj'. rewrite dict_get_set.
    destruct (String.eqb (_id j) (_id j')); [discriminate|].
    apply Hall. right. exact Hj'.
Qed.

(** Reading the values of a well-keyed dict and indexing them again
    rebuilds the dict. *)
Lemma index_jobs_values (d acc : dict Job) :
  List.NoDup (dict_keys (acc ++ d)%list) ->
  List.Forall (fun kv => _id (snd kv) = fst kv) d ->
  index_jobs (dict_values d) acc = (acc ++ d)%list.
Proof.
  revert acc. induction d as [|[k v] d IH]; intros acc Hnd Hid.
  - simpl. rewrite List.app_nil_r. reflexivity.
  - apply List.Forall_cons_iff in Hid. destruct Hid as [Hkv Hid].
    simpl in Hkv. unfold dict_values. simpl map.
    rewrite index_jobs_cons, Hkv.
    assert (Hfresh : dict_get k acc = None).
    { apply dict_get_None. intros Hin. unfold dict_keys in Hnd.
      rewrite List.map_app in Hnd. simpl in Hnd.
      apply List.NoDup_remove_2 in Hnd. apply Hnd.
      apply List.in_or_app. left. exact Hin. }
    rewrite (dict_set_new _ _ _ Hfresh).
    fold (dict_values d). rewrite IH.
    + rewrite <- List.app_assoc. reflexivity.
    + rewrite <- List.app_assoc. exact Hnd.
    + exact Hid.
Qed.

Lemma index_jobs_values_nil (d : dict Job) :
  well_keyed d -> index_jobs (dict_values d) [] = d.
Proof. intros [Hnd Hid]. apply (index_jobs_values d []); assumption. Qed.

(** In a well-keyed dict the values carrying id [k] are exactly the
    value stored under [k]. *)
Lemma filter_id_values k (d : dict Job) :
  well_keyed d ->
  List.filter (fun r => String.eqb (_id r) k) (dict_values d)
  = match dict_get k d with Some c => [c] | None => [] end.
Proof.
  intros [Hnd Hid]. induction d as [|[k0 v0] d IH]; [reflexivity|].
  apply List.Forall_cons_iff in Hid. destruct Hid as [Hkv Hid].
  simpl in Hnd. apply List.NoDup_cons_iff in Hnd. destruct Hnd as [Hni Hnd].
  simpl in Hkv. simpl. rewrite Hkv.
  fold (dict_values d). rewrite (IH Hnd Hid).
  destruct (String.eqb k0 k) eqn:E; [|reflexivity].
  apply String.eqb_eq in E. rewrite <- E.
  apply dict_get_None in Hni. rewrite Hni. reflexivity.
Qed.

Lemma values_ids (d : dict Job) :
  List.Forall (fun kv => _id (snd kv) = fst kv) d ->
  map _id (dict_values d) = dict_keys d.
Proof.
  induction 1 as [|[k v] d Hkv _ IH]; [reflexivity|].
  unfold dict_values, dict_keys in *. simpl in *. rewrite IH, Hkv. reflexivity.
Qed.

Lemma merged_dict_well_keyed (new_jobs existing_jobs : list Job) :
  well_keyed (index_jobs new_jobs (index_jobs existing_jobs [])).
Proof. apply well_keyed_index_jobs, well_keyed_index_jobs, well_keyed_nil. Qed.

(** Indexing a batch into a dict that already went through the same
    batch changes nothing. *)
Lemma index_jobs_twice (jobs : list Job) (d : dict Job) :
  well_keyed d ->
  index_jobs jobs (index_jobs jobs d) = index_jobs jobs d.
Proof.
  intros Hd.
  assert (Hin : forall j, In j jobs ->
                  dict_get (_id j) (index_jobs jobs d) <> None).
  { intros j Hj. rewrite dict_get_index_jobs.
    destruct (last_with_id (_id j) jobs) eqn:E; [discriminate|].
    destruct (last_with_id_None _ _ E j Hj eq_refl). }
  apply dict_ext.
  - apply well_keyed_index_jobs, well_keyed_index_jobs, Hd.
  - apply dict_keys_index_jobs_old, Hin.
  - intros k. rewrite !dict_get_index_jobs.
    destruct (last_with_id k jobs); reflexivity.
Qed.

(** C5: when [c] is the candidate of the batch carrying id [X] (the
    last one, should the batch repeat the id), the records of the
    merged collection with id [X] are [c] and nothing else, whatever
    the persisted collection stored under [X]: the stored record is
    replaced as a whole, so each of its fields, the description and the
    flags _tailored, _outreach_drafted, _outreach_sent included, is
    the candidate's. *)
Theorem deduplicate_jobs_replaces
    (before after existing_jobs : list Job) (c : Job) (X : string) :
  _id c = X ->
  (forall j, In j after -> _id j <> X) ->
  let merged := deduplicate_jobs (before ++ c :: after)%list existing_jobs in
  List.filter (fun r => String.eqb (_id r) X) merged = [c]
  /\ forall r, In r merged -> _id r = X ->
       r = c
       /\ description r = description c
       /\ _tailored r = _tailored c
       /\ _outreach_drafted r = _outreach_drafted c
       /\ _outreach_sent r = _outreach_sent c.
Proof.
  intros Hc Hafter merged.
  assert (Hf : List.filter (fun r => String.eqb (_id r) X) merged = [c]).
  { unfold merged, deduplicate_jobs.
    rewrite filter_id_values by apply merged_dict_well_keyed.
    rewrite dict_get_index_jobs.
    rewrite (last_with_id_split X before after c Hc Hafter). reflexivity. }
  split; [exact Hf|].
  intros r Hr Hid.
  assert (Hrc : In r [c]).
  { rewrite <- Hf. apply List.filter_In. split; [exact Hr|].
    apply String.eqb_eq. exact Hid. }
  destruct Hrc as [<-|[]]. repeat split; reflexivity.
Qed.

(** A stored record that was tailored and contacted is overwritten by
    a freshly scraped candidate with the same id. *)
Lemma deduplicate_jobs_replaces_witness :
  let fresh := staged_job "k1" "new text" false false false in
  let stored := [staged_job "k0" "other" false false false;
                 staged_job "k1" "old text" true true true] in
  deduplicate_jobs [fresh] stored
    = [staged_job "k0" "other" false false false; fresh]
  /\ List.filter (fun r => String.eqb (_id r) "k1")
       (deduplicate_jobs [fresh] stored) = [fresh].
Proof.
  intros fresh stored. split.
  - vm_compute. reflexivity.
  - apply (deduplicate_jobs_replaces [] [] stored fresh "k1").
    + reflexivity.
    + intros j [].
Defined.

(** C6: merging a batch into the result of merging the same batch
    gives that result again, and the result holds no two records with
    the same id. *)
Theorem deduplicate_jobs_idempotent (new_jobs existing_jobs : list Job) :
  deduplicate_jobs new_jobs (deduplicate_jobs new_jobs existing_jobs)
  = deduplicate_jobs new_jobs existing_jobs
  /\ List.NoDup (map _id (deduplicate_jobs new_jobs existing_jobs)).
Proof.
  unfold deduplicate_jobs.
  pose proof (merged_dict_well_keyed new_jobs existing_jobs) as Hwk.
  split.
  - rewrite (index_jobs_values_nil _ Hwk).
    rewrite index_jobs_twice by apply well_keyed_index_jobs, well_keyed_nil.
    reflexivity.
  - destruct Hwk as [Hnd Hid]. rewrite (values_ids _ Hid). exact Hnd.
Qed.

(** ** The score histogram *)

Lemma bucket_label_cases (s : Z) :
  (90 <= s /\ bucket_label s = "90-100")
  \/ (70 <= s <= 89 /\ bucket_label s = "70-89")
  \/ (50 <= s <= 69 /\ bucket_label s = "50-69")
  \/ (30 <= s <= 49 /\ bucket_label s = "30-49")
  \/ (s <= 29 /\ bucket_label s = "0-29").
Proof.
  unfold bucket_label.
  destruct (Z.leb_spec 90 s); [left; split; [lia|reflexivity]|].
  destruct (Z.leb_spec 70 s); [right; left; split; [lia|reflexivity]|].
  destruct (Z.leb_spec 50 s); [do 2 right; left; split; [lia|reflexivity]|].
  destruct (Z.leb_spec 30 s); [do 3 right; left; split; [lia|reflexivity]|].
  do 4 right. split; [lia|reflexivity].
Qed.

(** The loop started from any five counters adds to each counter the
    number of jobs of its label. *)
Lemma score_loop_counts (jobs : list Job) (a b c d e : Z) :
  fold_left
    (fun acc j =>
       match acc with
       | Some score_buckets =>
           let s := score_of j in
           dict_incr (bucket_label s) score_buckets
       | None => None
       end)
    jobs
    (Some [("90-100", a); ("70-89", b); ("50-69", c); ("30-49", d); ("0-29", e)])
  = Some [("90-100", a + count_label "90-100" jobs);
          ("70-89", b + count_label "70-89" jobs);
          ("50-69", c + count_label "50-69" jobs);
          ("30-49", d + count_label "30-49" jobs);
          ("0-29", e + count_label "0-29" jobs)].
Proof.
  revert a b c d e. induction jobs as [|j jobs IH]; intros a b c d e.
  - unfold count_label. simpl. rewrite !Z.add_0_r. reflexivity.
  - cbn [fold_left]. cbv zeta. unfold count_label. cbn [List.filter].
    destruct (bucket_label_cases (score_of j))
      as [[_ ->]|[[_ ->]|[[_ ->]|[[_ ->]|[_ ->]]]]];
      cbn -[Z.add Z.of_nat fold_left List.filter bucket_label];
      rewrite IH; unfold count_label;
      repeat (f_equal; try lia).
Qed.

Lemma count_label_sum (jobs : list Job) :
  count_label "90-100" jobs + count_label "70-89" jobs
  + count_label "50-69" jobs + count_label "30-49" jobs
  + count_label "0-29" jobs = Z.of_nat (List.length jobs).
Proof.
  unfold count_label. induction jobs as [|j jobs IH]; [reflexivity|].
  cbn [List.filter List.length].
  destruct (bucket_label_cases (score_of j))
    as [[_ ->]|[[_ ->]|[[_ ->]|[[_ ->]|[_ ->]]]]];
    cbn -[Z.add Z.of_nat List.filter bucket_label]; lia.
Qed.

(** ** The data directory: save_json and load_json *)

Lemma fs_apply_other (fs : FS) (op : fs_op) (g : string) :
  g <> (match op with Truncate f => f | Append f _ => f end) ->
  fs_apply fs op !! g = fs !! g.
Proof.
  intros Hne. destruct op as [f|f chunk]; simpl;
    apply lookup_insert_ne; congruence.
Qed.

(** Appending chunks to an existing file extends its text by them. *)
Lemma append_chunks (f t : string) (chunks : list string) (fs : FS) :
  fs !! f = Some t ->
  fold_left fs_apply (map (Append f) chunks) fs !! f
    = Some (t ++ fold_right String.append "" chunks)%string
  /\ forall g, g <> f ->
       fold_left fs_apply (map (Append f) chunks) fs !! g = fs !! g.
Proof.
  revert t fs. induction chunks as [|c chunks IH]; intros t fs Ht.
  - simpl. rewrite Ht, str_app_nil_r. split; reflexivity.
  - cbn [map fold_left fold_right].
    assert (Hstep : fs_apply fs (Append f c) !! f = Some (t ++ c)%string).
    { simpl. rewrite Ht. apply lookup_insert_eq. }
    destruct (IH _ _ Hstep) as [IH1 IH2]. split.
    + rewrite IH1, str_app_assoc. reflexivity.
    + intros g Hg. rewrite (IH2 g Hg).
      apply (fs_apply_other fs (Append f c) g). exact Hg.
Qed.

Lemma save_json_result {D : Type} `{Json D} (filename : string) (data : D)
    (fs : FS) :
  exists fs', save_json filename data fs = Returned tt fs'
    /\ fs' !! filename = Some (json_text data)
    /\ forall g, g <> filename -> fs' !! g = fs !! g.
Proof.
  eexists. split; [reflexivity|].
  unfold save_json_ops. simpl.
  destruct (append_chunks filename "" (json_dump data) (<[filename:=""]> fs))
    as [H1 H2]; [apply lookup_insert_eq|].
  split; [exact H1|].
  intros g Hg. rewrite (H2 g Hg). apply lookup_insert_ne. congruence.
Qed.

(** While chunks are appended, the file holds the text so far followed
    by some prefix of the chunk list. *)
Lemma append_trace (f t : string) (chunks : list string) (fs s : FS) :
  fs !! f = Some t ->
  In s (fs_trace fs (map (Append f) chunks)) ->
  exists n, s !! f
    = Some (t ++ fold_right String.append "" (firstn n chunks))%string.
Proof.
  revert t fs. induction chunks as [|c chunks IH]; intros t fs Ht Hin.
  - simpl in Hin. destruct Hin as [<-|[]]. exists 0%nat. simpl.
    rewrite Ht, str_app_nil_r. reflexivity.
  - cbn [map fs_trace] in Hin. destruct Hin as [<-|Hin].
    + exists 0%nat. simpl. rewrite Ht, str_app_nil_r. reflexivity.
    + assert (Hstep : fs_apply fs (Append f c) !! f = Some (t ++ c)%string).
      { simpl. rewrite Ht. apply lookup_insert_eq. }
      destruct (IH _ _ Hstep Hin) as [n Hn]. exists (S n). rewrite Hn.
      simpl. rewrite str_app_assoc. reflexivity.
Qed.

(** C8, as the specification words it: it is not true that whoever
    looks at the target while [save_json] runs finds the previous
    file or the complete new one.  Saving "[1, 2]" over "[1]" passes
    through the empty file. *)
Lemma save_json_not_atomic :
  ~ (forall (D : Type) (J : Json D) (fs : FS) (filename : string)
            (data : D) (s : FS),
       In s (fs_trace fs (save_json_ops filename data)) ->
       s !! filename = fs !! filename
       \/ s !! filename = Some (json_text data)).
Proof.
  intros Hall.
  specialize (Hall string text_json {["jobs.json" := "[1]"]} "jobs.json"
                   "[1, 2]" (<["jobs.json" := ""]> {["jobs.json" := "[1]"]})).
  destruct Hall as [Hold|Hnew].
  - simpl. right. left. reflexivity.
  - rewrite lookup_insert_eq, lookup_singleton_eq in Hold. discriminate.
  - rewrite lookup_insert_eq in Hnew. discriminate.
Qed.

(** C8, amended: [save_json] overwrites the whole target (the final
    text is the dump of the data, whatever the file held, and no other
    file changes), by truncating the target itself and writing into
    it: the state right after the start holds the empty target, and
    every later state holds a prefix of the chunks of the dump. *)
Theorem save_json_overwrites_in_place {D : Type} `{Json D}
    (filename : string) (data : D) (fs : FS) :
  let trace := fs_trace fs (save_json_ops filename data) in
  let fs' := final_fs (save_json filename data fs) in
  fs' !! filename = Some (json_text data)
  /\ (forall g, g <> filename -> fs' !! g = fs !! g)
  /\ nth_error trace 1 = Some (<[filename := ""]> fs)
  /\ forall s, In s trace ->
       s = fs
       \/ exists n, s !! filename
            = Some (fold_right String.append "" (firstn n (json_dump data))).
Proof.
  intros trace fs'.
  destruct (save_json_result filename data fs) as [fs1 [Hrun [Hf Hg]]].
  unfold fs'. rewrite Hrun. simpl.
  split; [exact Hf|]. split; [exact Hg|]. split.
  - unfold trace, save_json_ops. simpl.
    destruct (json_dump data); reflexivity.
  - intros s Hin. unfold trace, save_json_ops in Hin. simpl in Hin.
    destruct Hin as [<-|Hin]; [left; reflexivity|right].
    apply (append_trace filename "" (json_dump data) _ s) in Hin.
    + exact Hin.
    + apply lookup_insert_eq.
Qed.

(** Saving "[1, 2]" over "[1]": the complete text in the end, the
    empty file on the way. *)
Lemma save_json_overwrites_in_place_witness :
  final_fs (save_json (H:=text_json) "jobs.json" "[1, 2]"
              {["jobs.json" := "[1]"]}) !! "jobs.json" = Some "[1, 2]"
  /\ nth_error (fs_trace {["jobs.json" := "[1]"]}
                  (save_json_ops (H:=text_json) "jobs.json" "[1, 2]")) 1
     = Some (<["jobs.json" := ""]> {["jobs.json" := "[1]"]}).
Proof.
  pose proof (save_json_overwrites_in_place (H:=text_json) "jobs.json"
                "[1, 2]" {["jobs.json" := "[1]"]}) as [Hfinal [_ [Hstart _]]].
  split; [exact Hfinal|exact Hstart].
Defined.

(** C10: for every job list, scores missing or outside 0..100
    included, the histogram loop ends without a [KeyError] and leaves
    the five buckets; each job is counted under the one label its score
    selects (90 and above, 70..89, 50..69, 30..49, 29 and below), and
    the five counts add up to the number of jobs. *)
Theorem score_buckets_partition (jobs : list Job) :
  let histogram :=
    [("90-100", count_label "90-100" jobs);
     ("70-89", count_label "70-89" jobs);
     ("50-69", count_label "50-69" jobs);
     ("30-49", count_label "30-49" jobs);
     ("0-29", count_label "0-29" jobs)] in
  score_distribution jobs = Some histogram
  /\ dict_total histogram = Z.of_nat (List.length jobs)
  /\ forall s : Z,
       In (bucket_label s) (dict_keys score_buckets_init)
       /\ (bucket_label s = "90-100" <-> 90 <= s)
       /\ (bucket_label s = "70-89" <-> 70 <= s <= 89)
       /\ (bucket_label s = "50-69" <-> 50 <= s <= 69)
       /\ (bucket_label s = "30-49" <-> 30 <= s <= 49)
       /\ (bucket_label s = "0-29" <-> s <= 29).
Proof.
  intros histogram. split; [|split].
  - unfold score_distribution, score_buckets_init.
    rewrite score_loop_counts. rewrite !Z.add_0_l. reflexivity.
  - unfold histogram, dict_total, dict_values. cbn [map snd fold_right].
    pose proof (count_label_sum jobs). lia.
  - intros s.
    destruct (bucket_label_cases s)
      as [[Hs Hl]|[[Hs Hl]|[[Hs Hl]|[[Hs Hl]|[Hs Hl]]]]]; rewrite Hl;
      (split; [simpl; tauto|]);
      repeat split; intros; try lia; try discriminate; try reflexivity.
Qed.

(** ** Effects: what a run does to jobs.json *)

Lemma bind_Returned {A B : Type} (m : IO A) (k : A -> IO B) fs b fs' :
  bind m k fs = Returned b fs' ->
  exists a fs1, m fs = Returned a fs1 /\ k a fs1 = Returned b fs'.
Proof.
  unfold bind. destruct (m fs) as [a fs1|e fs1]; [|discriminate].
  intros Hk. exists a, fs1. split; [reflexivity|exact Hk].
Qed.

Lemma keeps_ret (f : string) {A : Type} (a : A) : keeps f (ret a).
Proof. intros fs. reflexivity. Qed.

Lemma keeps_bind (f : string) {A B : Type} (m : IO A) (k : A -> IO B) :
  keeps f m -> (forall a, keeps f (k a)) -> keeps f (bind m k).
Proof.
  intros Hm Hk fs. unfold bind. specialize (Hm fs).
  destruct (m fs) as [a fs1|e fs1]; simpl in *.
  - rewrite Hk. exact Hm.
  - exact Hm.
Qed.

Lemma keeps_load_json (f g : string) {D : Type} `{Json D} :
  keeps f (load_json (D:=D) g).
Proof.
  intros fs. unfold load_json. destruct (fs !! g) as [text|]; [|reflexivity].
  destruct (json_load text); reflexivity.
Qed.

Lemma keeps_save_json (f g : string) {D : Type} `{Json D} (data : D) :
  f <> g -> keeps f (save_json g data).
Proof.
  intros Hne fs.
  destruct (save_json_result g data fs) as [fs' [Hrun [_ Hother]]].
  rewrite Hrun. simpl. apply Hother. exact Hne.
Qed.

Lemma keeps_log_entry (f : string) `{Json LogDoc} (now message lvl : string) :
  f <> "log.json" -> keeps f (log_entry now message lvl).
Proof.
  intros Hne. unfold log_entry. apply keeps_bind.
  - apply keeps_load_json.
  - intros loaded. apply keeps_save_json. exact Hne.
Qed.

Lemma keeps_for_each (f : string) {A B : Type} (step : A -> B -> IO A)
    (xs : list B) :
  (forall acc x, keeps f (step acc x)) ->
  forall acc, keeps f (for_each step acc xs).
Proof.
  intros Hstep. induction xs as [|x xs IH]; intros acc; simpl.
  - apply keeps_ret.
  - apply keeps_bind; [apply Hstep|exact IH].
Qed.

(** A property of the accumulator that every returning turn of a loop
    preserves holds when the loop returns. *)
Lemma for_each_invariant {A B : Type} (P : A -> Prop) (step : A -> B -> IO A) :
  (forall acc x fs acc' fs',
     P acc -> step acc x fs = Returned acc' fs' -> P acc') ->
  forall xs acc fs acc' fs',
    P acc -> for_each step acc xs fs = Returned acc' fs' -> P acc'.
Proof.
  intros Hstep. induction xs as [|x xs IH]; intros acc fs acc' fs' HP Hrun.
  - simpl in Hrun. unfold ret in Hrun. injection Hrun as <- _. exact HP.
  - simpl in Hrun. apply bind_Returned in Hrun.
    destruct Hrun as [acc1 [fs1 [H1 H2]]].
    apply (IH acc1 fs1 acc' fs'); [|exact H2].
    apply (Hstep acc x fs acc1 fs1 HP H1).
Qed.

(** ** Where the records of the persisted collection come from *)

Lemma In_dict_set (k : string) (j x : Job) (d : dict Job) :
  In x (dict_values (dict_set k j d)) -> x = j \/ In x (dict_values d).
Proof.
  unfold dict_values. induction d as [|[k0 v0] d IH]; simpl.
  - intros [<-|[]]. left. reflexivity.
  - destruct (String.eqb k0 k); simpl.
    + intros [<-|Hin]; [left; reflexivity|right; right; exact Hin].
    + intros [<-|Hin]; [right; left; reflexivity|].
      destruct (IH Hin) as [->|Hd]; [left; reflexivity|right; right; exact Hd].
Qed.

Lemma In_index_jobs (jobs : list Job) (d : dict Job) (x : Job) :
  In x (dict_values (index_jobs jobs d)) ->
  In x jobs \/ In x (dict_values d).
Proof.
  revert d. induction jobs as [|j jobs IH]; intros d Hin; [right; exact Hin|].
  rewrite index_jobs_cons in Hin. destruct (IH _ Hin) as [Hj|Hd].
  - left. right. exact Hj.
  - destruct (In_dict_set _ _ _ _ Hd) as [->|Hd'].
    + left. left. reflexivity.
    + right. exact Hd'.
Qed.

(** Every record of the merged list is a candidate or a stored record. *)
Lemma In_deduplicate_jobs (new_jobs existing_jobs : list Job) (x : Job) :
  In x (deduplicate_jobs new_jobs existing_jobs) ->
  In x new_jobs \/ In x existing_jobs.
Proof.
  unfold deduplicate_jobs. intros Hin.
  destruct (In_index_jobs _ _ _ Hin) as [Hn|He]; [left; exact Hn|].
  destruct (In_index_jobs _ _ _ He) as [He'|[]]. right. exact He'.
Qed.

Lemma In_insert_desc (j x : Job) (l : list Job) :
  In x (insert_desc j l) <-> x = j \/ In x l.
Proof.
  induction l as [|y l IH]; simpl.
  - split; [intros [<-|[]]; left; reflexivity|intros [->|[]]; left; reflexivity].
  - destruct (score_of y <=? score_of j); simpl.
    + split; [intros [<-|H]; [left; reflexivity|right; exact H]
             |intros [->|H]; [left; reflexivity|right; exact H]].
    + rewrite IH. split.
      * intros [<-|[->|H]]; [right; left; reflexivity|left; reflexivity
                            |right; right; exact H].
      * intros [->|[<-|H]]; [right; left; reflexivity|left; reflexivity
                            |right; right; exact H].
Qed.

(** Sorting moves records, it neither adds nor drops any. *)
Lemma In_sort_by_score (x : Job) (l : list Job) :
  In x (sort_by_score l) <-> In x l.
Proof.
  unfold sort_by_score. induction l as [|j l IH]; simpl; [tauto|].
  rewrite In_insert_desc, IH. split; intros [H|H]; auto.
Qed.

Lemma jobs_of_or_default (loaded : option JobsDoc) :
  jobs_of (or_default loaded)
  = match loaded with Some d => jobs_of d | None => [] end.
Proof.
  destruct loaded as [[lu tj nt [js|]]|]; [| |reflexivity].
  - unfold or_default, jobs_of. simpl.
    destruct lu, tj, nt; reflexivity.
  - unfold or_default, jobs_of. simpl.
    destruct lu, tj, nt; reflexivity.
Qed.

(** What [load_json "jobs.json"] hands to its caller, when it returns,
    is the persisted job list. *)
Lemma load_jobs_Returned `{Json JobsDoc} (fs fs' : FS) (loaded : option JobsDoc) :
  load_json "jobs.json" fs = Returned loaded fs' ->
  fs' = fs /\ jobs_of (or_default loaded) = persisted_jobs fs.
Proof.
  unfold load_json, persisted_jobs. rewrite jobs_of_or_default.
  destruct (fs !! "jobs.json") as [text|].
  - destruct (json_load text) as [v|]; [|discriminate].
    intros Hr. injection Hr as <- <-. split; [reflexivity|].
    destruct v; reflexivity.
  - intros Hr. injection Hr as <- <-. split; reflexivity.
Qed.

Lemma persisted_jobs_same `{Json JobsDoc} (fs fs' : FS) :
  fs' !! "jobs.json" = fs !! "jobs.json" ->
  persisted_jobs fs' = persisted_jobs fs.
Proof. unfold persisted_jobs. intros ->. reflexivity. Qed.

Section PipelineFacts.
Context {jobs_json : Json JobsDoc} {log_json : Json LogDoc}.
Variable scrape_jobs : string -> string -> scrape_result.
Variables now_iso today_str : string.
Variable cfg : Config.

Lemma keeps_scrape_pair st ql :
  keeps "jobs.json" (scrape_pair scrape_jobs now_iso today_str cfg st ql).
Proof.
  unfold scrape_pair. destruct (scrape_jobs (fst ql) (snd ql)).
  - apply keeps_bind; [apply keeps_log_entry; discriminate|].
    intros _. apply keeps_ret.
  - apply keeps_ret.
  - apply keeps_ret.
Qed.

(** The acceptance gate: only candidates at or above the floor enter
    [all_new_jobs]. *)
Lemma scrape_pair_floor st ql fs st' fs' :
  (forall j, In j (fst st) -> MIN_RELEVANCE_SCORE cfg <= score_of j) ->
  scrape_pair scrape_jobs now_iso today_str cfg st ql fs = Returned st' fs' ->
  forall j, In j (fst st') -> MIN_RELEVANCE_SCORE cfg <= score_of j.
Proof.
  intros Hst. unfold scrape_pair.
  destruct (scrape_jobs (fst ql) (snd ql)) as [e| |rows].
  - intros Hrun. apply bind_Returned in Hrun.
    destruct Hrun as [u [fs1 [_ Hret]]]. unfold ret in Hret.
    injection Hret as <- _. exact Hst.
  - unfold ret. intros Hret. injection Hret as <- _. exact Hst.
  - unfold ret. intros Hret. injection Hret as <- _. simpl.
    intros j Hj. apply List.in_app_or in Hj. destruct Hj as [Hj|Hj].
    + apply Hst. exact Hj.
    + apply List.filter_In in Hj. destruct Hj as [_ Hj].
      apply Z.leb_le. exact Hj.
Qed.

(** What a turn of the loop adds to [all_new_jobs] scores at or above
    the floor: a candidate under it is dropped there. *)
Lemma scrape_pair_gate st ql fs st' fs' :
  scrape_pair scrape_jobs now_iso today_str cfg st ql fs = Returned st' fs' ->
  forall j, In j (fst st') ->
    In j (fst st) \/ MIN_RELEVANCE_SCORE cfg <= score_of j.
Proof.
  unfold scrape_pair.
  destruct (scrape_jobs (fst ql) (snd ql)) as [e| |rows].
  - intros Hrun. apply bind_Returned in Hrun.
    destruct Hrun as [u [fs1 [_ Hret]]]. unfold ret in Hret.
    injection Hret as <- _. simpl. tauto.
  - unfold ret. intros Hret. injection Hret as <- _. tauto.
  - unfold ret. intros Hret. injection Hret as <- _. simpl.
    intros j Hj. apply List.in_app_or in Hj. destruct Hj as [Hj|Hj].
    + left. exact Hj.
    + right. apply List.filter_In in Hj. destruct Hj as [_ Hj].
      apply Z.leb_le. exact Hj.
Qed.
End PipelineFacts.

Lemma bind_cases {A B : Type} (m : IO A) (k : A -> IO B) (fs : FS) :
  (exists a fs1, m fs = Returned a fs1 /\ bind m k fs = k a fs1)
  \/ (exists e fs1, m fs = Raised e fs1 /\ bind m k fs = Raised e fs1).
Proof.
  unfold bind. destruct (m fs) as [a fs1|e fs1].
  - left. exists a, fs1. split; reflexivity.
  - right. exists e, fs1. split; reflexivity.
Qed.

(** Case analysis on the first computation of the running sequence. *)
Ltac bind_step a fs1 E :=
  match goal with
  | |- context [bind ?m ?k ?fs] =>
      let e := fresh "e" in
      destruct (bind_cases m k fs) as [[a [fs1 [E ->]]]|[e [fs1 [E ->]]]]
  end.

Lemma keeps_at {A : Type} (f : string) (m : IO A) (fs : FS) (o : outcome A) :
  keeps f m -> m fs = o -> final_fs o !! f = fs !! f.
Proof. intros Hk <-. apply Hk. Qed.

(** The persisted collection of a run that starts without a record
    under the floor. *)
Lemma scrape_all_floor
    {jobs_json : Json JobsDoc} {log_json : Json LogDoc}
    (scrape_jobs : string -> string -> scrape_result)
    (now_iso today_str : string) (cfg : Config) (fs : FS) :
  (forall j, In j (persisted_jobs fs) ->
             MIN_RELEVANCE_SCORE cfg <= score_of j) ->
  let result := scrape_all scrape_jobs now_iso today_str cfg fs in
  (final_fs result !! "jobs.json" = fs !! "jobs.json"
   \/ exists out : JobsDoc,
        final_fs result !! "jobs.json" = Some (json_text out)
        /\ forall j, In j (jobs_of out) ->
                     MIN_RELEVANCE_SCORE cfg <= score_of j)
  /\ forall out fs', result = Returned out fs' ->
       fs' !! "jobs.json" = Some (json_text out)
       /\ forall j, In j (jobs_of out) ->
                    MIN_RELEVANCE_SCORE cfg <= score_of j.
Proof.
  intros Hfloor result. unfold result, scrape_all.
  (* the opening log entry *)
  bind_step u1 fs1 E1.
  2:{ split; [left|intros out fs' Hc; discriminate].
      apply (keeps_at _ _ _ _ (keeps_log_entry "jobs.json" _ _ _ ltac:(discriminate)) E1). }
  assert (K1 : fs1 !! "jobs.json" = fs !! "jobs.json").
  { apply (keeps_at _ _ _ _ (keeps_log_entry "jobs.json" _ _ _ ltac:(discriminate)) E1). }
  (* the scraping loops *)
  bind_step st fs2 E2.
  2:{ split; [left|intros out fs' Hc; discriminate]. rewrite <- K1.
      apply (keeps_at _ _ _ _
        (keeps_for_each "jobs.json" _ _
           (keeps_scrape_pair scrape_jobs now_iso today_str cfg) _) E2). }
  assert (K2 : fs2 !! "jobs.json" = fs !! "jobs.json").
  { rewrite <- K1.
    apply (keeps_at _ _ _ _
      (keeps_for_each "jobs.json" _ _
         (keeps_scrape_pair scrape_jobs now_iso today_str cfg) _) E2). }
  assert (Hbatch : forall j, In j (fst st) ->
                     MIN_RELEVANCE_SCORE cfg <= score_of j).
  { refine (for_each_invariant
      (fun st => forall j, In j (fst st) ->
                   MIN_RELEVANCE_SCORE cfg <= score_of j)
      (scrape_pair scrape_jobs now_iso today_str cfg)
      (scrape_pair_floor scrape_jobs now_iso today_str cfg)
      _ _ _ _ _ _ E2).
    simpl. intros j []. }
  cbv zeta.
  (* loading the persisted collection *)
  bind_step loaded fs2' E3.
  2:{ split; [left|intros out fs' Hc; discriminate]. rewrite <- K2.
      apply (keeps_at _ _ _ _ (keeps_load_json "jobs.json" "jobs.json") E3). }
  destruct (load_jobs_Returned _ _ _ E3) as [-> Hexisting].
  rewrite (persisted_jobs_same _ _ K2) in Hexisting.
  (* the merged and sorted collection *)
  set (batch := dict_values (index_jobs (fst st) [])).
  set (merged := sort_by_score
         (deduplicate_jobs batch (jobs_of (or_default loaded)))).
  set (output := {| last_updated := Some now_iso;
                    total_jobs := Some (len merged);
                    new_today := Some (len batch);
                    jobs := Some merged |}).
  assert (Hmerged : forall j, In j (jobs_of output) ->
                      MIN_RELEVANCE_SCORE cfg <= score_of j).
  { intros j Hj. unfold output, jobs_of in Hj. simpl in Hj. unfold merged in Hj.
    apply (proj1 (In_sort_by_score _ _)) in Hj.
    apply In_deduplicate_jobs in Hj.
    destruct Hj as [Hj|Hj].
    - unfold batch in Hj. apply In_index_jobs in Hj.
      destruct Hj as [Hj|[]]. apply Hbatch. exact Hj.
    - rewrite Hexisting in Hj. apply Hfloor. exact Hj. }
  (* saving it *)
  destruct (save_json_result "jobs.json" output fs2) as [fs3 [E4 [Hsaved _]]].
  bind_step u4 fs3' E4'; rewrite E4 in E4'; [|discriminate].
  injection E4' as <- <-.
  (* the closing log entry *)
  bind_step u5 fs4 E5.
  - assert (K5 : fs4 !! "jobs.json" = Some (json_text output)).
    { rewrite <- Hsaved.
      apply (keeps_at _ _ _ _ (keeps_log_entry "jobs.json" _ _ _ ltac:(discriminate)) E5). }
    split.
    + right. exists output. split; [exact K5|exact Hmerged].
    + intros out fs' Hc. unfold ret in Hc. injection Hc as <- <-.
      split; [exact K5|exact Hmerged].
  - split; [|intros out fs' Hc; discriminate].
    right. exists output. split; [|exact Hmerged].
    rewrite <- Hsaved.
    apply (keeps_at _ _ _ _ (keeps_log_entry "jobs.json" _ _ _ ltac:(discriminate)) E5).
Qed.

(** C7: in a run that starts from a persisted collection without a
    record under the floor, whatever the scraper delivers, a candidate
    scoring under [MIN_RELEVANCE_SCORE] never enters [all_new_jobs]
    (it is dropped in the scraping loop, before the merge); jobs.json
    ends either untouched or holding a document all of whose records
    score at or above the floor; and when the run returns, the document
    it returns is the one in jobs.json. *)
Theorem sub_floor_never_persisted
    {jobs_json : Json JobsDoc} {log_json : Json LogDoc}
    (scrape_jobs : string -> string -> scrape_result)
    (now_iso today_str : string) (cfg : Config) (fs : FS) :
  (forall j, In j (persisted_jobs fs) ->
             MIN_RELEVANCE_SCORE cfg <= score_of j) ->
  let result := scrape_all scrape_jobs now_iso today_str cfg fs in
  (forall st ql fs0 st' fs0',
     scrape_pair scrape_jobs now_iso today_str cfg st ql fs0
       = Returned st' fs0' ->
     forall j, In j (fst st') ->
       In j (fst st) \/ MIN_RELEVANCE_SCORE cfg <= score_of j)
  /\ (final_fs result !! "jobs.json" = fs !! "jobs.json"
      \/ exists out : JobsDoc,
           final_fs result !! "jobs.json" = Some (json_text out)
           /\ forall j, In j (jobs_of out) ->
                        MIN_RELEVANCE_SCORE cfg <= score_of j)
  /\ forall out fs', result = Returned out fs' ->
       fs' !! "jobs.json" = Some (json_text out)
       /\ forall j, In j (jobs_of out) ->
                    MIN_RELEVANCE_SCORE cfg <= score_of j.
Proof.
  intros Hfloor result. split.
  - apply scrape_pair_gate.
  - apply (scrape_all_floor scrape_jobs now_iso today_str cfg fs Hfloor).
Qed.

(** On the small run the stored record (55) and the one candidate at
    or above the floor (61) are persisted; the candidate scoring 0 is
    not. *)
Lemma sub_floor_never_persisted_witness :
  (forall j, In j (persisted_jobs (H:=demo_jobs_json) demo_fs) ->
             MIN_RELEVANCE_SCORE config <= score_of j)
  /\ match scrape_all (jobs_json:=demo_jobs_json) (log_json:=demo_log_json)
             demo_scraper "2026-01-02T00:00:00" "2026-01-02" config demo_fs
     with
     | Returned out fs' =>
         fs' !! "jobs.json" = Some (json_text (H:=demo_jobs_json) out)
         /\ map score_of (jobs_of out) = [61; 55]
     | Raised _ _ => False
     end.
Proof.
  assert (Hstored : forall j,
            In j (persisted_jobs (H:=demo_jobs_json) demo_fs) ->
            MIN_RELEVANCE_SCORE config <= score_of j).
  { intros j Hj. vm_compute in Hj. destruct Hj as [<-|[]].
    vm_compute. discriminate. }
  split; [exact Hstored|].
  pose proof (sub_floor_never_persisted (jobs_json:=demo_jobs_json)
                (log_json:=demo_log_json) demo_scraper
                "2026-01-02T00:00:00" "2026-01-02" config demo_fs Hstored)
    as [_ [_ Hret]].
  destruct (scrape_all demo_scraper "2026-01-02T00:00:00" "2026-01-02"
              config demo_fs) as [out fs'|e fs'] eqn:E.
  - split; [apply (Hret out fs' eq_refl)|].
    vm_compute in E. injection E as <- _. vm_compute. reflexivity.
  - vm_compute in E. discriminate.
Defined.

(** C9: [load_json] returns [None], the absent signal, when the file
    does not exist, and its callers read that as the empty collection
    ([jobs_of (or_default None)] is the empty list); it raises
    [JSONDecodeError] when the file exists and its text does not
    parse; whatever it returns otherwise is what the parser made of
    the text.  In [scrape_all] nothing catches that error: a run that
    finds an unparseable jobs.json raises and leaves the file as it
    was, it does not go on with an empty collection. *)
Theorem load_json_absent_or_fatal
    {D : Type} {json : Json D}
    {jobs_json : Json JobsDoc} {log_json : Json LogDoc}
    (scrape_jobs : string -> string -> scrape_result)
    (now_iso today_str : string) (cfg : Config)
    (fs : FS) (filename : string) :
  (fs !! filename = None ->
     load_json (D:=D) filename fs = Returned None fs)
  /\ jobs_of (or_default None) = []
  /\ (forall text, fs !! filename = Some text ->
        json_load (D:=D) text = None ->
        load_json (D:=D) filename fs = Raised JSONDecodeError fs)
  /\ (forall v fs', load_json (D:=D) filename fs = Returned v fs' ->
        fs' = fs
        /\ ((fs !! filename = None /\ v = None)
            \/ exists text, fs !! filename = Some text
                            /\ json_load text = Some v))
  /\ (forall text, fs !! "jobs.json" = Some text ->
        json_load (D:=JobsDoc) text = None ->
        exists fs',
          scrape_all scrape_jobs now_iso today_str cfg fs
            = Raised JSONDecodeError fs'
          /\ fs' !! "jobs.json" = Some text).
Proof.
  split; [|split; [|split; [|split]]].
  - intros Habsent. unfold load_json. rewrite Habsent. reflexivity.
  - reflexivity.
  - intros text Hfile Hbad. unfold load_json. rewrite Hfile, Hbad. reflexivity.
  - intros v fs'. unfold load_json.
    destruct (fs !! filename) as [text|].
    + destruct (json_load text) as [v'|] eqn:Hload; [|discriminate].
      intros Hr. injection Hr as <- <-. split; [reflexivity|].
      right. exists text. split; [reflexivity|exact Hload].
    + intros Hr. injection Hr as <- <-. split; [reflexivity|].
      left. split; reflexivity.
  - intros text Hfile Hbad. unfold scrape_all.
    bind_step u1 fs1 E1.
    2:{ destruct e. exists fs1. split; [reflexivity|]. rewrite <- Hfile.
        apply (keeps_at _ _ _ _
          (keeps_log_entry "jobs.json" _ _ _ ltac:(discriminate)) E1). }
    assert (K1 : fs1 !! "jobs.json" = Some text).
    { rewrite <- Hfile.
      apply (keeps_at _ _ _ _
        (keeps_log_entry "jobs.json" _ _ _ ltac:(discriminate)) E1). }
    bind_step st fs2 E2.
    2:{ destruct e. exists fs2. split; [reflexivity|]. rewrite <- K1.
        apply (keeps_at _ _ _ _
          (keeps_for_each "jobs.json" _ _
             (keeps_scrape_pair scrape_jobs now_iso today_str cfg) _) E2). }
    assert (K2 : fs2 !! "jobs.json" = Some text).
    { rewrite <- K1.
      apply (keeps_at _ _ _ _
        (keeps_for_each "jobs.json" _ _
           (keeps_scrape_pair scrape_jobs now_iso today_str cfg) _) E2). }
    cbv zeta. bind_step loaded fs3 E3.
    + unfold load_json in E3. rewrite K2, Hbad in E3. discriminate.
    + unfold load_json in E3. rewrite K2, Hbad in E3.
      destruct e. injection E3 as <-. exists fs2.
      split; [reflexivity|exact K2].
Qed.

(** With no jobs.json the load gives the absent signal; with the text
    "{broken" in it the load and the whole run raise. *)
Lemma load_json_absent_or_fatal_witness :
  load_json (H:=demo_jobs_json) "jobs.json" ∅ = Returned None ∅
  /\ load_json (H:=demo_jobs_json) "jobs.json" {["jobs.json" := "{broken"]}
     = Raised JSONDecodeError {["jobs.json" := "{broken"]}
  /\ exists fs',
       scrape_all (jobs_json:=demo_jobs_json) (log_json:=demo_log_json)
         demo_scraper "2026-01-02T00:00:00" "2026-01-02" config
         {["jobs.json" := "{broken"]}
       = Raised JSONDecodeError fs'
       /\ fs' !! "jobs.json" = Some "{broken".
Proof.
  split; [|split].
  - apply (load_json_absent_or_fatal (json:=demo_jobs_json)
             (jobs_json:=demo_jobs_json) (log_json:=demo_log_json)
             demo_scraper "" "" config ∅ "jobs.json").
    apply lookup_empty.
  - apply (load_json_absent_or_fatal (json:=demo_jobs_json)
             (jobs_json:=demo_jobs_json) (log_json:=demo_log_json)
             demo_scraper "" "" config
             {["jobs.json" := "{broken"]} "jobs.json") with (text := "{broken").
    + apply lookup_singleton_eq.
    + vm_compute. reflexivity.
  - apply (load_json_absent_or_fatal (json:=demo_jobs_json)
             (jobs_json:=demo_jobs_json) (log_json:=demo_log_json)
             demo_scraper "2026-01-02T00:00:00" "2026-01-02" config
             {["jobs.json" := "{broken"]} "jobs.json").
    + apply lookup_singleton_eq.
    + vm_compute. reflexivity.
Defined.

(** ** The identity function: generate_job_id *)

Lemma lower_app (s t : string) : lower (s ++ t) = (lower s ++ lower t)%string.
Proof.
  induction s as [|a s IH]; [reflexivity|].
  rewrite str_app_cons. simpl lower. rewrite IH, str_app_cons. reflexivity.
Qed.









Lemma substring_length (n : nat) (s : string) :
  (n <= String.length s)%nat -> String.length (substring 0 n s) = n.
Proof.
  revert s. induction n as [|n IH]; intros s Hn.
  - destruct s; reflexivity.
  - destruct s as [|a s]; simpl in *; [lia|].
    rewrite IH; [reflexivity|lia].
Qed.

Lemma hexdigest_length (bs : list Z) : String.length (hexdigest bs) = 32%nat.
Proof.
  unfold hexdigest, digest. destruct (md5 bs) as [a b c d].
  reflexivity.
Qed.

Lemma generate_job_id_length (t c l : string) :
  String.length (generate_job_id t c l) = 12%nat.
Proof.
  unfold generate_job_id. apply substring_length.
  rewrite hexdigest_length. lia.
Qed.




(* ================================================================== *)
(** * Part III: further properties of the code                         *)
(* ================================================================== *)

(** ** The stable sort by decreasing score *)

Lemma insert_desc_perm (j : Job) (l : list Job) :
  Permutation (insert_desc j l) (j :: l).
Proof.
  induction l as [|x l IH]; simpl; [reflexivity|].
  destruct (score_of x <=? score_of j); [reflexivity|].
  rewrite IH. apply perm_swap.
Qed.

Lemma sort_by_score_perm (l : list Job) : Permutation (sort_by_score l) l.
Proof.
  unfold sort_by_score. induction l as [|j l IH]; simpl; [reflexivity|].
  rewrite insert_desc_perm. apply perm_skip. exact IH.
Qed.

Lemma insert_desc_sorted (j : Job) (l : list Job) :
  by_score_desc l -> by_score_desc (insert_desc j l).
Proof.
  unfold by_score_desc. induction l as [|x l IH]; intros Hs; simpl.
  - constructor; constructor.
  - apply StronglySorted_inv in Hs. destruct Hs as [Hl Hx].
    destruct (Z.leb_spec (score_of x) (score_of j)) as [Hle|Hgt].
    + constructor; [constructor; assumption|].
      constructor; [exact Hle|].
      apply List.Forall_forall. intros b Hb.
      pose proof (proj1 (List.Forall_forall _ _) Hx b Hb). simpl in *. lia.
    + constructor; [apply IH; exact Hl|].
      apply List.Forall_forall. intros b Hb.
      apply In_insert_desc in Hb. destruct Hb as [->|Hb]; [lia|].
      apply (proj1 (List.Forall_forall _ _) Hx b Hb).
Qed.

Lemma sort_by_score_sorted (l : list Job) : by_score_desc (sort_by_score l).
Proof.
  unfold sort_by_score. induction l as [|j l IH]; simpl.
  - constructor.
  - apply insert_desc_sorted. exact IH.
Qed.

Lemma filter_insert_desc (s : Z) (j : Job) (l : list Job) :
  List.filter (fun x => score_of x =? s) (insert_desc j l)
  = List.filter (fun x => score_of x =? s) (j :: l).
Proof.
  induction l as [|x l IH]; [reflexivity|].
  simpl insert_desc. destruct (Z.leb_spec (score_of x) (score_of j)) as [Hle|Hgt];
    [reflexivity|].
  simpl. simpl in IH. rewrite IH.
  destruct (Z.eqb_spec (score_of x) s) as [Hx|Hx];
    destruct (Z.eqb_spec (score_of j) s) as [Hj|Hj]; try reflexivity.
  lia.
Qed.

(** Records with equal scores keep the order they had. *)
Lemma sort_by_score_stable (s : Z) (l : list Job) :
  List.filter (fun x => score_of x =? s) (sort_by_score l)
  = List.filter (fun x => score_of x =? s) l.
Proof.
  unfold sort_by_score. induction l as [|j l IH]; [reflexivity|].
  simpl fold_right. rewrite filter_insert_desc. simpl. rewrite IH. reflexivity.
Qed.

(** ** The merge, completely *)

Lemma key_in_In (k : string) (seen : list string) :
  key_in k seen = true <-> In k seen.
Proof.
  unfold key_in. rewrite existsb_exists. split.
  - intros [x [Hin Hx]]. apply String.eqb_eq in Hx. subst x. exact Hin.
  - intros Hin. exists k. split; [exact Hin|apply String.eqb_refl].
Qed.

Lemma dict_get_Some_of_key {V : Type} (k : string) (d : dict V) :
  In k (dict_keys d) -> exists v, dict_get k d = Some v.
Proof.
  intros Hin. destruct (dict_get k d) as [v|] eqn:E; [exists v; reflexivity|].
  apply dict_get_None in E. destruct (E Hin).
Qed.

Lemma index_jobs_app (a b : list Job) (d : dict Job) :
  index_jobs (a ++ b)%list d = index_jobs b (index_jobs a d).
Proof. unfold index_jobs. apply List.fold_left_app. Qed.

(** The key order after indexing: old keys, then the new ids in the
    order of their first appearance. *)
Lemma dict_keys_index_jobs (jobs : list Job) (d : dict Job) :
  dict_keys (index_jobs jobs d)
  = (dict_keys d ++ first_ids (dict_keys d) jobs)%list.
Proof.
  revert d. induction jobs as [|j jobs IH]; intros d.
  - simpl. rewrite List.app_nil_r. reflexivity.
  - rewrite index_jobs_cons, IH. simpl first_ids.
    destruct (key_in (_id j) (dict_keys d)) eqn:Hk.
    + apply key_in_In in Hk. apply dict_get_Some_of_key in Hk.
      destruct Hk as [v Hv]. rewrite (dict_keys_set_old _ _ _ _ Hv). reflexivity.
    + assert (Hnone : dict_get (_id j) d = None).
      { apply dict_get_None. intros Hin. apply key_in_In in Hin. congruence. }
      rewrite (dict_set_new _ _ _ Hnone). unfold dict_keys.
      rewrite List.map_app. simpl. rewrite <- List.app_assoc. reflexivity.
Qed.

(** The values of a dict, read through its keys. *)
Lemma dict_values_by_key {V : Type} (d : dict V) :
  List.NoDup (dict_keys d) ->
  map Some (dict_values d) = map (fun k => dict_get k d) (dict_keys d).
Proof.
  induction d as [|[k v] d IH]; intros Hnd; [reflexivity|].
  simpl in Hnd. apply List.NoDup_cons_iff in Hnd. destruct Hnd as [Hni Hnd].
  unfold dict_values, dict_keys in *. simpl. rewrite String.eqb_refl.
  f_equal. rewrite (IH Hnd). apply List.map_ext_in.
  intros k' Hk'. destruct (String.eqb k k') eqn:E; [|reflexivity].
  apply String.eqb_eq in E. subst k'. destruct (Hni Hk').
Qed.

Lemma merged_dict_is_index (new_jobs existing_jobs : list Job) :
  index_jobs new_jobs (index_jobs existing_jobs [])
  = index_jobs (existing_jobs ++ new_jobs)%list [].
Proof. rewrite index_jobs_app. reflexivity. Qed.

Lemma last_with_id_Some_iff (k : string) (jobs : list Job) :
  (exists j, last_with_id k jobs = Some j) <-> In k (map _id jobs).
Proof.
  split.
  - intros [j Hj]. apply last_with_id_In in Hj. destruct Hj as [Hin <-].
    apply List.in_map. exact Hin.
  - intros Hin. destruct (last_with_id k jobs) as [j|] eqn:E; [exists j; reflexivity|].
    apply List.in_map_iff in Hin. destruct Hin as [x [Hx Hin]].
    destruct (last_with_id_None _ _ E x Hin Hx).
Qed.

(** X1. The merged list holds one record per id, in the order in which
    the ids first appear (stored collection first, then the batch), and
    each of them is the last record with that id (the batch coming
    after the stored collection). *)
Theorem deduplicate_jobs_order_and_content (new_jobs existing_jobs : list Job) :
  let all := (existing_jobs ++ new_jobs)%list in
  map _id (deduplicate_jobs new_jobs existing_jobs) = first_ids [] all
  /\ map Some (deduplicate_jobs new_jobs existing_jobs)
     = map (fun k => last_with_id k all) (first_ids [] all).
Proof.
  intros all. unfold deduplicate_jobs. rewrite merged_dict_is_index. fold all.
  assert (Hwk : well_keyed (index_jobs all [])).
  { apply well_keyed_index_jobs, well_keyed_nil. }
  assert (Hkeys : dict_keys (index_jobs all []) = first_ids [] all).
  { rewrite dict_keys_index_jobs. reflexivity. }
  destruct Hwk as [Hnd Hid]. split.
  - rewrite (values_ids _ Hid). exact Hkeys.
  - rewrite (dict_values_by_key _ Hnd), Hkeys. apply List.map_ext.
    intros k. rewrite dict_get_index_jobs.
    destruct (last_with_id k all); reflexivity.
Qed.

Lemma deduplicate_jobs_id_iff (new_jobs existing_jobs : list Job) (k : string) :
  In k (map _id (deduplicate_jobs new_jobs existing_jobs))
  <-> In k (map _id new_jobs) \/ In k (map _id existing_jobs).
Proof.
  unfold deduplicate_jobs.
  destruct (merged_dict_well_keyed new_jobs existing_jobs) as [_ Hid].
  rewrite (values_ids _ Hid). split.
  - intros Hin. apply dict_get_Some_of_key in Hin. destruct Hin as [v Hv].
    rewrite dict_get_index_jobs in Hv.
    destruct (last_with_id k new_jobs) as [j|] eqn:E.
    + left. apply last_with_id_Some_iff. exists j. exact E.
    + right. rewrite dict_get_index_jobs in Hv.
      destruct (last_with_id k existing_jobs) as [j|] eqn:E'; [|discriminate].
      apply last_with_id_Some_iff. exists j. exact E'.
  - intros Hin.
    assert (Hsome : dict_get k (index_jobs new_jobs (index_jobs existing_jobs []))
                    <> None).
    { rewrite !dict_get_index_jobs. destruct Hin as [Hin|Hin];
        apply last_with_id_Some_iff in Hin; destruct Hin as [j Hj].
      - rewrite Hj. discriminate.
      - destruct (last_with_id k new_jobs); [discriminate|].
        rewrite Hj. discriminate. }
    destruct (in_dec string_dec k
      (dict_keys (index_jobs new_jobs (index_jobs existing_jobs []))))
      as [Hk|Hk]; [exact Hk|].
    apply dict_get_None in Hk. destruct (Hsome Hk).
Qed.

Lemma deduplicate_jobs_NoDup (new_jobs existing_jobs : list Job) :
  List.NoDup (map _id (deduplicate_jobs new_jobs existing_jobs)).
Proof.
  unfold deduplicate_jobs.
  destruct (merged_dict_well_keyed new_jobs existing_jobs) as [Hnd Hid].
  rewrite (values_ids _ Hid). exact Hnd.
Qed.

(** X2. The merge neither loses nor invents an id: the ids of the
    merged list are those of the batch and of the stored collection,
    and it is no longer than the two together. *)
Theorem deduplicate_jobs_ids (new_jobs existing_jobs : list Job) :
  (forall k, In k (map _id (deduplicate_jobs new_jobs existing_jobs))
             <-> In k (map _id new_jobs) \/ In k (map _id existing_jobs))
  /\ (List.length (deduplicate_jobs new_jobs existing_jobs)
      <= List.length new_jobs + List.length existing_jobs)%nat.
Proof.
  split; [apply deduplicate_jobs_id_iff|].
  rewrite <- (List.length_map _id (deduplicate_jobs new_jobs existing_jobs)).
  rewrite <- (List.length_map _id new_jobs), <- (List.length_map _id existing_jobs).
  rewrite <- List.length_app.
  apply List.NoDup_incl_length; [apply deduplicate_jobs_NoDup|].
  intros k Hk. apply deduplicate_jobs_id_iff in Hk.
  apply List.in_or_app. exact Hk.
Qed.

(** X3. A stored record whose id no candidate carries stays in the
    collection as it is: the merge never deletes. *)
Theorem deduplicate_jobs_keeps_unmatched
    (new_jobs before after : list Job) (e : Job) (k : string) :
  _id e = k ->
  (forall j, In j after -> _id j <> k) ->
  (forall j, In j new_jobs -> _id j <> k) ->
  List.filter (fun r => String.eqb (_id r) k)
    (deduplicate_jobs new_jobs (before ++ e :: after)%list) = [e].
Proof.
  intros He Hafter Hnew. unfold deduplicate_jobs.
  rewrite filter_id_values by apply merged_dict_well_keyed.
  rewrite dict_get_index_jobs.
  destruct (last_with_id k new_jobs) as [j|] eqn:E.
  - apply last_with_id_In in E. destruct E as [Hin Hj].
    destruct (Hnew j Hin Hj).
  - rewrite dict_get_index_jobs.
    rewrite (last_with_id_split k before after e He Hafter). reflexivity.
Qed.

Lemma deduplicate_jobs_keeps_unmatched_witness :
  List.filter (fun r => String.eqb (_id r) "k0")
    (deduplicate_jobs [staged_job "k1" "new text" false false false]
       [staged_job "k0" "other" true true false;
        staged_job "k1" "old text" true true true])
  = [staged_job "k0" "other" true true false].
Proof.
  apply (deduplicate_jobs_keeps_unmatched
           [staged_job "k1" "new text" false false false] []
           [staged_job "k1" "old text" true true true]
           (staged_job "k0" "other" true true false) "k0").
  - reflexivity.
  - intros j [<-|[]]. discriminate.
  - intros j [<-|[]]. discriminate.
Defined.

Lemma index_jobs_distinct (jobs : list Job) :
  List.NoDup (map _id jobs) -> dict_values (index_jobs jobs []) = jobs.
Proof.
  intros Hnd.
  set (d := map (fun j => (_id j, j)) jobs : dict Job).
  assert (Hv : dict_values d = jobs).
  { unfold d, dict_values. rewrite List.map_map. simpl. apply List.map_id. }
  assert (Hk : dict_keys d = map _id jobs).
  { unfold d, dict_keys. rewrite List.map_map. reflexivity. }
  rewrite <- Hv at 1. rewrite index_jobs_values_nil; [exact Hv|].
  split; [rewrite Hk; exact Hnd|].
  unfold d. apply List.Forall_forall. intros kv Hkv.
  apply List.in_map_iff in Hkv. destruct Hkv as [j [<- _]]. reflexivity.
Qed.

(** X4. On a list whose ids are pairwise distinct the merge with
    nothing is the identity, as a batch and as a stored collection:
    order and records are kept. *)
Theorem deduplicate_jobs_distinct (jobs : list Job) :
  List.NoDup (map _id jobs) ->
  deduplicate_jobs [] jobs = jobs /\ deduplicate_jobs jobs [] = jobs.
Proof.
  intros Hnd. unfold deduplicate_jobs. simpl index_jobs at 1.
  split; apply index_jobs_distinct; exact Hnd.
Qed.

Lemma deduplicate_jobs_distinct_witness :
  deduplicate_jobs [] [scored_job "b" (Some 10); scored_job "a" (Some 70)]
    = [scored_job "b" (Some 10); scored_job "a" (Some 70)]
  /\ deduplicate_jobs [scored_job "b" (Some 10); scored_job "a" (Some 70)] []
    = [scored_job "b" (Some 10); scored_job "a" (Some 70)].
Proof.
  apply (deduplicate_jobs_distinct
           [scored_job "b" (Some 10); scored_job "a" (Some 70)]).
  simpl. constructor; [|constructor; [|constructor]].
  - intros [H|[]]. discriminate.
  - intros [].
Defined.

(** ** The ingestion run as a whole *)

Section RunFacts.
Context {jobs_json : Json JobsDoc} {log_json : Json LogDoc}.
Variable scrape_jobs : string -> string -> scrape_result.
Variables now_iso today_str : string.
Variable cfg : Config.

Lemma scrape_pair_keeps (f : string) st ql :
  f <> "log.json" ->
  keeps f (scrape_pair scrape_jobs now_iso today_str cfg st ql).
Proof.
  intros Hf. unfold scrape_pair. destruct (scrape_jobs (fst ql) (snd ql)).
  - apply keeps_bind; [apply keeps_log_entry; exact Hf|].
    intros _. apply keeps_ret.
  - apply keeps_ret.
  - apply keeps_ret.
Qed.

Lemma scrape_all_keeps (f : string) :
  f <> "log.json" -> f <> "jobs.json" ->
  keeps f (scrape_all scrape_jobs now_iso today_str cfg).
Proof.
  intros Hlog Hjobs. unfold scrape_all.
  apply keeps_bind; [apply keeps_log_entry; exact Hlog|]. intros _.
  apply keeps_bind.
  { apply keeps_for_each. intros acc x. apply scrape_pair_keeps. exact Hlog. }
  intros st. cbv zeta.
  apply keeps_bind; [apply keeps_load_json|]. intros loaded.
  apply keeps_bind; [apply keeps_save_json; exact Hjobs|]. intros _.
  apply keeps_bind; [apply keeps_log_entry; exact Hlog|]. intros _.
  apply keeps_ret.
Qed.

(** Every candidate of the batch was made from a scraped row in this
    run and passed the floor. *)
Lemma scrape_pair_fresh st ql fs st' fs' :
  (forall j, In j (fst st) ->
     MIN_RELEVANCE_SCORE cfg <= score_of j
     /\ exists query row, j = make_job cfg now_iso today_str query row) ->
  scrape_pair scrape_jobs now_iso today_str cfg st ql fs = Returned st' fs' ->
  forall j, In j (fst st') ->
    MIN_RELEVANCE_SCORE cfg <= score_of j
    /\ exists query row, j = make_job cfg now_iso today_str query row.
Proof.
  intros Hst. unfold scrape_pair.
  destruct (scrape_jobs (fst ql) (snd ql)) as [e| |rows].
  - intros Hrun. apply bind_Returned in Hrun.
    destruct Hrun as [u [fs1 [_ Hret]]]. unfold ret in Hret.
    injection Hret as <- _. exact Hst.
  - unfold ret. intros Hret. injection Hret as <- _. exact Hst.
  - unfold ret. intros Hret. injection Hret as <- _. simpl.
    intros j Hj. apply List.in_app_or in Hj. destruct Hj as [Hj|Hj].
    + apply Hst. exact Hj.
    + apply List.filter_In in Hj. destruct Hj as [Hin Hj]. split.
      * apply Z.leb_le. exact Hj.
      * apply List.in_map_iff in Hin. destruct Hin as [row [<- _]].
        exists (fst ql), row. reflexivity.
Qed.

(** What a returning run returns, in terms of the collection it found
    and of the candidates of its scraping loop. *)
Lemma scrape_all_Returned (fs fs' : FS) (out : JobsDoc) :
  scrape_all scrape_jobs now_iso today_str cfg fs = Returned out fs' ->
  exists all_new_jobs : list Job,
    (forall j, In j all_new_jobs ->
       MIN_RELEVANCE_SCORE cfg <= score_of j
       /\ exists query row, j = make_job cfg now_iso today_str query row)
    /\ let batch := deduplicate_jobs all_new_jobs [] in
       let merged :=
         sort_by_score (deduplicate_jobs batch (persisted_jobs fs)) in
       out = {| last_updated := Some now_iso;
                total_jobs := Some (len merged);
                new_today := Some (len batch);
                jobs := Some merged |}.
Proof.
  unfold scrape_all. intros Hrun.
  apply bind_Returned in Hrun. destruct Hrun as [u1 [fs1 [E1 Hrun]]].
  apply bind_Returned in Hrun. destruct Hrun as [st [fs2 [E2 Hrun]]].
  cbv zeta in Hrun.
  apply bind_Returned in Hrun. destruct Hrun as [loaded [fs3 [E3 Hrun]]].
  apply bind_Returned in Hrun. destruct Hrun as [u4 [fs4 [E4 Hrun]]].
  apply bind_Returned in Hrun. destruct Hrun as [u5 [fs5 [E5 Hrun]]].
  unfold ret in Hrun. injection Hrun as <- _.
  assert (K1 : fs1 !! "jobs.json" = fs !! "jobs.json").
  { apply (keeps_at _ _ _ _
      (keeps_log_entry "jobs.json" _ _ _ ltac:(discriminate)) E1). }
  assert (K2 : fs2 !! "jobs.json" = fs !! "jobs.json").
  { rewrite <- K1.
    apply (keeps_at _ _ _ _
      (keeps_for_each "jobs.json" _ _
         (keeps_scrape_pair scrape_jobs now_iso today_str cfg) _) E2). }
  destruct (load_jobs_Returned _ _ _ E3) as [-> Hexisting].
  rewrite (persisted_jobs_same _ _ K2) in Hexisting.
  exists (fst st). split.
  - refine (for_each_invariant
      (fun st => forall j, In j (fst st) ->
         MIN_RELEVANCE_SCORE cfg <= score_of j
         /\ exists query row, j = make_job cfg now_iso today_str query row)
      (scrape_pair scrape_jobs now_iso today_str cfg)
      scrape_pair_fresh _ _ _ _ _ _ E2).
    simpl. intros j [].
  - cbv zeta. rewrite Hexisting. reflexivity.
Qed.
End RunFacts.

(** ** The log *)

Lemma last_n_length {A : Type} (n : nat) (l : list A) :
  (List.length (last_n n l) <= n)%nat.
Proof. unfold last_n. rewrite List.length_skipn. lia. Qed.


Section LogFacts.
Context {log_json : Json LogDoc}.

(** What one call of [log_entry] does, by what log.json holds. *)
Lemma log_entry_run (now message lvl : string) (fs : FS) :
  match logged_entries fs with
  | Some old =>
      exists fs',
        log_entry now message lvl fs = Returned tt fs'
        /\ fs' !! "log.json"
           = Some (json_text
               {| entries := last_n 500
                    (old ++ [{| timestamp := now; level := lvl;
                                message := message |}])%list |})
        /\ forall g, g <> "log.json" -> fs' !! g = fs !! g
  | None => log_entry now message lvl fs = Raised JSONDecodeError fs
  end.
Proof.
  unfold logged_entries, log_entry, bind, load_json.
  destruct (fs !! "log.json") as [text|].
  - destruct (json_load text) as [[d|]|]; [| |reflexivity].
    + destruct (save_json_result "log.json"
        {| entries := last_n 500
             (entries d ++ [{| timestamp := now; level := lvl;
                               message := message |}])%list |} fs)
        as [fs' [Hrun [Hf Hg]]].
      exists fs'. simpl. split; [exact Hrun|]. split; [exact Hf|exact Hg].
    + destruct (save_json_result "log.json"
        {| entries := last_n 500
             ([] ++ [{| timestamp := now; level := lvl;
                        message := message |}])%list |} fs)
        as [fs' [Hrun [Hf Hg]]].
      exists fs'. simpl. split; [exact Hrun|]. split; [exact Hf|exact Hg].
  - destruct (save_json_result "log.json"
      {| entries := last_n 500
           ([] ++ [{| timestamp := now; level := lvl;
                      message := message |}])%list |} fs)
      as [fs' [Hrun [Hf Hg]]].
    exists fs'. simpl. split; [exact Hrun|]. split; [exact Hf|exact Hg].
Qed.
End LogFacts.



(** X6. A log.json that does not parse makes [log_entry] raise without
    writing anything, and with it the ingestion run, whose first step
    is a log entry: nothing is scraped and no file is touched. *)
Theorem corrupt_log_aborts_run
    {jobs_json : Json JobsDoc} {log_json : Json LogDoc}
    (scrape_jobs : string -> string -> scrape_result)
    (now_iso today_str : string) (cfg : Config)
    (message lvl : string) (fs : FS) :
  logged_entries fs = None ->
  log_entry now_iso message lvl fs = Raised JSONDecodeError fs
  /\ scrape_all scrape_jobs now_iso today_str cfg fs
     = Raised JSONDecodeError fs.
Proof.
  intros Hbad. split.
  - pose proof (log_entry_run now_iso message lvl fs) as Hrun.
    rewrite Hbad in Hrun. exact Hrun.
  - pose proof (log_entry_run now_iso "Starting daily job scrape" "info" fs)
      as Hrun.
    rewrite Hbad in Hrun. unfold scrape_all.
    unfold bind at 1. rewrite Hrun. reflexivity.
Qed.

Lemma corrupt_log_aborts_run_witness :
  scrape_all (jobs_json:=demo_jobs_json) (log_json:=demo_log_json)
    demo_scraper "2026-01-02T00:00:00" "2026-01-02" config
    {["log.json" := "{broken"]}
  = Raised JSONDecodeError {["log.json" := "{broken"]}.
Proof.
  apply (corrupt_log_aborts_run (jobs_json:=demo_jobs_json)
           (log_json:=demo_log_json) demo_scraper
           "2026-01-02T00:00:00" "2026-01-02" config "" ""
           {["log.json" := "{broken"]}).
  vm_compute. reflexivity.
Defined.

(** ** What a returning run persists *)

Lemma len_length {A : Type} (l : list A) : len l = Z.of_nat (List.length l).
Proof. reflexivity. Qed.

(** X7. The document a returning run persists is ordered by decreasing
    score, holds each id once, reports its own length as [total_jobs],
    and its [new_today] counts the distinct candidates of the run, at
    most [total_jobs]. *)
Theorem scrape_all_output_shape
    {jobs_json : Json JobsDoc} {log_json : Json LogDoc}
    (scrape_jobs : string -> string -> scrape_result)
    (now_iso today_str : string) (cfg : Config)
    (fs fs' : FS) (out : JobsDoc) :
  scrape_all scrape_jobs now_iso today_str cfg fs = Returned out fs' ->
  by_score_desc (jobs_of out)
  /\ List.NoDup (map _id (jobs_of out))
  /\ total_jobs out = Some (len (jobs_of out))
  /\ last_updated out = Some now_iso
  /\ exists n, new_today out = Some n /\ 0 <= n <= len (jobs_of out).
Proof.
  intros Hrun.
  destruct (scrape_all_Returned scrape_jobs now_iso today_str cfg fs fs' out Hrun)
    as [all_new_jobs [_ Hout]].
  cbv zeta in Hout. subst out. unfold jobs_of. simpl.
  set (batch := deduplicate_jobs all_new_jobs []).
  set (merged := deduplicate_jobs batch (persisted_jobs fs)).
  split; [apply sort_by_score_sorted|]. split; [|split; [reflexivity|]].
  - apply (Permutation_NoDup (l:=map _id merged)).
    + apply Permutation_map. symmetry. apply sort_by_score_perm.
    + apply deduplicate_jobs_NoDup.
  - split; [reflexivity|]. exists (len batch). split; [reflexivity|].
    rewrite !len_length. split; [lia|]. apply inj_le.
    rewrite (Permutation_length (sort_by_score_perm merged)).
    rewrite <- (List.length_map _id batch), <- (List.length_map _id merged).
    apply List.NoDup_incl_length; [apply deduplicate_jobs_NoDup|].
    intros k Hk. apply deduplicate_jobs_id_iff. left. exact Hk.
Qed.

Lemma scrape_all_output_shape_witness :
  match scrape_all (jobs_json:=demo_jobs_json) (log_json:=demo_log_json)
          demo_scraper "2026-01-02T00:00:00" "2026-01-02" config demo_fs
  with
  | Returned out _ =>
      by_score_desc (jobs_of out)
      /\ total_jobs out = Some 2 /\ new_today out = Some 1
  | Raised _ _ => False
  end.
Proof.
  destruct (scrape_all demo_scraper "2026-01-02T00:00:00" "2026-01-02"
              config demo_fs) as [out fs'|e fs'] eqn:E.
  - pose proof (scrape_all_output_shape (jobs_json:=demo_jobs_json)
        (log_json:=demo_log_json) demo_scraper "2026-01-02T00:00:00"
        "2026-01-02" config demo_fs fs' out E) as [Hsorted _].
    split; [exact Hsorted|].
    vm_compute in E. injection E as <- _. split; reflexivity.
  - vm_compute in E. discriminate.
Defined.



(** X9. A run writes jobs.json and log.json and nothing else: every
    other file of the data directory is as it was, whether the run
    returns or raises. *)
Theorem scrape_all_other_files
    {jobs_json : Json JobsDoc} {log_json : Json LogDoc}
    (scrape_jobs : string -> string -> scrape_result)
    (now_iso today_str : string) (cfg : Config) (fs : FS) (f : string) :
  f <> "log.json" -> f <> "jobs.json" ->
  final_fs (scrape_all scrape_jobs now_iso today_str cfg fs) !! f = fs !! f.
Proof.
  intros Hlog Hjobs.
  apply (scrape_all_keeps scrape_jobs now_iso today_str cfg f Hlog Hjobs).
Qed.

Lemma scrape_all_other_files_witness :
  final_fs (scrape_all (jobs_json:=demo_jobs_json) (log_json:=demo_log_json)
              demo_scraper "2026-01-02T00:00:00" "2026-01-02" config
              {["outreach.json" := "<drafts>"]}) !! "outreach.json"
  = Some "<drafts>".
Proof.
  rewrite (scrape_all_other_files (jobs_json:=demo_jobs_json)
             (log_json:=demo_log_json) demo_scraper "2026-01-02T00:00:00"
             "2026-01-02" config {["outreach.json" := "<drafts>"]}
             "outreach.json"); [|discriminate|discriminate].
  apply lookup_singleton_eq.
Defined.

(** ** When a run completes *)




Section Completion.
Context {jobs_json : Json JobsDoc} {log_json : Json LogDoc}.
Variable scrape_jobs : string -> string -> scrape_result.
Variables now_iso today_str : string.
Variable cfg : Config.
(** What [json.dump] writes for a log document, [json.load] parses. *)
Hypothesis log_parses : forall d : LogDoc, json_load (json_text d) <> None.



End Completion.



(** ** Saving and loading *)

(** X11. What was saved is what is loaded: when [json] parses the text
    it writes for [data] back to [data], [load_json] after [save_json]
    on the same name returns [data], whatever the file held before,
    and the other files are as they were. *)
Theorem save_then_load {D : Type} {json : Json D}
    (filename : string) (data : D) (fs : FS) :
  json_load (json_text data) = Some (Some data) ->
  exists fs',
    save_json filename data fs = Returned tt fs'
    /\ load_json filename fs' = Returned (Some data) fs'
    /\ forall g, g <> filename -> fs' !! g = fs !! g.
Proof.
  intros Hround.
  destruct (save_json_result filename data fs) as [fs' [Hsave [Hf Hother]]].
  exists fs'. split; [exact Hsave|]. split; [|exact Hother].
  unfold load_json. rewrite Hf, Hround. reflexivity.
Qed.

Lemma save_then_load_witness :
  exists fs',
    save_json (H:=text_json) "stats.json" "{}" {["stats.json" := "[1, 2]"]}
      = Returned tt fs'
    /\ load_json (H:=text_json) "stats.json" fs' = Returned (Some "{}") fs'
    /\ forall g, g <> "stats.json" ->
         fs' !! g = ({["stats.json" := "[1, 2]"]} : FS) !! g.
Proof.
  apply (save_then_load (json:=text_json) "stats.json" "{}"
           {["stats.json" := "[1, 2]"]}).
  reflexivity.
Defined.

(** ** Keywords and case *)

Lemma str_length_app (s t : string) :
  String.length (s ++ t) = (String.length s + String.length t)%nat.
Proof.
  induction s as [|a s IH]; [reflexivity|].
  rewrite str_app_cons. simpl. rewrite IH. reflexivity.
Qed.

Lemma lower_length (s : string) : String.length (lower s) = String.length s.
Proof. induction s as [|a s IH]; simpl; congruence. Qed.

Lemma lower_char_idem (c : ascii) : lower_char (lower_char c) = lower_char c.
Proof. destruct c as [[] [] [] [] [] [] [] []]; reflexivity. Qed.

Lemma lower_idem (s : string) : lower (lower s) = lower s.
Proof.
  induction s as [|a s IH]; [reflexivity|].
  simpl. rewrite lower_char_idem, IH. reflexivity.
Qed.

Lemma str_app_inj_length (a b a' b' : string) :
  (a ++ b)%string = (a' ++ b')%string ->
  String.length a = String.length a' ->
  a = a' /\ b = b'.
Proof.
  revert a'. induction a as [|c a IH]; intros [|c' a'] Heq Hlen;
    simpl in Hlen; try discriminate.
  - split; [reflexivity|exact Heq].
  - rewrite !str_app_cons in Heq. injection Heq as -> Heq.
    destruct (IH a' Heq) as [-> ->]; [lia|]. split; reflexivity.
Qed.

Lemma prefix_iff (p s : string) :
  String.prefix p s = true <-> exists r, s = (p ++ r)%string.
Proof.
  revert s. induction p as [|c p IH]; intros s.
  - split; [intros _; exists s; reflexivity|].
    intros _. destruct s; reflexivity.
  - destruct s as [|c' s]; simpl.
    + split; [discriminate|]. intros [r Hr]. rewrite str_app_cons in Hr.
      discriminate.
    + destruct (Ascii.ascii_dec c c') as [->|Hne].
      * rewrite IH. split; intros [r Hr]; exists r.
        -- rewrite str_app_cons, Hr. reflexivity.
        -- rewrite str_app_cons in Hr. injection Hr as ->. reflexivity.
      * split; [discriminate|]. intros [r Hr].
        rewrite str_app_cons in Hr. injection Hr as -> _. destruct (Hne eq_refl).
Qed.

(** [kw in s] holds exactly when [s] is [kw] between two strings. *)
Lemma str_in_iff (kw s : string) :
  str_in kw s = true <-> exists pre post, s = (pre ++ kw ++ post)%string.
Proof.
  induction s as [|c s IH].
  - change (str_in kw "") with (String.prefix kw "" || false).
    rewrite orb_false_r, prefix_iff. split.
    + intros [r Hr]. exists "", r. exact Hr.
    + intros [[|a pre] [post H]]; [exists post; exact H|].
      rewrite str_app_cons in H. discriminate.
  - change (str_in kw (String c s))
      with (String.prefix kw (String c s) || str_in kw s).
    rewrite orb_true_iff, prefix_iff, IH. split.
    + intros [[r Hr]|[pre [post H]]].
      * exists "", r. exact Hr.
      * exists (String c pre), post. rewrite str_app_cons, H. reflexivity.
    + intros [[|a pre] [post H]].
      * left. exists post. exact H.
      * right. rewrite str_app_cons in H. injection H as -> H.
        exists pre, post. exact H.
Qed.

(** A keyword with an upper-case letter occurs in no lower-cased text. *)
Lemma str_in_lower_only (kw s : string) :
  str_in kw (lower s) = true -> lower kw = kw.
Proof.
  intros Hin. apply str_in_iff in Hin. destruct Hin as [pre [post H]].
  pose proof (f_equal lower H) as HL.
  rewrite lower_idem, !lower_app, H in HL.
  apply str_app_inj_length in HL; [|rewrite lower_length; reflexivity].
  destruct HL as [_ HL].
  apply str_app_inj_length in HL; [|rewrite lower_length; reflexivity].
  destruct HL as [HL _]. symmetry. exact HL.
Qed.

Lemma filter_filter_length {A : Type} (p q : A -> bool) (l : list A) :
  (forall x, p x = true -> q x = true) ->
  List.length (List.filter p (List.filter q l)) = List.length (List.filter p l).
Proof.
  intros Hpq. induction l as [|x l IH]; [reflexivity|]. simpl.
  destruct (q x) eqn:Hq; simpl.
  - destruct (p x); simpl; congruence.
  - destruct (p x) eqn:Hp; [|exact IH].
    rewrite (Hpq x Hp) in Hq. discriminate.
Qed.

Lemma count_hits_lowercase (kws : list string) (s : string) :
  count_hits (List.filter is_lower kws) (lower s) = count_hits kws (lower s).
Proof.
  unfold count_hits. f_equal. apply filter_filter_length.
  intros kw Hkw. unfold is_lower. apply String.eqb_eq.
  apply (str_in_lower_only kw s Hkw).
Qed.

Lemma any_in_lowercase (kws : list string) (s : string) :
  any_in (List.filter is_lower kws) (lower s) = any_in kws (lower s).
Proof.
  unfold any_in. induction kws as [|kw kws IH]; [reflexivity|]. simpl.
  destruct (is_lower kw) eqn:Hl; simpl; [rewrite IH; reflexivity|].
  rewrite IH. destruct (str_in kw (lower s)) eqn:Hin; [|reflexivity].
  apply str_in_lower_only in Hin. unfold is_lower in Hl.
  rewrite Hin, String.eqb_refl in Hl. discriminate.
Qed.

(** X12. Keywords are compared as they are written with the
    lower-cased title and description: a keyword holding an upper-case
    letter never matches, so the score is the same with and without
    such keywords in the four lists. *)
Theorem uppercase_keywords_never_match (job : Job) (cfg : Config) :
  (forall kw s, lower kw <> kw -> str_in kw (lower s) = false)
  /\ score_relevance job (lowercase_keywords cfg) = score_relevance job cfg.
Proof.
  split.
  - intros kw s Hkw. destruct (str_in kw (lower s)) eqn:Hin; [|reflexivity].
    destruct (Hkw (str_in_lower_only kw s Hin)).
  - rewrite !score_relevance_unfold. cbv zeta.
    set (t := or_empty (title job)). set (d := or_empty (description job)).
    assert (Htext : (lower t ++ " " ++ lower d)%string
                    = lower (t ++ " " ++ d)).
    { rewrite !lower_app. reflexivity. }
    rewrite Htext.
    unfold title_points, must_points, nice_points, lowercase_keywords. simpl.
    rewrite !count_hits_lowercase, any_in_lowercase. reflexivity.
Qed.

(** The exclusion keyword "Intern", written with a capital, would not
    exclude the title "Summer Intern". *)
Lemma uppercase_keywords_never_match_witness :
  str_in "Intern" (lower "Summer Intern") = false.
Proof.
  apply (proj1 (uppercase_keywords_never_match example_job config)).
  discriminate.
Defined.

(** ** The salary boost *)

Lemma or_zero_ge (thr : Q) (o : option Q) :
  (0 < thr)%Q ->
  (thr <= or_zero o)%Q <-> exists q, o = Some q /\ (thr <= q)%Q.
Proof.
  intros Hpos. destruct o as [q|]; simpl.
  - destruct (Qeq_bool q 0) eqn:E.
    + apply Qeq_bool_iff in E. split.
      * intros H. exfalso. apply (Qlt_irrefl 0).
        apply (Qlt_le_trans _ thr); assumption.
      * intros [q' [Hq' H]]. injection Hq' as <-. exfalso.
        apply (Qlt_irrefl 0). apply (Qlt_le_trans _ thr); [exact Hpos|].
        rewrite <- E. exact H.
    + split; [intros H; exists q; split; [reflexivity|exact H]|].
      intros [q' [Hq' H]]. injection Hq' as <-. exact H.
  - split.
    + intros H. exfalso. apply (Qlt_irrefl 0).
      apply (Qlt_le_trans _ thr); assumption.
    + intros [q [Hq _]]. discriminate.
Qed.

Lemma py_max_ge (thr a b : Q) :
  (thr <= py_max a b)%Q <-> (thr <= a)%Q \/ (thr <= b)%Q.
Proof.
  unfold py_max. destruct (Qle_bool b a) eqn:E.
  - apply Qle_bool_iff in E. split; [intros H; left; exact H|].
    intros [H|H]; [exact H|]. apply (Qle_trans _ b); assumption.
  - assert (Hlt : (a < b)%Q).
    { apply Qnot_le_lt. intros Hle. apply Qle_bool_iff in Hle. congruence. }
    split; [intros H; right; exact H|].
    intros [H|H]; [|exact H].
    apply (Qle_trans _ a); [exact H|]. apply Qlt_le_weak. exact Hlt.
Qed.

Lemma salary_reaches (cfg : Config) (job : Job) (thr : Z) :
  0 < thr ->
  Qle_bool (inject_Z thr)
    (py_max (or_zero (min_amount job)) (or_zero (max_amount job))) = true
  <-> (exists q, min_amount job = Some q /\ (inject_Z thr <= q)%Q)
      \/ (exists q, max_amount job = Some q /\ (inject_Z thr <= q)%Q).
Proof.
  intros Hpos.
  assert (HposQ : (0 < inject_Z thr)%Q).
  { change 0%Q with (inject_Z 0). rewrite <- Zlt_Qlt. exact Hpos. }
  rewrite Qle_bool_iff, py_max_ge, !(or_zero_ge _ _ HposQ). reflexivity.
Qed.

(** X13. With positive thresholds the salary boost is 15 exactly when
    the minimum or the maximum amount reaches [SALARY_BOOST_THRESHOLD],
    8 exactly when neither does and one of them reaches
    [MIN_SALARY_PREFERRED], and 0 otherwise: the greater amount
    decides and the two bonuses do not add up. *)
Theorem salary_points_spec (cfg : Config) (job : Job) :
  0 < SALARY_BOOST_THRESHOLD cfg -> 0 < MIN_SALARY_PREFERRED cfg ->
  let reaches thr :=
    (exists q, min_amount job = Some q /\ (inject_Z thr <= q)%Q)
    \/ (exists q, max_amount job = Some q /\ (inject_Z thr <= q)%Q) in
  (salary_points cfg job = 15 <-> reaches (SALARY_BOOST_THRESHOLD cfg))
  /\ (salary_points cfg job = 8 <->
        ~ reaches (SALARY_BOOST_THRESHOLD cfg)
        /\ reaches (MIN_SALARY_PREFERRED cfg))
  /\ (salary_points cfg job = 0 <->
        ~ reaches (SALARY_BOOST_THRESHOLD cfg)
        /\ ~ reaches (MIN_SALARY_PREFERRED cfg)).
Proof.
  intros Hboost Hpref reaches.
  pose proof (salary_reaches cfg job _ Hboost) as HB.
  pose proof (salary_reaches cfg job _ Hpref) as HP.
  fold (reaches (SALARY_BOOST_THRESHOLD cfg)) in HB.
  fold (reaches (MIN_SALARY_PREFERRED cfg)) in HP.
  unfold salary_points.
  destruct (Qle_bool (inject_Z (SALARY_BOOST_THRESHOLD cfg)) _) eqn:EB.
  - assert (Hr : reaches (SALARY_BOOST_THRESHOLD cfg)) by (apply HB; reflexivity).
    split; [tauto|]. split; split; try discriminate; tauto.
  - assert (Hr : ~ reaches (SALARY_BOOST_THRESHOLD cfg)).
    { intros H. apply HB in H. discriminate. }
    destruct (Qle_bool (inject_Z (MIN_SALARY_PREFERRED cfg)) _) eqn:EP.
    + assert (Hp : reaches (MIN_SALARY_PREFERRED cfg)) by (apply HP; reflexivity).
      split; [split; [discriminate|tauto]|].
      split; [tauto|]. split; [discriminate|tauto].
    + assert (Hp : ~ reaches (MIN_SALARY_PREFERRED cfg)).
      { intros H. apply HP in H. discriminate. }
      split; [split; [discriminate|tauto]|].
      split; [split; [discriminate|tauto]|tauto].
Qed.

(** A maximum of 40 lakh alone gives the full boost under the
    configured thresholds. *)
Lemma salary_points_spec_witness :
  salary_points config
    (scorer_job "z" None None None (Some (inject_Z 4000000))) = 15.
Proof.
  apply (salary_points_spec config
           (scorer_job "z" None None None (Some (inject_Z 4000000)))).
  - reflexivity.
  - reflexivity.
  - right. exists (inject_Z 4000000). split; [reflexivity|].
    vm_compute. discriminate.
Defined.

(** ** The shape of an identifier *)

Lemma hex_digit_is_hex (n : Z) : 0 <= n <= 15 -> is_hex_digit (hex_digit n) = true.
Proof.
  intros Hn.
  assert (Hall : forallb (fun k => is_hex_digit (hex_digit (Z.of_nat k)))
                   (seq 0 16) = true) by reflexivity.
  rewrite <- (Z2Nat.id n) by lia.
  apply (proj1 (forallb_forall _ _) Hall). apply List.in_seq. lia.
Qed.

Lemma all_chars_app (p : ascii -> bool) (s t : string) :
  all_chars p (s ++ t) = all_chars p s && all_chars p t.
Proof.
  induction s as [|a s IH]; [reflexivity|].
  rewrite str_app_cons. simpl. rewrite IH. apply andb_assoc.
Qed.

Lemma hex_byte_is_hex (x : Z) :
  all_chars is_hex_digit (hex_byte (Z.land x 255)) = true.
Proof.
  set (b := Z.land x 255).
  assert (Hb : 0 <= b < 256).
  { unfold b. change 255 with (Z.ones 8). rewrite Z.land_ones by lia.
    apply Z.mod_pos_bound. reflexivity. }
  assert (Hlo : 0 <= Z.land b 15 <= 15).
  { assert (Hl : Z.land b 15 = b mod 16).
    { change 15 with (Z.ones 4). rewrite Z.land_ones by lia. reflexivity. }
    rewrite Hl. pose proof (Z.mod_pos_bound b 16 eq_refl) as Hm. lia. }
  assert (Hhi : 0 <= Z.shiftr b 4 <= 15).
  { rewrite Z.shiftr_div_pow2 by lia. change (2 ^ 4) with 16.
    split; [apply Z.div_pos; lia|].
    assert (b / 16 < 16); [|lia].
    apply Z.div_lt_upper_bound; lia. }
  unfold hex_byte. simpl all_chars.
  rewrite (hex_digit_is_hex _ Hlo), (hex_digit_is_hex _ Hhi). reflexivity.
Qed.

Lemma hexdigest_is_hex (bs : list Z) :
  all_chars is_hex_digit (hexdigest bs) = true.
Proof.
  unfold hexdigest, digest, le_bytes32. destruct (md5 bs) as [a b c d].
  cbn [md5_a md5_b md5_c md5_d List.app fold_right].
  rewrite !all_chars_app, !hex_byte_is_hex. reflexivity.
Qed.

Lemma all_chars_substring (p : ascii -> bool) (n : nat) (s : string) :
  all_chars p s = true -> all_chars p (substring 0 n s) = true.
Proof.
  revert s. induction n as [|n IH]; intros s Hs.
  - destruct s; reflexivity.
  - destruct s as [|a s]; [reflexivity|]. simpl in *.
    apply andb_true_iff in Hs. destruct Hs as [Ha Hs].
    rewrite Ha, (IH s Hs). reflexivity.
Qed.

(** X14. Every identifier is made of twelve of the characters 0-9 and
    a-f, whatever the title, company and location are. *)
Theorem generate_job_id_hex (t c l : string) :
  String.length (generate_job_id t c l) = 12%nat
  /\ all_chars is_hex_digit (generate_job_id t c l) = true.
Proof.
  split; [apply generate_job_id_length|].
  unfold generate_job_id. apply all_chars_substring, hexdigest_is_hex.
Qed.

(** ** Records made from scraped rows *)

Lemma score_relevance_range (job : Job) (cfg : Config) :
  0 <= score_relevance job cfg <= 100.
Proof.
  rewrite score_relevance_unfold. cbv zeta.
  destruct (any_in _ _); [lia|].
  pose proof (title_points_range cfg (lower (or_empty (title job)))).
  pose proof (must_points_range cfg
    (lower (or_empty (title job)) ++ " " ++ lower (or_empty (description job)))).
  pose proof (nice_points_range cfg
    (lower (or_empty (title job)) ++ " " ++ lower (or_empty (description job)))).
  destruct (salary_points_cases cfg job) as [H2|[H2|H2]]; rewrite H2; lia.
Qed.

Lemma amount_or_none_nonzero (x : option Q) (q : Q) :
  amount_or_none x = Some q -> ~ (q == 0)%Q.
Proof.
  destruct x as [y|]; simpl; [|discriminate].
  destruct (Qeq_bool y 0) eqn:E; [discriminate|].
  intros H. injection H as <-. intros Hz.
  apply Qeq_bool_iff in Hz. congruence.
Qed.

(** X15. A record made from a scraped row is consistent with itself:
    its stored score is what [score_relevance] gives on the record as
    stored, between 0 and 100; its id is [generate_job_id] of its own
    title, company and location, the company being the row's
    company_name unless that is empty; it is new, with the three stage
    flags false and no tailored file; and an amount of zero is stored
    as missing. *)
Theorem make_job_consistent (cfg : Config) (now_iso today_str query : string)
    (row : Row) :
  let j := make_job cfg now_iso today_str query row in
  _relevance_score j = Some (score_relevance j cfg)
  /\ 0 <= score_of j <= 100
  /\ _id j = generate_job_id (or_empty (title j)) (or_empty (company j))
               (or_empty (location j))
  /\ company j = Some (row_company_or_name row)
  /\ _status j = Some "new"
  /\ _tailored j = Some false
  /\ _outreach_drafted j = Some false
  /\ _outreach_sent j = Some false
  /\ _tailored_file j = None
  /\ (forall q, min_amount j = Some q \/ max_amount j = Some q ->
                ~ (q == 0)%Q).
Proof.
  intros j. split; [reflexivity|]. split.
  - unfold j, make_job, score_of. simpl. apply score_relevance_range.
  - repeat (split; [reflexivity|]).
    intros q [Hq|Hq]; unfold j, make_job in Hq; simpl in Hq;
      apply (amount_or_none_nonzero _ _ Hq).
Qed.






(** ** Records without text *)

Lemma str_in_empty (kw : string) : str_in kw "" = true -> kw = "".
Proof.
  intros H. apply str_in_iff in H. destruct H as [[|a pre] [post H]].
  - destruct kw; [reflexivity|]. rewrite !str_app_cons in H. discriminate.
  - rewrite str_app_cons in H. discriminate.
Qed.

Lemma count_hits_none (kws : list string) (s : string) :
  (forall kw, In kw kws -> str_in kw s = false) -> count_hits kws s = 0.
Proof.
  intros H. unfold count_hits.
  induction kws as [|kw kws IH]; [reflexivity|]. simpl.
  rewrite (H kw (or_introl eq_refl)). apply IH.
  intros kw' Hkw'. apply H. right. exact Hkw'.
Qed.

(** X17. A record without title, description and salary scores 0,
    provided no scoring keyword is empty or a single space and the two
    salary thresholds are positive. *)
Theorem blank_record_scores_zero (job : Job) (cfg : Config) :
  or_empty (title job) = "" -> or_empty (description job) = "" ->
  min_amount job = None -> max_amount job = None ->
  (forall kw, In kw (TITLE_KEYWORDS_HIGH cfg)
              \/ In kw (DESCRIPTION_KEYWORDS_MUST cfg)
              \/ In kw (DESCRIPTION_KEYWORDS_NICE cfg) ->
              str_in kw " " = false) ->
  0 < SALARY_BOOST_THRESHOLD cfg -> 0 < MIN_SALARY_PREFERRED cfg ->
  score_relevance job cfg = 0.
Proof.
  intros Ht Hd Hmin Hmax Hkw Hboost Hpref.
  rewrite score_relevance_unfold. cbv zeta. rewrite Ht, Hd.
  change (lower "" ++ " " ++ lower "")%string with " ".
  change (lower "") with "".
  unfold title_points, must_points, nice_points.
  rewrite (count_hits_none (TITLE_KEYWORDS_HIGH cfg) "").
  2:{ intros kw Hin. destruct (str_in kw "") eqn:E; [|reflexivity].
      apply str_in_empty in E. subst kw.
      rewrite <- (Hkw "" (or_introl Hin)). reflexivity. }
  rewrite (count_hits_none (DESCRIPTION_KEYWORDS_MUST cfg) " ")
    by (intros kw Hin; apply Hkw; tauto).
  rewrite (count_hits_none (DESCRIPTION_KEYWORDS_NICE cfg) " ")
    by (intros kw Hin; apply Hkw; tauto).
  assert (Hs : salary_points cfg job = 0).
  { unfold salary_points. rewrite Hmin, Hmax. simpl.
    assert (Hno : forall thr, 0 < thr ->
                    Qle_bool (inject_Z thr) (py_max 0 0) = false).
    { intros thr Hthr. apply not_true_is_false. intros H.
      apply Qle_bool_iff in H. change (py_max 0 0) with 0%Q in H.
      change 0%Q with (inject_Z 0) in H. rewrite <- Zle_Qle in H. lia. }
    rewrite (Hno _ Hboost), (Hno _ Hpref). reflexivity. }
  rewrite Hs. destruct (any_in _ _); reflexivity.
Qed.

Lemma blank_record_scores_zero_witness :
  score_relevance (scorer_job "blank" None (Some "") None None) config = 0.
Proof.
  apply (blank_record_scores_zero
           (scorer_job "blank" None (Some "") None None) config);
    try reflexivity.
  intros kw Hin.
  assert (Hall : forallb (fun kw => negb (str_in kw " "))
                   (TITLE_KEYWORDS_HIGH config
                    ++ DESCRIPTION_KEYWORDS_MUST config
                    ++ DESCRIPTION_KEYWORDS_NICE config)%list = true)
    by (vm_compute; reflexivity).
  apply negb_true_iff. apply (proj1 (forallb_forall _ _) Hall).
  rewrite !List.in_app_iff. tauto.
Defined.

(** ** The statistics: counts and tables *)

Lemma count_if_range {A : Type} (p : A -> bool) (l : list A) :
  0 <= count_if p l <= len l.
Proof.
  unfold count_if, len. split; [lia|]. apply inj_le.
  apply List.filter_length_le.
Qed.

Lemma count_if_cons {A : Type} (p : A -> bool) (x : A) (l : list A) :
  count_if p (x :: l) = (if p x then 1 else 0) + count_if p l.
Proof.
  unfold count_if. simpl. destruct (p x); simpl List.length; lia.
Qed.

Lemma counter_get_add (k k' : string) (c : dict Z) :
  counter_get k' (counter_add k c)
  = counter_get k' c + (if String.eqb k k' then 1 else 0).
Proof.
  unfold counter_get, counter_add.
  destruct (dict_get k c) as [n|] eqn:E; rewrite dict_get_set;
    destruct (String.eqb k k') eqn:Ek; try lia.
  - apply String.eqb_eq in Ek. subst k'. rewrite E. reflexivity.
  - apply String.eqb_eq in Ek. subst k'. rewrite E. reflexivity.
Qed.

Lemma dict_total_app (a b : dict Z) :
  dict_total (a ++ b)%list = dict_total a + dict_total b.
Proof.
  unfold dict_total, dict_values. induction a as [|[k v] a IH]; simpl; lia.
Qed.

Lemma dict_total_set (k : string) (n : Z) (c : dict Z) :
  dict_get k c = Some n ->
  dict_total (dict_set k (n + 1) c) = dict_total c + 1.
Proof.
  unfold dict_total, dict_values.
  induction c as [|[k0 v0] c IH]; simpl; [discriminate|].
  destruct (String.eqb k0 k); simpl.
  - intros H. injection H as ->. lia.
  - intros H. rewrite (IH H). lia.
Qed.

Lemma dict_total_counter_add (k : string) (c : dict Z) :
  dict_total (counter_add k c) = dict_total c + 1.
Proof.
  unfold counter_add. destruct (dict_get k c) as [n|] eqn:E.
  - apply dict_total_set. exact E.
  - rewrite (dict_set_new _ _ _ E), dict_total_app. reflexivity.
Qed.

Lemma counter_fold_total (keys : list string) (c : dict Z) :
  dict_total (fold_left (fun c k => counter_add k c) keys c)
  = dict_total c + Z.of_nat (List.length keys).
Proof.
  revert c. induction keys as [|k keys IH]; intros c; simpl fold_left.
  - simpl. lia.
  - rewrite IH, dict_total_counter_add. simpl List.length. lia.
Qed.

Lemma counter_fold_get (k : string) (keys : list string) (c : dict Z) :
  counter_get k (fold_left (fun c k => counter_add k c) keys c)
  = counter_get k c + count_if (fun x => String.eqb x k) keys.
Proof.
  revert c. induction keys as [|x keys IH]; intros c; simpl fold_left.
  - unfold count_if. simpl. lia.
  - rewrite IH, counter_get_add, count_if_cons. lia.
Qed.

Lemma counter_fold_NoDup (keys : list string) (c : dict Z) :
  List.NoDup (dict_keys c) ->
  List.NoDup (dict_keys (fold_left (fun c k => counter_add k c) keys c)).
Proof.
  revert c. induction keys as [|k keys IH]; intros c Hc; [exact Hc|].
  simpl. apply IH. unfold counter_add.
  destruct (dict_get k c); apply dict_keys_set_NoDup; exact Hc.
Qed.

Lemma counter_fold_keys (keys : list string) (c : dict Z) (k : string) :
  In k (dict_keys (fold_left (fun c k => counter_add k c) keys c))
  <-> In k (dict_keys c) \/ In k keys.
Proof.
  revert c. induction keys as [|x keys IH]; intros c; simpl fold_left.
  - simpl. tauto.
  - rewrite IH. simpl.
    assert (Hadd : In k (dict_keys (counter_add x c))
                   <-> In k (dict_keys c) \/ x = k).
    { unfold counter_add. destruct (dict_get x c) as [n|] eqn:E.
      - rewrite (dict_keys_set_old _ _ _ _ E). split; [tauto|].
        intros [H|<-]; [exact H|]. apply (dict_get_Some_key _ _ _ E).
      - rewrite (dict_set_new _ _ _ E). unfold dict_keys.
        rewrite List.map_app, List.in_app_iff. simpl. tauto. }
    rewrite Hadd. tauto.
Qed.

(** A [Counter] over a list of keys: one entry per distinct key, with
    the number of its occurrences, the counts adding up to the length
    of the list. *)
Lemma Counter_spec (keys : list string) :
  List.NoDup (dict_keys (Counter keys))
  /\ dict_total (Counter keys) = Z.of_nat (List.length keys)
  /\ (forall k, counter_get k (Counter keys)
                = count_if (fun x => String.eqb x k) keys)
  /\ (forall k, In k (dict_keys (Counter keys)) <-> In k keys).
Proof.
  unfold Counter. split; [apply counter_fold_NoDup; constructor|].
  split; [rewrite counter_fold_total; reflexivity|]. split.
  - intros k. rewrite counter_fold_get. reflexivity.
  - intros k. rewrite counter_fold_keys. simpl. tauto.
Qed.

Lemma count_if_map {A B : Type} (f : A -> B) (p : B -> bool) (l : list A) :
  count_if p (map f l) = count_if (fun x => p (f x)) l.
Proof.
  induction l as [|x l IH]; [reflexivity|].
  simpl map. rewrite !count_if_cons, IH. reflexivity.
Qed.

(** X18. The source and status tables of the statistics count every
    job exactly once: each holds one entry per distinct value, a job
    without source counting as "unknown" and one without status as
    "new"; the counts of each table add up to the number of jobs, and
    an entry's count is the number of jobs with that value. *)
Theorem stats_tables_partition (jobs : list Job) :
  let source_of j := match source j with Some s => s | None => "unknown" end in
  let status_of j := match _status j with Some s => s | None => "new" end in
  dict_total (source_breakdown jobs) = len jobs
  /\ dict_total (status_pipeline jobs) = len jobs
  /\ List.NoDup (dict_keys (source_breakdown jobs))
  /\ List.NoDup (dict_keys (status_pipeline jobs))
  /\ forall k,
       counter_get k (source_breakdown jobs)
         = count_if (fun j => String.eqb (source_of j) k) jobs
       /\ counter_get k (status_pipeline jobs)
         = count_if (fun j => String.eqb (status_of j) k) jobs.
Proof.
  intros source_of status_of. unfold source_breakdown, status_pipeline.
  fold source_of. fold status_of.
  destruct (Counter_spec (map source_of jobs)) as [Hn1 [Ht1 [Hg1 _]]].
  destruct (Counter_spec (map status_of jobs)) as [Hn2 [Ht2 [Hg2 _]]].
  rewrite List.length_map in Ht1, Ht2.
  split; [exact Ht1|]. split; [exact Ht2|].
  split; [exact Hn1|]. split; [exact Hn2|].
  intros k. rewrite Hg1, Hg2, !count_if_map. split; reflexivity.
Qed.

Lemma relevant_is_top_three (jobs : list Job) :
  count_if (fun j => 50 <=? score_of j) jobs
  = count_label "90-100" jobs + count_label "70-89" jobs
    + count_label "50-69" jobs.
Proof.
  unfold count_label. induction jobs as [|j jobs IH]; [reflexivity|].
  rewrite count_if_cons, IH. cbn [List.filter].
  destruct (bucket_label_cases (score_of j))
    as [[Hs ->]|[[Hs ->]|[[Hs ->]|[[Hs ->]|[Hs ->]]]]];
    cbn -[Z.add Z.of_nat List.filter bucket_label Z.leb];
    destruct (Z.leb_spec 50 (score_of j)); simpl List.length; lia.
Qed.

(** X19. The funnel agrees with the histogram and with itself:
    [relevant_50plus] is the sum of the buckets 90-100, 70-89 and 50-69
    of the score distribution over the same jobs, [discovered] is the
    sum of all five, and the relevant, tailored, applied and interview
    counts are between 0 and [discovered], applied and interview
    together too. *)
Theorem funnel_consistent (jobs : list Job) (drafts : list Draft) :
  let f := funnel jobs drafts in
  (exists h, score_distribution jobs = Some h
     /\ relevant_50plus f
        = counter_get "90-100" h + counter_get "70-89" h
          + counter_get "50-69" h
     /\ discovered f = dict_total h)
  /\ 0 <= relevant_50plus f <= discovered f
  /\ 0 <= tailored f <= discovered f
  /\ 0 <= applied f /\ 0 <= interview f
  /\ applied f + interview f <= discovered f
  /\ 0 <= outreach_sent f.
Proof.
  intros f. split; [|split; [|split; [|split; [|split; [|split]]]]].
  - eexists. split.
    + unfold score_distribution, score_buckets_init.
      rewrite score_loop_counts. reflexivity.
    + split.
      * unfold f, funnel, relevant_50plus. rewrite relevant_is_top_three.
        unfold counter_get. simpl. lia.
      * unfold f, funnel, discovered, dict_total, dict_values.
        cbn [map snd fold_right]. pose proof (count_label_sum jobs).
        rewrite len_length. lia.
  - apply count_if_range.
  - apply count_if_range.
  - unfold f, funnel, applied.
    destruct (Counter_spec (map (fun j => match _status j with
                                          | Some s => s | None => "new" end) jobs))
      as [_ [_ [Hg _]]].
    unfold status_pipeline. rewrite Hg. apply count_if_range.
  - unfold f, funnel, interview.
    destruct (Counter_spec (map (fun j => match _status j with
                                          | Some s => s | None => "new" end) jobs))
      as [_ [_ [Hg _]]].
    unfold status_pipeline. rewrite Hg. apply count_if_range.
  - unfold f, funnel, applied, interview, discovered.
    destruct (Counter_spec (map (fun j => match _status j with
                                          | Some s => s | None => "new" end) jobs))
      as [_ [_ [Hg _]]].
    unfold status_pipeline. rewrite !Hg, !count_if_map.
    clear. induction jobs as [|j jobs IH]; [reflexivity|].
    rewrite !count_if_cons. unfold len in *. simpl List.length.
    destruct (String.eqb _ "applied") eqn:E1;
      destruct (String.eqb _ "interview") eqn:E2; try lia.
    apply String.eqb_eq in E1. apply String.eqb_eq in E2.
    rewrite E1 in E2. discriminate.
  - apply count_if_range.
Qed.

(** ** The statistics: cities *)

Lemma rstrip_cons_nonspace (c : ascii) (r : string) :
  isspace c = false -> rstrip (String c r) = String c (rstrip r).
Proof. intros Hc. simpl. rewrite Hc. destruct (rstrip r); reflexivity. Qed.

Lemma rstrip_idem (s : string) : rstrip (rstrip s) = rstrip s.
Proof.
  induction s as [|c s IH]; [reflexivity|]. simpl.
  destruct (rstrip s) as [|c' r'] eqn:E.
  - destruct (isspace c) eqn:Hc; [reflexivity|].
    simpl. rewrite Hc. reflexivity.
  - simpl. simpl in IH. rewrite IH. reflexivity.
Qed.

Lemma lstrip_head (s : string) :
  lstrip s = "" \/ exists c r, lstrip s = String c r /\ isspace c = false.
Proof.
  induction s as [|a s IH]; [left; reflexivity|]. simpl.
  destruct (isspace a) eqn:Ha; [exact IH|].
  right. exists a, s. split; [reflexivity|exact Ha].
Qed.

(** Stripping twice is stripping once. *)
Lemma strip_idem (s : string) : strip (strip s) = strip s.
Proof.
  unfold strip. destruct (lstrip_head s) as [->|[c [r [-> Hc]]]]; [reflexivity|].
  rewrite (rstrip_cons_nonspace c r Hc). simpl lstrip. rewrite Hc.
  rewrite (rstrip_cons_nonspace c _ Hc), rstrip_idem. reflexivity.
Qed.

Lemma all_chars_lstrip (p : ascii -> bool) (s : string) :
  all_chars p s = true -> all_chars p (lstrip s) = true.
Proof.
  induction s as [|a s IH]; [reflexivity|]. intros Hs. simpl.
  destruct (isspace a); [|exact Hs].
  simpl in Hs. apply andb_true_iff in Hs. apply IH, Hs.
Qed.

Lemma all_chars_rstrip (p : ascii -> bool) (s : string) :
  all_chars p s = true -> all_chars p (rstrip s) = true.
Proof.
  induction s as [|a s IH]; [reflexivity|]. intros Hs. simpl in Hs.
  apply andb_true_iff in Hs. destruct Hs as [Ha Hs]. specialize (IH Hs).
  simpl. destruct (rstrip s) as [|c' r'].
  - destruct (isspace a); [reflexivity|]. simpl. rewrite Ha. reflexivity.
  - simpl in *. rewrite Ha, IH. reflexivity.
Qed.

Lemma prefix_char (a c : ascii) (s : string) :
  String.prefix (String a "") (String c s) = Ascii.eqb c a.
Proof.
  destruct (Ascii.eqb_spec c a) as [->|Hne].
  - apply prefix_iff. exists s. reflexivity.
  - apply not_true_is_false. intros H. apply prefix_iff in H.
    destruct H as [r Hr]. rewrite str_app_cons in Hr. injection Hr as Hc _.
    destruct (Hne Hc).
Qed.

Lemma str_in_comma (s : string) :
  str_in "," s = negb (all_chars (fun c => negb (Ascii.eqb c ",")) s).
Proof.
  induction s as [|c s IH]; [reflexivity|].
  change (str_in "," (String c s))
    with (String.prefix "," (String c s) || str_in "," s).
  rewrite prefix_char, IH. simpl all_chars.
  destruct (Ascii.eqb c ","); reflexivity.
Qed.

Lemma before_comma_no_comma (s : string) :
  all_chars (fun c => negb (Ascii.eqb c ",")) (before_comma s) = true.
Proof.
  induction s as [|c s IH]; [reflexivity|]. simpl.
  destruct (Ascii.eqb c ",") eqn:Hc; [reflexivity|].
  simpl. rewrite Hc, IH. reflexivity.
Qed.

Lemma before_comma_split (head rest : string) :
  str_in "," head = false ->
  before_comma (head ++ "," ++ rest) = head
  /\ before_comma head = head.
Proof.
  rewrite str_in_comma. intros Hh. apply negb_false_iff in Hh.
  induction head as [|c head IH]; [split; reflexivity|].
  simpl in Hh. apply andb_true_iff in Hh. destruct Hh as [Hc Hh].
  apply negb_true_iff in Hc. destruct (IH Hh) as [IH1 IH2].
  rewrite str_app_cons. simpl. rewrite Hc, IH1, IH2. split; reflexivity.
Qed.

(** X20. The city under which a job is counted is the text before the
    first comma of its location, trimmed: it holds no comma and no
    whitespace at either end; a location without comma is counted as
    a whole, trimmed; a missing or empty location is counted as
    "Unknown". *)
Theorem city_of_normalised (j : Job) :
  str_in "," (city_of j) = false
  /\ strip (city_of j) = city_of j
  /\ (location j = None \/ location j = Some "" -> city_of j = "Unknown")
  /\ (forall head rest,
        location j = Some (head ++ "," ++ rest)%string ->
        str_in "," head = false -> city_of j = strip head)
  /\ (forall l, location j = Some l -> l <> "" -> str_in "," l = false ->
        city_of j = strip l).
Proof.
  unfold city_of. split; [|split; [|split; [|split]]].
  - destruct (String.eqb _ ""); [reflexivity|].
    rewrite str_in_comma. apply negb_false_iff.
    unfold strip. apply all_chars_rstrip, all_chars_lstrip.
    apply before_comma_no_comma.
  - destruct (String.eqb _ ""); [reflexivity|apply strip_idem].
  - intros [->| ->]; reflexivity.
  - intros head rest -> Hhead.
    destruct (before_comma_split head rest Hhead) as [-> _].
    destruct (String.eqb_spec (head ++ "," ++ rest) "") as [Hempty|_];
      [|reflexivity].
    destruct head; rewrite ?str_app_cons in Hempty; discriminate.
  - intros l -> Hne Hl.
    destruct (before_comma_split l "" Hl) as [_ ->].
    destruct (String.eqb_spec l "") as [Hempty|_]; [destruct (Hne Hempty)|].
    reflexivity.
Qed.

Lemma city_of_normalised_witness :
  city_of (scorer_job "a" None None None None) = "Unknown"
  /\ str_in "," (city_of (scorer_job "a" None None None None)) = false.
Proof.
  split.
  - apply (city_of_normalised (scorer_job "a" None None None None)).
    left. reflexivity.
  - apply (city_of_normalised (scorer_job "a" None None None None)).
Defined.

(** ** The statistics: the daily series and the top lists *)

Lemma count_if_filter_le {A : Type} (p q : A -> bool) (l : list A) :
  count_if p (List.filter q l) <= count_if q l.
Proof.
  pose proof (count_if_range p (List.filter q l)) as H.
  unfold count_if, len in *. lia.
Qed.

Lemma no_date_zero (x : option string) (ds : list string) :
  (forall d, In d ds -> get_is x d = false) ->
  fold_right Z.add 0 (map (fun d => if get_is x d then 1 else 0) ds) = 0.
Proof.
  induction ds as [|d ds IH]; intros Hall; [reflexivity|].
  cbn [map fold_right]. rewrite (Hall d (or_introl eq_refl)).
  rewrite IH; [reflexivity|]. intros d' Hd'. apply Hall. right. exact Hd'.
Qed.

Lemma one_date_at_most (x : option string) (ds : list string) :
  List.NoDup ds ->
  fold_right Z.add 0 (map (fun d => if get_is x d then 1 else 0) ds) <= 1
  /\ 0 <= fold_right Z.add 0 (map (fun d => if get_is x d then 1 else 0) ds).
Proof.
  intros Hnd. induction ds as [|d ds IH]; [simpl; lia|].
  apply List.NoDup_cons_iff in Hnd. destruct Hnd as [Hni Hnd].
  specialize (IH Hnd). cbn [map fold_right].
  destruct (get_is x d) eqn:E; [|lia].
  rewrite no_date_zero; [lia|].
  intros d' Hd'. destruct x as [s|]; [|reflexivity]. simpl in *.
  apply String.eqb_eq in E. subst s. apply String.eqb_neq.
  intros Heq. subst d'. destruct (Hni Hd').
Qed.

(** Jobs found on pairwise distinct dates are distinct jobs. *)
Lemma found_on_distinct_dates (ds : list string) (jobs : list Job) :
  List.NoDup ds ->
  fold_right Z.add 0
    (map (fun d => len (List.filter (fun j => get_is (_scraped_date j) d) jobs))
       ds)
  <= len jobs.
Proof.
  intros Hnd. induction jobs as [|j jobs IH].
  - assert (H : forall l : list string,
              fold_right Z.add 0 (map (fun _ => len (@nil Job)) l) = 0).
    { induction l as [|d l IHl]; [reflexivity|].
      cbn [map fold_right]. rewrite IHl. reflexivity. }
    cbn [List.filter]. rewrite H. reflexivity.
  - assert (Hsplit : forall l : list string,
      fold_right Z.add 0
        (map (fun d => len (List.filter
                (fun j => get_is (_scraped_date j) d) (j :: jobs))) l)
      = fold_right Z.add 0
          (map (fun d => if get_is (_scraped_date j) d then 1 else 0) l)
        + fold_right Z.add 0
            (map (fun d => len (List.filter
                    (fun j => get_is (_scraped_date j) d) jobs)) l)).
    { induction l as [|d l IHl]; [reflexivity|]. cbn [map fold_right].
      rewrite IHl. cbn [List.filter].
      destruct (get_is (_scraped_date j) d); unfold len; cbn [List.length]; lia. }
    rewrite Hsplit.
    destruct (one_date_at_most (_scraped_date j) ds Hnd) as [H1 _].
    change (len (j :: jobs)) with (Z.of_nat (S (List.length jobs))).
    change (len jobs) with (Z.of_nat (List.length jobs)) in IH. lia.
Qed.

(** X21. The daily series has fourteen rows, oldest day first; on
    every row the tailored count is at most the jobs found that day,
    which is at most the number of jobs, and the drafted count at most
    the number of drafts; when the fourteen dates are pairwise distinct
    the jobs found add up to at most the number of jobs. *)
Theorem daily_activity_shape (day_str : nat -> string) (jobs : list Job)
    (drafts : list Draft) :
  let rows := daily_activity day_str jobs drafts in
  List.length rows = 14%nat
  /\ map day_date rows = rev (map day_str (seq 0 14))
  /\ (forall r, In r rows ->
        0 <= day_resumes_tailored r <= day_jobs_found r
        /\ day_jobs_found r <= len jobs
        /\ 0 <= day_outreach_drafted r <= len drafts)
  /\ (List.NoDup (map day_str (seq 0 14)) ->
      fold_right Z.add 0 (map day_jobs_found rows) <= len jobs).
Proof.
  intros rows. unfold rows, daily_activity.
  split; [rewrite List.length_rev, List.length_map; reflexivity|].
  split; [rewrite List.map_rev, List.map_map; reflexivity|]. split.
  - intros r Hr. apply List.in_rev in Hr. apply List.in_map_iff in Hr.
    destruct Hr as [i [<- _]]. unfold day_row. simpl. split; [|split].
    + apply count_if_range.
    + unfold len. apply inj_le. apply List.filter_length_le.
    + apply count_if_range.
  - intros Hnd.
    assert (Hperm : Permutation
              (map day_jobs_found
                 (rev (map (day_row day_str jobs drafts) (seq 0 14))))
              (map (fun d => len (List.filter
                      (fun j => get_is (_scraped_date j) d) jobs))
                 (map day_str (seq 0 14)))).
    { rewrite List.map_rev, !List.map_map. symmetry. apply Permutation_rev. }
    assert (Hsum : forall a b : list Z, Permutation a b ->
              fold_right Z.add 0 a = fold_right Z.add 0 b).
    { induction 1; simpl; lia. }
    rewrite (Hsum _ _ Hperm). apply found_on_distinct_dates. exact Hnd.
Qed.

Lemma daily_activity_shape_witness :
  fold_right Z.add 0
    (map day_jobs_found
       (daily_activity (fun i => NilZero.string_of_uint (Nat.to_uint i))
          [scored_job "a" (Some 10)] [])) <= 1.
Proof.
  apply (daily_activity_shape
           (fun i => NilZero.string_of_uint (Nat.to_uint i))
           [scored_job "a" (Some 10)] []).
  vm_compute.
  repeat (constructor; [simpl; intuition discriminate|]). constructor.
Defined.

Lemma insert_count_perm (kv : string * Z) (l : dict Z) :
  Permutation (insert_count kv l) (kv :: l).
Proof.
  induction l as [|x l IH]; simpl; [reflexivity|].
  destruct (snd x <=? snd kv); [reflexivity|].
  rewrite IH. apply perm_swap.
Qed.

Lemma sort_counts_perm (c : dict Z) :
  Permutation (fold_right insert_count [] c) c.
Proof.
  induction c as [|kv c IH]; simpl; [reflexivity|].
  rewrite insert_count_perm. apply perm_skip. exact IH.
Qed.

Lemma insert_count_sorted (kv : string * Z) (l : dict Z) :
  StronglySorted (fun a b => snd b <= snd a) l ->
  StronglySorted (fun a b => snd b <= snd a) (insert_count kv l).
Proof.
  induction l as [|x l IH]; intros Hs; simpl.
  - constructor; constructor.
  - apply StronglySorted_inv in Hs. destruct Hs as [Hl Hx].
    destruct (Z.leb_spec (snd x) (snd kv)) as [Hle|Hgt].
    + constructor; [constructor; assumption|].
      constructor; [exact Hle|].
      apply List.Forall_forall. intros b Hb.
      pose proof (proj1 (List.Forall_forall _ _) Hx b Hb). simpl in *. lia.
    + constructor; [apply IH; exact Hl|].
      apply List.Forall_forall. intros b Hb.
      apply (Permutation_in _ (insert_count_perm kv l)) in Hb.
      destruct Hb as [<-|Hb]; [lia|].
      apply (proj1 (List.Forall_forall _ _) Hx b Hb).
Qed.

Lemma sort_counts_sorted (c : dict Z) :
  StronglySorted (fun a b => snd b <= snd a) (fold_right insert_count [] c).
Proof.
  induction c as [|kv c IH]; simpl; [constructor|].
  apply insert_count_sorted. exact IH.
Qed.

Lemma In_firstn {A : Type} (n : nat) (l : list A) (x : A) :
  In x (firstn n l) -> In x l.
Proof.
  revert l. induction n as [|n IH]; intros [|y l]; simpl; try tauto.
  intros [->|H]; [left; reflexivity|right; apply IH; exact H].
Qed.

Lemma StronglySorted_firstn {A : Type} (R : A -> A -> Prop) (n : nat)
    (l : list A) :
  StronglySorted R l -> StronglySorted R (firstn n l).
Proof.
  revert l. induction n as [|n IH]; intros l Hs; [constructor|].
  destruct l as [|x l]; [constructor|].
  apply StronglySorted_inv in Hs. destruct Hs as [Hl Hx]. simpl.
  constructor; [apply IH; exact Hl|].
  apply List.Forall_forall. intros b Hb.
  apply (proj1 (List.Forall_forall _ _) Hx). apply (In_firstn n l b Hb).
Qed.

Lemma dict_total_perm (a b : dict Z) :
  Permutation a b -> dict_total a = dict_total b.
Proof.
  unfold dict_total, dict_values. induction 1; simpl; lia.
Qed.

Lemma dict_total_firstn (n : nat) (l : dict Z) :
  List.Forall (fun kv => 0 <= snd kv) l ->
  0 <= dict_total (firstn n l) <= dict_total l.
Proof.
  unfold dict_total, dict_values. revert n.
  induction l as [|[k v] l IH]; intros n Hl.
  - destruct n; simpl; lia.
  - apply List.Forall_cons_iff in Hl. destruct Hl as [Hv Hl]. simpl in Hv.
    destruct n as [|n]; simpl.
    + specialize (IH 0%nat Hl). simpl in IH. lia.
    + specialize (IH n Hl). lia.
Qed.

Lemma NoDup_firstn {A : Type} (n : nat) (l : list A) :
  List.NoDup l -> List.NoDup (firstn n l).
Proof.
  intros Hnd. rewrite <- (List.firstn_skipn n l) in Hnd.
  apply List.NoDup_app_remove_r in Hnd. exact Hnd.
Qed.

Lemma Counter_counts_positive (keys : list string) (kv : string * Z) :
  In kv (Counter keys) -> 1 <= snd kv /\ In (fst kv) keys.
Proof.
  destruct (Counter_spec keys) as [Hnd [_ [Hget Hkeys]]].
  intros Hin. destruct kv as [k n]. simpl.
  assert (Hk : In k keys).
  { apply Hkeys. unfold dict_keys. apply (List.in_map fst _ _ Hin). }
  split; [|exact Hk].
  assert (Hn : dict_get k (Counter keys) = Some n).
  { revert Hnd Hin. generalize (Counter keys). clear.
    induction d as [|[k0 v0] d IH]; intros Hnd Hin; [destruct Hin|].
    simpl in Hnd. apply List.NoDup_cons_iff in Hnd. destruct Hnd as [Hni Hnd].
    simpl. destruct Hin as [Heq|Hin].
    - injection Heq as -> ->. rewrite String.eqb_refl. reflexivity.
    - destruct (String.eqb_spec k0 k) as [->|_]; [|apply IH; assumption].
      destruct Hni. apply (List.in_map fst _ _ Hin). }
  specialize (Hget k). unfold counter_get in Hget. rewrite Hn in Hget.
  rewrite Hget. clear - Hk. induction keys as [|x keys IH]; [destruct Hk|].
  rewrite count_if_cons. pose proof (count_if_range (fun x => String.eqb x k) keys).
  destruct Hk as [->|Hk].
  - rewrite String.eqb_refl. lia.
  - specialize (IH Hk). destruct (String.eqb x k); lia.
Qed.

(** The [n] most common keys of a counter. *)
Lemma most_common_spec (n : nat) (keys : list string) :
  let top := most_common n (Counter keys) in
  (List.length top <= n)%nat
  /\ StronglySorted (fun a b => snd b <= snd a) top
  /\ List.NoDup (dict_keys top)
  /\ (forall kv, In kv top ->
        In kv (Counter keys)
        /\ snd kv = count_if (fun x => String.eqb x (fst kv)) keys
        /\ 1 <= snd kv)
  /\ (forall kv, In kv (Counter keys) -> ~ In kv top ->
        forall kv', In kv' top -> snd kv <= snd kv')
  /\ 0 <= dict_total top <= Z.of_nat (List.length keys).
Proof.
  intros top. unfold top, most_common.
  set (sorted := fold_right insert_count [] (Counter keys)).
  assert (Hperm : Permutation sorted (Counter keys)) by apply sort_counts_perm.
  assert (Hsorted : StronglySorted (fun a b => snd b <= snd a) sorted)
    by apply sort_counts_sorted.
  destruct (Counter_spec keys) as [Hnd [Htotal [Hget _]]].
  split; [apply List.firstn_le_length|].
  split; [apply StronglySorted_firstn; exact Hsorted|]. split; [|split; [|split]].
  - unfold dict_keys. rewrite <- List.firstn_map. apply NoDup_firstn.
    apply (Permutation_NoDup (l:=dict_keys (Counter keys))); [|exact Hnd].
    unfold dict_keys. apply Permutation_map. symmetry. exact Hperm.
  - intros kv Hkv. apply In_firstn in Hkv.
    apply (Permutation_in _ Hperm) in Hkv.
    split; [exact Hkv|].
    split; [|apply (Counter_counts_positive keys kv Hkv)].
    destruct kv as [k v]. simpl. rewrite <- Hget. unfold counter_get.
    assert (Hn : dict_get k (Counter keys) = Some v).
    { revert Hnd Hkv. generalize (Counter keys). clear.
      induction d as [|[k0 v0] d IH]; intros Hnd Hin; [destruct Hin|].
      simpl in Hnd. apply List.NoDup_cons_iff in Hnd. destruct Hnd as [Hni Hnd].
      simpl. destruct Hin as [Heq|Hin].
      - injection Heq as -> ->. rewrite String.eqb_refl. reflexivity.
      - destruct (String.eqb_spec k0 k) as [->|_]; [|apply IH; assumption].
        destruct Hni. apply (List.in_map fst _ _ Hin). }
    rewrite Hn. reflexivity.
  - intros kv Hkv Hnot kv' Hkv'.
    rewrite <- (List.firstn_skipn n sorted) in Hsorted.
    assert (Hrest : In kv (skipn n sorted)).
    { apply (Permutation_in _ (Permutation_sym Hperm)) in Hkv.
      rewrite <- (List.firstn_skipn n sorted) in Hkv.
      apply List.in_app_or in Hkv. destruct Hkv as [H|H]; [destruct (Hnot H)|exact H]. }
    revert Hsorted Hkv' Hrest. generalize (firstn n sorted) (skipn n sorted).
    clear. intros a b Hs Ha Hb. induction a as [|x a IH]; [destruct Ha|].
    simpl in Hs. apply StronglySorted_inv in Hs. destruct Hs as [Hs Hx].
    destruct Ha as [->|Ha]; [|apply IH; assumption].
    apply (proj1 (List.Forall_forall _ _) Hx). apply List.in_or_app. right. exact Hb.
  - rewrite <- Htotal, <- (dict_total_perm _ _ Hperm).
    apply dict_total_firstn. apply List.Forall_forall. intros kv Hkv.
    apply (Permutation_in _ Hperm) in Hkv.
    destruct (Counter_counts_positive keys kv Hkv). lia.
Qed.

(** X22. The location table holds at most ten cities and the company
    list at most fifteen companies (a job without company counting as
    "Unknown"), each once, by decreasing count; an entry's count is the
    number of jobs of that city or company, at least 1; no entry left
    out has a greater count than one kept; and the counts of each list
    add up to at most the number of jobs. *)
Theorem top_lists_spec (jobs : list Job) :
  let company_of j := match company j with Some c => c | None => "Unknown" end in
  ((List.length (location_breakdown jobs) <= 10)%nat
   /\ StronglySorted (fun a b => snd b <= snd a) (location_breakdown jobs)
   /\ List.NoDup (dict_keys (location_breakdown jobs))
   /\ (forall kv, In kv (location_breakdown jobs) ->
         snd kv = count_if (fun j => String.eqb (city_of j) (fst kv)) jobs
         /\ 1 <= snd kv)
   /\ (forall kv, In kv (location_counts jobs) ->
         ~ In kv (location_breakdown jobs) ->
         forall kv', In kv' (location_breakdown jobs) -> snd kv <= snd kv')
   /\ 0 <= dict_total (location_breakdown jobs) <= len jobs)
  /\ ((List.length (top_companies jobs) <= 15)%nat
      /\ StronglySorted (fun a b => snd b <= snd a) (top_companies jobs)
      /\ List.NoDup (dict_keys (top_companies jobs))
      /\ (forall kv, In kv (top_companies jobs) ->
            snd kv = count_if (fun j => String.eqb (company_of j) (fst kv)) jobs
            /\ 1 <= snd kv)
      /\ 0 <= dict_total (top_companies jobs) <= len jobs).
Proof.
  intros company_of. split.
  - unfold location_breakdown, location_counts.
    destruct (most_common_spec 10 (map city_of jobs))
      as [Hlen [Hsorted [Hnd [Hin [Hout Htot]]]]].
    rewrite List.length_map in Htot.
    split; [exact Hlen|]. split; [exact Hsorted|]. split; [exact Hnd|].
    split; [|split; [exact Hout|exact Htot]].
    intros kv Hkv. destruct (Hin kv Hkv) as [_ [Hc Hpos]].
    rewrite count_if_map in Hc. split; assumption.
  - unfold top_companies. fold company_of.
    destruct (most_common_spec 15 (map company_of jobs))
      as [Hlen [Hsorted [Hnd [Hin [_ Htot]]]]].
    rewrite List.length_map in Htot.
    split; [exact Hlen|]. split; [exact Hsorted|]. split; [exact Hnd|].
    split; [|exact Htot].
    intros kv Hkv. destruct (Hin kv Hkv) as [_ [Hc Hpos]].
    rewrite count_if_map in Hc. split; assumption.
Qed.

(** ** Whom the later stages treat *)

Lemma sorted_split_le (a b : list Job) :
  by_score_desc (a ++ b)%list ->
  forall x y, In x a -> In y b -> score_of y <= score_of x.
Proof.
  unfold by_score_desc. induction a as [|z a IH]; intros Hs x y Hx Hy;
    [destruct Hx|].
  simpl in Hs. apply StronglySorted_inv in Hs. destruct Hs as [Hs Hz].
  destruct Hx as [->|Hx]; [|apply (IH Hs x y Hx Hy)].
  apply (proj1 (List.Forall_forall _ _) Hz). apply List.in_or_app. right. exact Hy.
Qed.

(** The selection of the best [n] records without a flag. *)
Lemma top_unflagged_spec (flag : Job -> option bool) (n : nat) (jobs : list Job) :
  let unflagged := List.filter (fun j => negb (get_true (flag j))) jobs in
  let chosen := top_unflagged flag n jobs in
  List.length chosen = Nat.min n (List.length unflagged)
  /\ by_score_desc chosen
  /\ (forall j, In j chosen -> In j jobs /\ flag j <> Some true)
  /\ exists left_out,
       Permutation (chosen ++ left_out)%list unflagged
       /\ forall x y, In x chosen -> In y left_out -> score_of y <= score_of x.
Proof.
  intros unflagged chosen. unfold chosen, top_unflagged. fold unflagged.
  pose proof (sort_by_score_perm unflagged) as Hperm.
  pose proof (sort_by_score_sorted unflagged) as Hsorted.
  split; [|split; [|split]].
  - rewrite List.length_firstn, (Permutation_length Hperm). reflexivity.
  - apply StronglySorted_firstn. exact Hsorted.
  - intros j Hj. apply In_firstn in Hj.
    apply (Permutation_in _ Hperm) in Hj. unfold unflagged in Hj.
    apply List.filter_In in Hj. destruct Hj as [Hin Hf]. split; [exact Hin|].
    intros Ht. rewrite Ht in Hf. discriminate.
  - exists (skipn n (sort_by_score unflagged)). split.
    + rewrite List.firstn_skipn. exact Hperm.
    + apply sorted_split_le. rewrite List.firstn_skipn. exact Hsorted.
Qed.

(** X23. Tailoring takes at most 20 jobs and outreach drafting at most
    10: the jobs not yet flagged ([_tailored], [_outreach_drafted]),
    best score first; every job chosen is one of the collection and
    is not flagged, and no job left out among the unflagged ones
    scores higher than one chosen. *)
Theorem later_stages_take_the_best (jobs : list Job) :
  (List.length (to_tailor jobs) <= 20)%nat
  /\ (List.length (to_draft jobs) <= 10)%nat
  /\ by_score_desc (to_tailor jobs) /\ by_score_desc (to_draft jobs)
  /\ (forall j, In j (to_tailor jobs) -> In j jobs /\ _tailored j <> Some true)
  /\ (forall j, In j (to_draft jobs) ->
        In j jobs /\ _outreach_drafted j <> Some true)
  /\ (exists left_out,
        Permutation (to_tailor jobs ++ left_out)%list
          (List.filter (fun j => negb (get_true (_tailored j))) jobs)
        /\ forall x y, In x (to_tailor jobs) -> In y left_out ->
             score_of y <= score_of x)
  /\ (exists left_out,
        Permutation (to_draft jobs ++ left_out)%list
          (List.filter (fun j => negb (get_true (_outreach_drafted j))) jobs)
        /\ forall x y, In x (to_draft jobs) -> In y left_out ->
             score_of y <= score_of x).
Proof.
  destruct (top_unflagged_spec _tailored TOP_JOBS_TO_TAILOR jobs)
    as [Hl1 [Hs1 [Hi1 He1]]].
  destruct (top_unflagged_spec _outreach_drafted TOP_JOBS_TO_OUTREACH jobs)
    as [Hl2 [Hs2 [Hi2 He2]]].
  fold (to_tailor jobs) in *. fold (to_draft jobs) in *.
  unfold TOP_JOBS_TO_TAILOR in Hl1. unfold TOP_JOBS_TO_OUTREACH in Hl2.
  split; [lia|]. split; [lia|]. split; [exact Hs1|]. split; [exact Hs2|].
  split; [exact Hi1|]. split; [exact Hi2|]. split; [exact He1|exact He2].
Qed.

Lemma later_stages_take_the_best_witness :
  let jobs := [staged_job "a" "" true false false; scored_job "b" (Some 40);
               scored_job "c" (Some 90)] in
  to_tailor jobs = [scored_job "c" (Some 90); scored_job "b" (Some 40)]
  /\ (List.length (to_tailor jobs) <= 20)%nat.
Proof.
  intros jobs. split; [reflexivity|].
  apply (later_stages_take_the_best jobs).
Defined.

(** ** The name of a tailored file *)

Lemma replace_char_removes (a b : ascii) (s : string) :
  a <> b ->
  all_chars (fun c => negb (Ascii.eqb c a)) (replace_char a b s) = true.
Proof.
  intros Hab. induction s as [|c s IH]; [reflexivity|]. simpl. rewrite IH.
  destruct (Ascii.eqb c a) eqn:E.
  - assert (Hba : Ascii.eqb b a = false).
    { apply Ascii.eqb_neq. congruence. }
    rewrite Hba. reflexivity.
  - rewrite E. reflexivity.
Qed.

Lemma replace_char_keeps (p : ascii -> bool) (a b : ascii) (s : string) :
  p b = true -> all_chars p s = true ->
  all_chars p (replace_char a b s) = true.
Proof.
  intros Hb. induction s as [|c s IH]; [reflexivity|]. simpl.
  intros Hs. apply andb_true_iff in Hs. destruct Hs as [Hc Hs].
  rewrite (IH Hs). destruct (Ascii.eqb c a); [rewrite Hb|rewrite Hc]; reflexivity.
Qed.

Lemma substring_length_le (n : nat) (s : string) :
  (String.length (substring 0 n s) <= n)%nat.
Proof.
  revert s. induction n as [|n IH]; intros s.
  - destruct s; simpl; lia.
  - destruct s as [|a s]; simpl; [lia|]. specialize (IH s). lia.
Qed.

Lemma file_part_safe (o : option string) :
  (String.length (file_part o) <= 30)%nat
  /\ all_chars (fun c => negb (Ascii.eqb c "/")) (file_part o) = true
  /\ all_chars (fun c => negb (Ascii.eqb c " ")) (file_part o) = true.
Proof.
  unfold file_part. split; [apply substring_length_le|]. split.
  - apply all_chars_substring, replace_char_removes. discriminate.
  - apply all_chars_substring, replace_char_keeps; [reflexivity|].
    apply replace_char_removes. discriminate.
Qed.

(** X24. The company and title parts of the name of a tailored file
    have at most 30 characters and hold neither a slash nor a space;
    so when the date and the id hold no slash, the name is
    "tailored/" followed by a name without slash: the file lies
    directly in the tailored directory. *)
Theorem tailored_filename_safe (today_str : string) (job : Job) :
  all_chars (fun c => negb (Ascii.eqb c "/")) today_str = true ->
  all_chars (fun c => negb (Ascii.eqb c "/")) (_id job) = true ->
  (String.length (file_part (company job)) <= 30)%nat
  /\ (String.length (file_part (title job)) <= 30)%nat
  /\ all_chars (fun c => negb (Ascii.eqb c " ")) (file_part (company job)) = true
  /\ all_chars (fun c => negb (Ascii.eqb c " ")) (file_part (title job)) = true
  /\ exists name,
       tailored_filename today_str job = ("tailored/" ++ name)%string
       /\ all_chars (fun c => negb (Ascii.eqb c "/")) name = true.
Proof.
  intros Hday Hid.
  destruct (file_part_safe (company job)) as [Hl1 [Hs1 Hb1]].
  destruct (file_part_safe (title job)) as [Hl2 [Hs2 Hb2]].
  split; [exact Hl1|]. split; [exact Hl2|]. split; [exact Hb1|].
  split; [exact Hb2|].
  eexists. split; [unfold tailored_filename; reflexivity|].
  rewrite !all_chars_app, Hday, Hs1, Hs2, Hid. reflexivity.
Qed.

Lemma tailored_filename_safe_witness :
  exists name,
    tailored_filename "2026-01-02"
      (make_job config "now" "2026-01-02" "Business Head"
         (demo_row "VP Sales/Marketing, North & South America region" "x"))
    = ("tailored/" ++ name)%string
    /\ all_chars (fun c => negb (Ascii.eqb c "/")) name = true.
Proof.
  apply (tailored_filename_safe "2026-01-02"
           (make_job config "now" "2026-01-02" "Business Head"
              (demo_row "VP Sales/Marketing, North & South America region" "x"))).
  - reflexivity.
  - vm_compute. reflexivity.
Defined.

(** ** The statistics: salaries *)

Lemma usable_salary_iff (j : Job) (s : Q) :
  usable_salary j = Some s <->
  (max_amount j = Some s /\ (0 < s)%Q)
  \/ ((max_amount j = None \/ exists q, max_amount j = Some q /\ (q == 0)%Q)
      /\ min_amount j = Some s /\ (0 < s)%Q).
Proof.
  assert (Hkeep : forall q : Q,
            (if Qeq_bool q 0 then None
             else if Qle_bool q 0 then None else Some q) = Some s
            <-> q = s /\ (0 < s)%Q).
  { intros q. destruct (Qeq_bool q 0) eqn:E0.
    - split; [discriminate|]. intros [-> Hs]. apply Qeq_bool_iff in E0.
      rewrite E0 in Hs. destruct (Qlt_irrefl _ Hs).
    - destruct (Qle_bool q 0) eqn:E1.
      + split; [discriminate|]. intros [-> Hs]. apply Qle_bool_iff in E1.
        destruct (Qlt_irrefl 0). apply (Qlt_le_trans _ s); assumption.
      + split.
        * intros H. injection H as <-. split; [reflexivity|].
          apply Qnot_le_lt. intros Hle. apply Qle_bool_iff in Hle. congruence.
        * intros [-> _]. reflexivity. }
  unfold usable_salary, amount_or.
  destruct (max_amount j) as [q|].
  - destruct (Qeq_bool q 0) eqn:Eq.
    + apply Qeq_bool_iff in Eq. destruct (min_amount j) as [m|].
      * rewrite Hkeep. split.
        -- intros [-> Hs]. right. split; [right; exists q; split; [reflexivity|exact Eq]|].
           split; [reflexivity|exact Hs].
        -- intros [[Hq Hs]|[_ [Hm Hs]]].
           ++ injection Hq as ->. rewrite Eq in Hs. destruct (Qlt_irrefl _ Hs).
           ++ injection Hm as ->. split; [reflexivity|exact Hs].
      * split; [discriminate|].
        intros [[Hq Hs]|[_ [Hm _]]]; [|discriminate].
        injection Hq as ->. rewrite Eq in Hs. destruct (Qlt_irrefl _ Hs).
    + rewrite Hkeep. split.
      * intros [-> Hs]. left. split; [reflexivity|exact Hs].
      * intros [[Hq Hs]|[[Hn|[q' [Hq' Hz]]] _]].
        -- injection Hq as ->. split; [reflexivity|exact Hs].
        -- discriminate.
        -- injection Hq' as <-. apply Qeq_bool_iff in Hz. congruence.
  - destruct (min_amount j) as [m|].
    + rewrite Hkeep. split.
      * intros [-> Hs]. right. split; [left; reflexivity|].
        split; [reflexivity|exact Hs].
      * intros [[Hq _]|[_ [Hm Hs]]]; [discriminate|].
        injection Hm as ->. split; [reflexivity|exact Hs].
    + split; [discriminate|].
      intros [[Hq _]|[_ [Hm _]]]; discriminate.
Qed.

Lemma In_salaries (jobs : list Job) (s : Q) :
  In s (salaries jobs) <-> exists j, In j jobs /\ usable_salary j = Some s.
Proof.
  unfold salaries. rewrite List.in_flat_map. split.
  - intros [j [Hj Hs]]. exists j. split; [exact Hj|].
    destruct (usable_salary j) as [x|]; [|destruct Hs].
    destruct Hs as [->|[]]. reflexivity.
  - intros [j [Hj Hs]]. exists j. split; [exact Hj|]. rewrite Hs. left. reflexivity.
Qed.

Lemma salaries_length (jobs : list Job) :
  (List.length (salaries jobs) <= List.length jobs)%nat.
Proof.
  unfold salaries. induction jobs as [|j jobs IH]; [simpl; lia|].
  simpl. rewrite List.length_app.
  destruct (usable_salary j); simpl; lia.
Qed.

Lemma max_of_spec (r : list Q) (x : Q) :
  In (max_of x r) (x :: r)
  /\ forall y, In y (x :: r) -> (y <= max_of x r)%Q.
Proof.
  unfold max_of. revert x. induction r as [|z r IH]; intros x.
  - simpl. split; [left; reflexivity|]. intros y [<-|[]]. apply Qle_refl.
  - simpl fold_left. destruct (Qle_bool z x) eqn:E.
    + apply Qle_bool_iff in E. destruct (IH x) as [Hin Hge]. split.
      * destruct Hin as [H|H]; [left; exact H|right; right; exact H].
      * intros y [<-|[<-|Hy]].
        -- apply Hge. left. reflexivity.
        -- apply (Qle_trans _ x); [exact E|]. apply Hge. left. reflexivity.
        -- apply Hge. right. exact Hy.
    + assert (Hlt : (x <= z)%Q).
      { apply Qlt_le_weak, Qnot_le_lt. intros Hle.
        apply Qle_bool_iff in Hle. congruence. }
      destruct (IH z) as [Hin Hge]. split.
      * right. exact Hin.
      * intros y [<-|[<-|Hy]].
        -- apply (Qle_trans _ z); [exact Hlt|]. apply Hge. left. reflexivity.
        -- apply Hge. left. reflexivity.
        -- apply Hge. right. exact Hy.
Qed.

Lemma min_of_spec (r : list Q) (x : Q) :
  In (min_of x r) (x :: r)
  /\ forall y, In y (x :: r) -> (min_of x r <= y)%Q.
Proof.
  unfold min_of. revert x. induction r as [|z r IH]; intros x.
  - simpl. split; [left; reflexivity|]. intros y [<-|[]]. apply Qle_refl.
  - simpl fold_left. destruct (Qle_bool x z) eqn:E.
    + apply Qle_bool_iff in E. destruct (IH x) as [Hin Hle]. split.
      * destruct Hin as [H|H]; [left; exact H|right; right; exact H].
      * intros y [<-|[<-|Hy]].
        -- apply Hle. left. reflexivity.
        -- apply (Qle_trans _ x); [|exact E]. apply Hle. left. reflexivity.
        -- apply Hle. right. exact Hy.
    + assert (Hlt : (z <= x)%Q).
      { apply Qlt_le_weak, Qnot_le_lt. intros Hle.
        apply Qle_bool_iff in Hle. congruence. }
      destruct (IH z) as [Hin Hle]. split.
      * right. exact Hin.
      * intros y [<-|[<-|Hy]].
        -- apply (Qle_trans _ z); [|exact Hlt]. apply Hle. left. reflexivity.
        -- apply Hle. left. reflexivity.
        -- apply Hle. right. exact Hy.
Qed.

(** On amounts that are not negative [int] rounds down, so it keeps
    the order. *)
Lemma py_int_mono (a b : Q) :
  (0 <= a)%Q -> (a <= b)%Q -> 0 <= py_int a <= py_int b.
Proof.
  intros Ha Hab.
  assert (Hfloor : forall q : Q, (0 <= q)%Q -> py_int q = Qfloor q).
  { intros [n d] Hq. unfold py_int, Qfloor. simpl.
    apply Z.quot_div_nonneg; [|reflexivity].
    unfold Qle in Hq. simpl in Hq. lia. }
  rewrite (Hfloor a Ha), (Hfloor b (Qle_trans _ _ _ Ha Hab)).
  split; [|apply Qfloor_resp_le; exact Hab].
  change 0 with (Qfloor 0). apply Qfloor_resp_le. exact Ha.
Qed.

(** X25. Salary insights: a job counts with its maximum amount when
    that is positive, with its minimum amount when the maximum is
    missing or zero and the minimum is positive, and not at all
    otherwise (a negative maximum hides a positive minimum); the
    number of jobs with a salary is at most the number of jobs; the
    reported minimum and maximum are 0 when no job counts, and
    otherwise bracket the truncated amount of every job that counts. *)
Theorem salary_insights_spec (jobs : list Job) :
  (forall j s, usable_salary j = Some s <->
     (max_amount j = Some s /\ (0 < s)%Q)
     \/ ((max_amount j = None
          \/ exists q, max_amount j = Some q /\ (q == 0)%Q)
         /\ min_amount j = Some s /\ (0 < s)%Q))
  /\ 0 <= stats_jobs_with_salary jobs <= len jobs
  /\ 0 <= stats_min_salary jobs <= stats_max_salary jobs
  /\ (stats_jobs_with_salary jobs = 0 ->
      stats_min_salary jobs = 0 /\ stats_max_salary jobs = 0)
  /\ (forall j s, In j jobs -> usable_salary j = Some s ->
      stats_min_salary jobs <= py_int s <= stats_max_salary jobs).
Proof.
  split; [apply usable_salary_iff|].
  assert (Hpos : forall s, In s (salaries jobs) -> (0 < s)%Q).
  { intros s Hs. apply In_salaries in Hs. destruct Hs as [j [_ Hj]].
    apply usable_salary_iff in Hj. tauto. }
  unfold stats_jobs_with_salary, stats_min_salary, stats_max_salary.
  split; [|split; [|split]].
  - unfold len. split; [lia|]. apply inj_le, salaries_length.
  - destruct (salaries jobs) as [|x r] eqn:E; [lia|].
    destruct (min_of_spec r x) as [Hmin_in Hmin]. destruct (max_of_spec r x) as [Hmax_in Hmax].
    apply py_int_mono.
    + apply Qlt_le_weak, Hpos. exact Hmin_in.
    + apply Hmin. exact Hmax_in.
  - intros Hzero. destruct (salaries jobs) as [|x r]; [split; reflexivity|].
    unfold len in Hzero. simpl in Hzero. lia.
  - intros j s Hj Hs.
    assert (Hin : In s (salaries jobs)).
    { apply In_salaries. exists j. split; assumption. }
    destruct (salaries jobs) as [|x r] eqn:E; [destruct Hin|].
    destruct (min_of_spec r x) as [Hmin_in Hmin]. destruct (max_of_spec r x) as [Hmax_in Hmax].
    split.
    + apply py_int_mono; [apply Qlt_le_weak, Hpos; exact Hmin_in|apply Hmin; exact Hin].
    + apply py_int_mono; [apply Qlt_le_weak, Hpos; exact Hin|apply Hmax; exact Hin].
Qed.

(** ** Parsing the personalization *)

Lemma remove_from_skip (old a s : string) :
  remove_from old (String.length a) (a ++ s) = remove_from old 0 s.
Proof.
  induction a as [|c a IH]; [reflexivity|].
  rewrite str_app_cons. simpl. exact IH.
Qed.

Lemma remove_all_absent (old s : string) :
  str_in old s = false -> remove_all old s = s.
Proof.
  unfold remove_all. induction s as [|c s IH]; [reflexivity|].
  change (str_in old (String c s))
    with (String.prefix old (String c s) || str_in old s).
  intros H. apply orb_false_iff in H. destruct H as [Hp Hs].
  change (remove_from old 0 (String c s))
    with (if String.prefix old (String c s)
          then remove_from old (String.length old - 1) s
          else String c (remove_from old 0 s)).
  rewrite Hp, (IH Hs). reflexivity.
Qed.

(** A label at the start of a line is dropped with all its characters. *)
Lemma remove_all_label (c : ascii) (label value : string) :
  str_in (String c label) value = false ->
  remove_all (String c label) (String c label ++ value) = value.
Proof.
  intros Hv. unfold remove_all. rewrite str_app_cons.
  assert (Hp : String.prefix (String c label) (String c (label ++ value)) = true).
  { apply prefix_iff. exists value. rewrite str_app_cons. reflexivity. }
  change (remove_from (String c label) 0 (String c (label ++ value)))
    with (if String.prefix (String c label) (String c (label ++ value))
          then remove_from (String c label)
                 (String.length (String c label) - 1) (label ++ value)
          else String c (remove_from (String c label) 0 (label ++ value))).
  rewrite Hp.
  replace (String.length (String c label) - 1)%nat with (String.length label)
    by (simpl; lia).
  rewrite remove_from_skip. apply (remove_all_absent _ _ Hv).
Qed.

Lemma parse_line_stripped (r : Personalization) (line : string) :
  strip (value_proposition r) = value_proposition r
  /\ strip (specific_alignment r) = specific_alignment r
  /\ strip (hook r) = hook r ->
  strip (value_proposition (parse_line r line))
    = value_proposition (parse_line r line)
  /\ strip (specific_alignment (parse_line r line))
    = specific_alignment (parse_line r line)
  /\ strip (hook (parse_line r line)) = hook (parse_line r line).
Proof.
  intros [Hv [Ha Hh]]. unfold parse_line.
  destruct (String.prefix "VALUE_PROPOSITION:" (strip line)).
  { simpl. rewrite strip_idem. tauto. }
  destruct (String.prefix "SPECIFIC_ALIGNMENT:" (strip line)).
  { simpl. rewrite strip_idem. tauto. }
  destruct (String.prefix "HOOK:" (strip line)).
  { simpl. rewrite strip_idem. tauto. }
  tauto.
Qed.

Lemma parse_line_unlabelled (r : Personalization) (line : string) :
  String.prefix "VALUE_PROPOSITION:" (strip line) = false ->
  String.prefix "SPECIFIC_ALIGNMENT:" (strip line) = false ->
  String.prefix "HOOK:" (strip line) = false ->
  parse_line r line = r.
Proof. intros H1 H2 H3. unfold parse_line. rewrite H1, H2, H3. reflexivity. Qed.

Lemma split_lines_single (s : string) :
  str_in (String (chr 10) "") s = false -> split_lines s = [s].
Proof.
  induction s as [|c s IH]; [reflexivity|].
  change (str_in (String (chr 10) "") (String c s))
    with (String.prefix (String (chr 10) "") (String c s)
          || str_in (String (chr 10) "") s).
  intros H. apply orb_false_iff in H. destruct H as [Hp Hs].
  simpl split_lines. rewrite (IH Hs).
  destruct (Ascii.eqb_spec c (chr 10)) as [->|_]; [|reflexivity].
  simpl in Hp. destruct s; discriminate.
Qed.

(** X26. [parse_personalization] never fails and returns trimmed
    fields: each of the three is without whitespace at either end; a
    text none of whose lines starts, once trimmed, with one of the
    three labels gives three empty fields; and a one-line text made of
    the label HOOK: and a value in which the label does not occur
    again gives the trimmed value as hook, the other two fields
    staying empty. *)
Theorem parse_personalization_spec (text : string) :
  let r := parse_personalization text in
  (strip (value_proposition r) = value_proposition r
   /\ strip (specific_alignment r) = specific_alignment r
   /\ strip (hook r) = hook r)
  /\ ((forall line, In line (split_lines text) ->
         String.prefix "VALUE_PROPOSITION:" (strip line) = false
         /\ String.prefix "SPECIFIC_ALIGNMENT:" (strip line) = false
         /\ String.prefix "HOOK:" (strip line) = false) ->
      r = {| value_proposition := ""; specific_alignment := ""; hook := "" |})
  /\ (forall value,
        text = ("HOOK:" ++ value)%string ->
        strip text = text ->
        str_in (String (chr 10) "") text = false ->
        str_in "HOOK:" value = false ->
        r = {| value_proposition := ""; specific_alignment := "";
               hook := strip value |}).
Proof.
  intros r. unfold r, parse_personalization. split; [|split].
  - assert (Hgen : forall lines r0,
              strip (value_proposition r0) = value_proposition r0
              /\ strip (specific_alignment r0) = specific_alignment r0
              /\ strip (hook r0) = hook r0 ->
              let r1 := fold_left parse_line lines r0 in
              strip (value_proposition r1) = value_proposition r1
              /\ strip (specific_alignment r1) = specific_alignment r1
              /\ strip (hook r1) = hook r1).
    { induction lines as [|l lines IH]; intros r0 H0; [exact H0|].
      simpl. apply IH. apply parse_line_stripped. exact H0. }
    apply Hgen. simpl. repeat split; reflexivity.
  - generalize (split_lines text).
    generalize {| value_proposition := ""; specific_alignment := ""; hook := "" |}.
    intros r0 lines. revert r0.
    induction lines as [|l lines IH]; intros r0 Hall; [reflexivity|].
    simpl. destruct (Hall l (or_introl eq_refl)) as [H1 [H2 H3]].
    rewrite (parse_line_unlabelled r0 l H1 H2 H3). apply IH.
    intros line Hline. apply Hall. right. exact Hline.
  - intros value Htext Hstrip Hnl Hvalue.
    rewrite (split_lines_single text Hnl). simpl fold_left.
    unfold parse_line. rewrite Hstrip. subst text.
    assert (Hp : String.prefix "HOOK:" ("HOOK:" ++ value) = true).
    { apply prefix_iff. exists value. reflexivity. }
    assert (H1 : String.prefix "VALUE_PROPOSITION:" ("HOOK:" ++ value) = false)
      by reflexivity.
    assert (H2 : String.prefix "SPECIFIC_ALIGNMENT:" ("HOOK:" ++ value) = false)
      by reflexivity.
    rewrite H1, H2, Hp.
    rewrite (remove_all_label "H" "OOK:" value Hvalue). reflexivity.
Qed.

Lemma parse_personalization_spec_witness :
  parse_personalization "HOOK: Built marketplaces at scale"
  = {| value_proposition := ""; specific_alignment := "";
       hook := "Built marketplaces at scale" |}.
Proof.
  apply (parse_personalization_spec "HOOK: Built marketplaces at scale")
    with (value := " Built marketplaces at scale"); reflexivity.
Defined.
